(** * Cached-text: structural keys, reconciliation and the editing gate

    A shallow embedding of [popup.js] (the popup script, lines 1-179, and the
    content script that follows it, lines 180-481) and the properties of its
    key codec, reconciler, editability manager, watchers and save path.

    Conventions of the embedding.
    - A JavaScript string is a [string]; each character stands for one
      UTF-16 code unit below 256.
    - A JavaScript number that holds an integer is a [Z]; [NaN] is [None].
    - The document is the subtree of [document.body].  An element is named by
      its position: the list of element-child indices leading to it from
      [document.body].  Two elements are the same element exactly when their
      positions are equal.
    - An object used as a dictionary is the list of its own properties in
      enumeration order, every name occurring once.
    - An [async] function is run to completion in one step, except the
      callback of the mutation watcher: its three awaits are events of their
      own, and the call that is awaited has its effect in one step when its
      promise is fulfilled. *)

From Stdlib Require Import ZArith List String Ascii Bool Lia Arith.
From Stdlib Require Decimal DecimalNat DecimalString.
Import ListNotations.
Local Open Scope list_scope.
Local Open Scope string_scope.

(* ================================================================== *)
(** ** Strings *)

(** [WhiteSpace] and [LineTerminator] code units below 256: TAB, LF, VT, FF,
    CR, SP and NBSP.  Both [String.prototype.trim] and [parseInt] strip
    exactly these. *)
Definition isWhiteSpace (c : ascii) : bool :=
  existsb (N.eqb (N_of_ascii c)) [9; 10; 11; 12; 13; 32; 160]%N.

Fixpoint trimStart (s : string) : string :=
  match s with
  | String c r => if isWhiteSpace c then trimStart r else s
  | EmptyString => EmptyString
  end.

Definition isEmpty (s : string) : bool :=
  match s with EmptyString => true | _ => false end.

Fixpoint trimEnd (s : string) : string :=
  match s with
  | String c r =>
      let r' := trimEnd r in
      if isWhiteSpace c && isEmpty r' then EmptyString else String c r'
  | EmptyString => EmptyString
  end.

(** [s.trim()] *)
Definition trim (s : string) : string := trimEnd (trimStart s).

(** [s.split(sep)] for a one-character separator: never the empty list. *)
Fixpoint split (sep : ascii) (s : string) : list string :=
  match s with
  | EmptyString => [EmptyString]
  | String c r =>
      if Ascii.eqb c sep then EmptyString :: split sep r
      else match split sep r with
           | h :: t => String c h :: t
           | [] => [String c EmptyString]
           end
  end.

(** [parts.join(sep)] *)
Fixpoint join (sep : string) (parts : list string) : string :=
  match parts with
  | [] => EmptyString
  | [p] => p
  | p :: rest => p ++ sep ++ join sep rest
  end.

(** [s.startsWith(p)] *)
Definition startsWith (p s : string) : bool := String.prefix p s.

(** Whether a character occurs in a string. *)
Fixpoint occurs (c : ascii) (s : string) : bool :=
  match s with
  | EmptyString => false
  | String d r => Ascii.eqb d c || occurs c r
  end.

(** A value is truthy as a string when it is not the empty string. *)
Definition truthy (s : string) : bool := negb (isEmpty s).

(* ------------------------------------------------------------------ *)
(** *** Numbers and their decimal spelling *)

Definition isDigit (c : ascii) : bool :=
  (48 <=? N_of_ascii c)%N && (N_of_ascii c <=? 57)%N.

Definition digitVal (c : ascii) : Z := Z.of_N (N_of_ascii c) - 48.

(** The value of the longest prefix of decimal digits, on top of [acc]. *)
Fixpoint parseDigits (s : string) (acc : Z) : Z :=
  match s with
  | String c r => if isDigit c then parseDigits r (10 * acc + digitVal c)%Z else acc
  | EmptyString => acc
  end.

(** [parseInt(s, 10)]: leading white space is dropped, one sign is read, then
    the longest run of decimal digits; no digit at all gives [NaN].  What
    follows the digits is ignored.  [-0] and [0] are the same index. *)
Definition parseInt (s : string) : option Z :=
  let s1 := trimStart s in
  let '(neg, s2) :=
    match s1 with
    | String "-" r => (true, r)
    | String "+" r => (false, r)
    | _ => (false, s1)
    end in
  match s2 with
  | String c _ =>
      if isDigit c
      then Some (if neg : bool then Z.opp (parseDigits s2 0) else parseDigits s2 0)
      else None
  | EmptyString => None
  end.

(** [ToString] of a value that may be [undefined]. *)
Definition toStringU (v : option string) : string :=
  match v with Some s => s | None => "undefined" end.

(** [`${n}`] for a non-negative integer. *)
Definition decimal (n : nat) : string := DecimalString.NilEmpty.string_of_uint (Nat.to_uint n).

(** [ToString] of an integer of magnitude below [2^53]. *)
Definition decimalZ (z : Z) : string :=
  (if (z <? 0)%Z then "-" else "") ++ DecimalString.NilEmpty.string_of_uint (N.to_uint (Z.abs_N z)).

(* ------------------------------------------------------------------ *)
(** *** Objects used as dictionaries *)

(** Own properties with string values, in enumeration order.  The property
    names that occur in this program are page keys and structural keys;
    the accessor name [__proto__] is none of them. *)
Definition JSObject (V : Type) : Type := list (string * V).

(** [o[k]], [undefined] as [None]. *)
Fixpoint obj_get {V} (o : JSObject V) (k : string) : option V :=
  match o with
  | [] => None
  | (k', v) :: r => if String.eqb k' k then Some v else obj_get r k
  end.

(** [o[k] = v]: an existing property keeps its place, a new one goes last. *)
Fixpoint obj_set {V} (o : JSObject V) (k : string) (v : V) : JSObject V :=
  match o with
  | [] => [(k, v)]
  | (k', v') :: r =>
      if String.eqb k' k then (k, v) :: r else (k', v') :: obj_set r k v
  end.

(** [delete o[k]] and [chrome.storage.local.remove(k)] *)
Fixpoint obj_remove {V} (o : JSObject V) (k : string) : JSObject V :=
  match o with
  | [] => []
  | (k', v') :: r =>
      if String.eqb k' k then obj_remove r k else (k', v') :: obj_remove r k
  end.

(** [Object.keys(o)] *)
Definition obj_keys {V} (o : JSObject V) : list string := map fst o.

(* ================================================================== *)
(** ** The document *)

(** What the program reads and writes of an element. *)
Record Attrs : Type := mkAttrs {
  tagName : string;                 (* [el.tagName] *)
  elId : string;                    (* [el.id], empty when there is none *)
  elName : string;                  (* the [name] attribute, empty when there is none *)
  classList : list string;          (* [el.classList] *)
  contenteditable : option string;  (* the [contenteditable] attribute *)
  editReady : option string;        (* [el.dataset.editReady] *)
  isEditing : option string;        (* [el.dataset.isEditing] *)
  listeners : nat;                  (* how many times the listeners of [enableEditing] were attached *)
  styleCaretColor : option string;  (* [el.style.caretColor] *)
  styleUserSelect : option string;  (* [el.style.userSelect] *)
  styleCursor : option string;      (* [el.style.cursor] *)
  blockers : nat                    (* how many times the listeners of [preventActionsOnClass] were attached *)
}.

(** Nodes of the tree below [document.body]: text, anything else that is
    neither text nor element (comments), and elements. *)
#[local] Unset Elimination Schemes.
Inductive Node : Type :=
| Text (data : string)
| Comment (data : string)
| Element (a : Attrs) (childNodes : list Node).
#[local] Set Elimination Schemes.

(** Induction on a node with the hypothesis available for every child. *)
Fixpoint Node_ind (P : Node -> Prop)
    (HText : forall d, P (Text d))
    (HComment : forall d, P (Comment d))
    (HElement : forall a cs, Forall P cs -> P (Element a cs))
    (n : Node) : P n :=
  match n with
  | Text d => HText d
  | Comment d => HComment d
  | Element a cs =>
      HElement a cs
        ((fix all (l : list Node) : Forall P l :=
            match l with
            | [] => Forall_nil P
            | c :: r => Forall_cons c (Node_ind P HText HComment HElement c) (all r)
            end) cs)
  end.

(** The position of an element: element-child indices from [document.body]. *)
Definition Path : Type := list nat.

Definition isElement (n : Node) : bool :=
  match n with Element _ _ => true | _ => false end.

Definition childNodes (n : Node) : list Node :=
  match n with Element _ cs => cs | _ => [] end.

(** [node.children]: the element children, in order. *)
Definition children (n : Node) : list Node := filter isElement (childNodes n).

Definition attrs (n : Node) : option Attrs :=
  match n with Element a _ => Some a | _ => None end.

(** The texts of a list of nodes, one after the other. *)
Definition concatTexts (text : Node -> string) (l : list Node) : string :=
  fold_right (fun c rest => text c ++ rest) "" l.

(** [el.textContent]: the data of the text nodes below, in document order. *)
Fixpoint textContent (n : Node) : string :=
  match n with
  | Text d => d
  | Comment _ => ""
  | Element _ cs => concatTexts textContent cs
  end.

(** The element at a position, if the position exists. *)
Fixpoint nodeAt (n : Node) (p : Path) : option Node :=
  match p with
  | [] => Some n
  | i :: p' =>
      match nth_error (children n) i with
      | Some c => nodeAt c p'
      | None => None
      end
  end.

(** Apply [f] to the [i]-th element of a list of child nodes. *)
Fixpoint updateNthElement (f : Node -> Node) (i : nat) (l : list Node) : list Node :=
  match l with
  | [] => []
  | Element a cs :: r =>
      match i with
      | O => f (Element a cs) :: r
      | S j => Element a cs :: updateNthElement f j r
      end
  | n :: r => n :: updateNthElement f i r
  end.

(** Apply [f] to the element at a position; nothing happens at a position
    that does not exist. *)
Fixpoint updateAt (p : Path) (f : Node -> Node) (n : Node) : Node :=
  match p with
  | [] => f n
  | i :: p' =>
      match n with
      | Element a cs => Element a (updateNthElement (updateAt p' f) i cs)
      | _ => n
      end
  end.

(** Rewrite the first node of a list that [write] accepts. *)
Fixpoint writeFirst (write : Node -> option Node) (l : list Node) : option (list Node) :=
  match l with
  | [] => None
  | c :: r =>
      match write c with
      | Some c' => Some (c' :: r)
      | None => option_map (cons c) (writeFirst write r)
      end
  end.

(** [document.createTreeWalker(el, NodeFilter.SHOW_TEXT)], the first
    [nextNode()], and the assignment of its [textContent]: the first text node
    below [el] in document order gets new data.  [None] when there is no text
    node ([textNodes.length] is 0). *)
Fixpoint setFirstText (t : string) (n : Node) : option Node :=
  match n with
  | Text _ => Some (Text t)
  | Comment _ => None
  | Element a cs => option_map (Element a) (writeFirst (setFirstText t) cs)
  end.

(** The tree with the data of every text node erased: elements, their
    attributes and the arrangement of all nodes. *)
Fixpoint skeleton (n : Node) : Node :=
  match n with
  | Text _ => Text ""
  | Comment d => Comment d
  | Element a cs => Element a (map skeleton cs)
  end.

(** The number of text nodes below a node. *)
Fixpoint textNodes (n : Node) : nat :=
  match n with
  | Text _ => 1
  | Comment _ => 0
  | Element _ cs => list_sum (map textNodes cs)
  end.

Definition setAttrs (f : Attrs -> Attrs) (n : Node) : Node :=
  match n with Element a cs => Element (f a) cs | _ => n end.

Definition with_contenteditable (v : string) (a : Attrs) : Attrs :=
  mkAttrs (tagName a) (elId a) (elName a) (classList a) (Some v)
          (editReady a) (isEditing a) (listeners a) (styleCaretColor a) (styleUserSelect a)
          (styleCursor a) (blockers a).

Definition with_editReady (v : string) (a : Attrs) : Attrs :=
  mkAttrs (tagName a) (elId a) (elName a) (classList a) (contenteditable a)
          (Some v) (isEditing a) (listeners a) (styleCaretColor a) (styleUserSelect a)
          (styleCursor a) (blockers a).

Definition with_isEditing (v : string) (a : Attrs) : Attrs :=
  mkAttrs (tagName a) (elId a) (elName a) (classList a) (contenteditable a)
          (editReady a) (Some v) (listeners a) (styleCaretColor a) (styleUserSelect a)
          (styleCursor a) (blockers a).

Definition with_listeners (a : Attrs) : Attrs :=
  mkAttrs (tagName a) (elId a) (elName a) (classList a) (contenteditable a)
          (editReady a) (isEditing a) (S (listeners a)) (styleCaretColor a) (styleUserSelect a)
          (styleCursor a) (blockers a).

(** [el.style.caretColor = v], [el.style.userSelect = v] and
    [el.style.cursor = v] *)
Definition with_styleCaretColor (v : string) (a : Attrs) : Attrs :=
  mkAttrs (tagName a) (elId a) (elName a) (classList a) (contenteditable a)
          (editReady a) (isEditing a) (listeners a) (Some v) (styleUserSelect a)
          (styleCursor a) (blockers a).

Definition with_styleUserSelect (v : string) (a : Attrs) : Attrs :=
  mkAttrs (tagName a) (elId a) (elName a) (classList a) (contenteditable a)
          (editReady a) (isEditing a) (listeners a) (styleCaretColor a) (Some v)
          (styleCursor a) (blockers a).

Definition with_styleCursor (v : string) (a : Attrs) : Attrs :=
  mkAttrs (tagName a) (elId a) (elName a) (classList a) (contenteditable a)
          (editReady a) (isEditing a) (listeners a) (styleCaretColor a)
          (styleUserSelect a) (Some v) (blockers a).

Definition with_blockers (a : Attrs) : Attrs :=
  mkAttrs (tagName a) (elId a) (elName a) (classList a) (contenteditable a)
          (editReady a) (isEditing a) (listeners a) (styleCaretColor a)
          (styleUserSelect a) (styleCursor a) (S (blockers a)).

(** A dataset entry or attribute read as a condition: [undefined] and the
    empty string are falsy, every other string is truthy. *)
Definition truthyU (v : option string) : bool :=
  match v with Some s => truthy s | None => false end.

Definition optEq (v : option string) (s : string) : bool :=
  match v with Some t => String.eqb t s | None => false end.

Definition hasClass (cls : string) (a : Attrs) : bool :=
  existsb (String.eqb cls) (classList a).

(* ================================================================== *)
(** ** The content script *)

Section ContentScript.

(** [ToString] of the number that [parseInt] gives for an integer of
    magnitude [2^53] or more.  Such a number is rounded to a double, and past
    twenty digits [parseInt] may approximate it; its spelling is left open. *)
Variable hugeNumberKey : Z -> string.

(** [const PREVENTED_CLASSES = ["_e9h"]] *)
Definition PREVENTED_CLASSES : list string := ["_e9h"].

(* ------------------------------------------------------------------ *)
(** *** The reentrancy guard of [startObservers] *)

(** Where a suspended callback of the observer waits. *)
Inductive Stage : Type :=
| awaitApplyEdits
| awaitEnableEditing
| awaitPreventActions.

(** The closure of [startObservers]: the variable [applying] and the
    callbacks that are suspended at an [await].  [started], [completed],
    [failed] and [ignored] count the callbacks that went past the guard, that
    reached [applying = false], that ended at a rejected [await], and that
    returned at the guard. *)
Record Watcher : Type := mkWatcher {
  applying : bool;
  suspended : list Stage;
  started : nat;
  completed : nat;
  failed : nat;
  ignored : nat
}.

Inductive WatcherEvent : Type :=
| Batch               (* the observer calls back with a batch of mutations *)
| Resume (k : nat)    (* the promise awaited by the [k]-th suspended callback is fulfilled *)
| Reject (k : nat).   (* the promise awaited by the [k]-th suspended callback is rejected *)

Fixpoint setNth {A} (k : nat) (x : A) (l : list A) : list A :=
  match l, k with
  | [], _ => []
  | _ :: r, O => x :: r
  | y :: r, S j => y :: setNth j x r
  end.

Fixpoint removeNth {A} (k : nat) (l : list A) : list A :=
  match l, k with
  | [], _ => []
  | _ :: r, O => r
  | y :: r, S j => y :: removeNth j r
  end.

(** One event at the observer of [startObservers] (lines 377-384).  A
    rejected [await] ends the callback before [applying = false]. *)
Definition watcherStep (w : Watcher) (ev : WatcherEvent) : Watcher :=
  match ev with
  | Batch =>
      if applying w
      then mkWatcher (applying w) (suspended w) (started w) (completed w) (failed w)
                     (S (ignored w))
      else mkWatcher true (suspended w ++ [awaitApplyEdits])%list
                     (S (started w)) (completed w) (failed w) (ignored w)
  | Resume k =>
      match nth_error (suspended w) k with
      | Some awaitApplyEdits =>
          mkWatcher (applying w) (setNth k awaitEnableEditing (suspended w))
                    (started w) (completed w) (failed w) (ignored w)
      | Some awaitEnableEditing =>
          mkWatcher (applying w) (setNth k awaitPreventActions (suspended w))
                    (started w) (completed w) (failed w) (ignored w)
      | Some awaitPreventActions =>
          mkWatcher false (removeNth k (suspended w))
                    (started w) (S (completed w)) (failed w) (ignored w)
      | None => w
      end
  | Reject k =>
      match nth_error (suspended w) k with
      | Some _ =>
          mkWatcher (applying w) (removeNth k (suspended w))
                    (started w) (completed w) (S (failed w)) (ignored w)
      | None => w
      end
  end.

Definition watcherRun (w : Watcher) (evs : list WatcherEvent) : Watcher :=
  fold_left watcherStep evs w.

(** [startObservers()]: [let applying = false], nothing suspended. *)
Definition startObservers : Watcher := mkWatcher false [] 0 0 0 0.

(* ------------------------------------------------------------------ *)
(** *** Storage and state *)

(** [chrome.storage.local]: the entry [editingEnabled] and one entry per page
    key.  A page key is an origin followed by a path and so is never the
    string [editingEnabled]; the two are kept apart. *)
Record Storage : Type := mkStorage {
  storedEditingEnabled : option bool;
  storedPages : JSObject (JSObject string)
}.

(** The variables of the content script, the document and the location. *)
Record State : Type := mkState {
  body : Node;                                (* [document.body] and below *)
  location : string;                          (* [location.origin + location.pathname] *)
  storage : Storage;
  editingEnabled : bool;                      (* [let editingEnabled] *)
  currentPageKey : string;                    (* [let currentPageKey] *)
  editedElementsMap : JSObject (list string); (* [const editedElementsMap], each [Set] in insertion order *)
  lastPath : string;                          (* [let lastPath] of [startPathObserver] *)
  watcher : Watcher;                          (* the closure of [startObservers] *)
  requestedKey : string                       (* the key that the [applyEdits] of the pass in flight
                                                 gave to [chrome.storage.local.get] *)
}.

Definition with_body (b : Node) (st : State) : State :=
  mkState b (location st) (storage st) (editingEnabled st) (currentPageKey st)
          (editedElementsMap st) (lastPath st) (watcher st) (requestedKey st).

Definition with_storage (s : Storage) (st : State) : State :=
  mkState (body st) (location st) s (editingEnabled st) (currentPageKey st)
          (editedElementsMap st) (lastPath st) (watcher st) (requestedKey st).

Definition with_editedElementsMap (m : JSObject (list string)) (st : State) : State :=
  mkState (body st) (location st) (storage st) (editingEnabled st) (currentPageKey st)
          m (lastPath st) (watcher st) (requestedKey st).

Definition with_editingEnabled (e : bool) (st : State) : State :=
  mkState (body st) (location st) (storage st) e (currentPageKey st)
          (editedElementsMap st) (lastPath st) (watcher st) (requestedKey st).

Definition with_watcher (w : Watcher) (st : State) : State :=
  mkState (body st) (location st) (storage st) (editingEnabled st) (currentPageKey st)
          (editedElementsMap st) (lastPath st) w (requestedKey st).

Definition with_requestedKey (k : string) (st : State) : State :=
  mkState (body st) (location st) (storage st) (editingEnabled st) (currentPageKey st)
          (editedElementsMap st) (lastPath st) (watcher st) k.

(** [set.add(k)] *)
Definition set_add (k : string) (s : list string) : list string :=
  if existsb (String.eqb k) s then s else (s ++ [k])%list.

(** [getEditedElementsForPage()] (lines 194-198): the set of the current
    page, created empty when the map has none. *)
Definition getEditedElementsForPage (st : State) : State * list string :=
  match obj_get (editedElementsMap st) (currentPageKey st) with
  | Some s => (st, s)
  | None =>
      (with_editedElementsMap (obj_set (editedElementsMap st) (currentPageKey st) []) st, [])
  end.

(** [isEditingEnabled()] (lines 201-204): [data.editingEnabled !== false] *)
Definition isEditingEnabled (s : Storage) : bool :=
  match storedEditingEnabled s with Some false => false | _ => true end.

(** [hasPreventedClass(element)] (lines 207-210) *)
Definition hasPreventedClass (s : Storage) (a : Attrs) : bool :=
  if isEditingEnabled s then false
  else existsb (fun cls => hasClass cls a) PREVENTED_CLASSES.

(** [getSavedEdits()] (lines 235-238): [data[currentPageKey] || {}] *)
Definition getSavedEdits (st : State) : JSObject string :=
  match obj_get (storedPages (storage st)) (currentPageKey st) with
  | Some edits => edits
  | None => []
  end.

(* ------------------------------------------------------------------ *)
(** *** Keys *)

(** The loop of [getKey].  [up] is the position of [node] read from the node
    upwards; it is empty when [node === document.body].  The index of [node]
    among [node.parentNode.children] is the last step of its position. *)
Fixpoint getKey_loop (body : Node) (up : list nat) (path : list string) : list string :=
  match up with
  | [] => path
  | index :: up' =>
      match nodeAt body (rev up) with
      | Some node =>
          let tag := match attrs node with Some a => tagName a | None => "" end in
          getKey_loop body up' ((tag ++ ":" ++ decimal index) :: path)
      | None => path
      end
  end.

(** [getKey(el)] (lines 249-258) for the element at position [el]. *)
Definition getKey (body : Node) (el : Path) : string :=
  join ">" (getKey_loop body (rev el) []).

(** An element that [collection[name]] finds by name: its ID or its [name]
    attribute is [key]. *)
Definition isNamed (key : string) (n : Node) : bool :=
  match n with
  | Element a _ => String.eqb (elId a) key || String.eqb (elName a) key
  | _ => false
  end.

(** [collection.namedItem(key)], as the index of the element found. *)
Fixpoint namedIndex (key : string) (cs : list Node) (i : nat) : option nat :=
  match cs with
  | [] => None
  | c :: r => if isNamed key c then Some i else namedIndex key r (S i)
  end.

(** The property name that a number becomes in [collection[number]]. *)
Definition numberKey (z : Z) : string :=
  if (Z.abs z <? 2 ^ 53)%Z then decimalZ z else hugeNumberKey z.

(** [node.children[childIndex]], as the index of the child it yields.
    An array index (an integer from 0 to [2^32 - 2]) selects by position and
    gives [undefined] past the end.  Any other number is a property name, and
    an [HTMLCollection] answers a property name as [namedItem] does: with
    its first element of that ID or name (DOM standard, interface
    HTMLCollection; Web IDL, legacy platform objects). *)
Definition children_get (node : Node) (childIndex : Z) : option nat :=
  if ((0 <=? childIndex) && (childIndex <? 4294967295))%Z
  then if (childIndex <? Z.of_nat (List.length (children node)))%Z
       then Some (Z.to_nat childIndex) else None
  else namedIndex (numberKey childIndex) (children node) 0.

(** The loop of [getElementByKey] (lines 284-289): from [node], one part
    after the other. *)
Fixpoint getElementByKey_loop (node : Node) (parts : list string) : option Path :=
  match parts with
  | [] => Some []
  | p :: rest =>
      let index := nth_error (split ":" p) 1 in
      match parseInt (toStringU index) with
      | None => None
      | Some childIndex =>
          match children_get node childIndex with
          | None => None
          | Some i =>
              match nth_error (children node) i with
              | Some child => option_map (cons i) (getElementByKey_loop child rest)
              | None => None
              end
          end
      end
  end.

(** [getElementByKey(key)] (lines 280-294): the position of the element
    returned, [None] for [null].  Nothing in the body throws on a string. *)
Definition getElementByKey (body : Node) (key : string) : option Path :=
  getElementByKey_loop body (split ">" key).

(* ------------------------------------------------------------------ *)
(** *** Reconciliation *)

(** One assignment [textNodes[0].textContent = newText]: the element whose
    first text node is written, and the text. *)
Definition TextWrite : Type := (Path * string)%type.

Definition dataIsEditing (n : Node) : option string :=
  match n with Element a _ => isEditing a | _ => None end.

(** The body of the loop of [applyEdits] (lines 266-275) for one entry. *)
Definition applyEdit (body : Node) (entry : string * string) : Node * list TextWrite :=
  let '(key, newText) := entry in
  match getElementByKey body key with
  | None => (body, [])
  | Some el =>
      match nodeAt body el with
      | None => (body, [])
      | Some node =>
          let currentText := trim (textContent node) in
          let isBeingEdited := optEq (dataIsEditing node) "true" in
          if negb (String.eqb currentText newText) && negb isBeingEdited
          then match setFirstText newText node with
               | Some node' => (updateAt el (fun _ => node') body, [(el, newText)])
               | None => (body, [])
               end
          else (body, [])
      end
  end.

(** The loop over [Object.entries(edits)]. *)
Fixpoint applyEntries (body : Node) (entries : list (string * string)) : Node * list TextWrite :=
  match entries with
  | [] => (body, [])
  | e :: rest =>
      let '(body1, w1) := applyEdit body e in
      let '(body2, w2) := applyEntries body1 rest in
      (body2, (w1 ++ w2)%list)
  end.

(** [applyEdits()] on the document, given the stored edits. *)
Definition applyEditsOn (edits : JSObject string) (body : Node) : Node * list TextWrite :=
  if (List.length (obj_keys edits) =? 0)%nat then (body, []) else applyEntries body edits.

(** [applyEdits()] (lines 261-277) *)
Definition applyEdits (st : State) : State * list TextWrite :=
  let '(b, w) := applyEditsOn (getSavedEdits st) (body st) in (with_body b st, w).

(** [saveEdit(el)] (lines 240-246) *)
Definition saveEdit (st : State) (el : Path) : State :=
  match nodeAt (body st) el with
  | None => st
  | Some node =>
      let key := getKey (body st) el in
      let text := trim (textContent node) in
      let edits := obj_set (getSavedEdits st) key text in
      with_storage
        (mkStorage (storedEditingEnabled (storage st))
                   (obj_set (storedPages (storage st)) (currentPageKey st) edits))
        st
  end.

(* ------------------------------------------------------------------ *)
(** *** Selecting elements *)

(** The selected positions below the element children of a list of nodes;
    [i] is the index of the first element child. *)
Fixpoint selectBelow (select : Node -> list Path) (l : list Node) (i : nat) : list Path :=
  match l with
  | [] => []
  | c :: r =>
      if isElement c
      then (map (cons i) (select c) ++ selectBelow select r (S i))%list
      else selectBelow select r i
  end.

(** [document.querySelectorAll(selector)] over the tree below and including
    [document.body], in document order.  [matches] is given the attributes of
    the ancestors, nearest first, and those of the element. *)
Fixpoint selectAll (matches : list Attrs -> Attrs -> bool) (ancestors : list Attrs)
    (n : Node) : list Path :=
  match n with
  | Element a cs =>
      ((if matches ancestors a then [[]] else []) ++
       selectBelow (selectAll matches (a :: ancestors)) cs 0)%list
  | _ => []
  end.

(** The selector ["div._1b33 span"].  The tag name of an HTML element is in
    upper case. *)
Definition matches_div1b33_span (ancestors : list Attrs) (a : Attrs) : bool :=
  String.eqb (tagName a) "SPAN" &&
  existsb (fun d => String.eqb (tagName d) "DIV" && hasClass "_1b33" d) ancestors.

(** The selector ['[contenteditable="true"]']. *)
Definition matches_contenteditable_true (ancestors : list Attrs) (a : Attrs) : bool :=
  optEq (contenteditable a) "true".

(* ------------------------------------------------------------------ *)
(** *** Granting and revoking editability *)

(** The callback that [enableEditing] runs on one selected element
    (lines 302-339). *)
Definition enableElement (s : Storage) (n : Node) : Node :=
  match n with
  | Element a cs =>
      if hasPreventedClass s a then n
      else if truthyU (editReady a) || negb (truthy (trim (textContent n))) then n
      else if (0 <? List.length (children n))%nat then n
      else if String.eqb (elId a) "editableSaveBtn" || startsWith "editable" (elId a) then n
      else Element (with_listeners
                      (with_styleCursor "text"
                         (with_styleUserSelect "text"
                            (with_styleCaretColor "#000"
                               (with_contenteditable "true" (with_editReady "true" a))))))
                   cs
  | _ => n
  end.

(** [enableEditing()] (lines 297-341) on the document. *)
Definition enableEditingOn (s : Storage) (b : Node) : Node :=
  if negb (isEditingEnabled s) then b
  else fold_left (fun doc el => updateAt el (enableElement s) doc)
                 (selectAll matches_div1b33_span [] b) b.

(** [enableEditing()] *)
Definition enableEditing (st : State) : State :=
  with_body (enableEditingOn (storage st) (body st)) st.

(** The callback of the disable path on one selected element (lines 364-365):
    [el.contentEditable = "false"; el.dataset.editReady = "false"]. *)
Definition disableElement (n : Node) : Node :=
  setAttrs (fun a => with_editReady "false" (with_contenteditable "false" a)) n.

(** The disable path of the [setEditingState] message (lines 363-366). *)
Definition disableEditingOn (b : Node) : Node :=
  fold_left (fun doc el => updateAt el disableElement doc)
            (selectAll matches_contenteditable_true [] b) b.

(* ------------------------------------------------------------------ *)
(** *** Blocking actions on the prevented classes *)

(** The selector [.cls] *)
Definition matches_class (cls : string) (ancestors : list Attrs) (a : Attrs) : bool :=
  hasClass cls a.

(** The callback that [preventActionsOnClass] runs on one selected element
    (lines 216-229): capturing listeners for [click], [dblclick] and
    [contextmenu], then [el.style.userSelect = "text"] and
    [el.style.cursor = "text"]. *)
Definition preventElement (n : Node) : Node :=
  setAttrs (fun a => with_styleCursor "text" (with_styleUserSelect "text" (with_blockers a))) n.

(** [preventActionsOnClass()] (lines 213-232) on the document. *)
Definition preventActionsOnClassOn (s : Storage) (b : Node) : Node :=
  if isEditingEnabled s then b
  else fold_left
         (fun doc cls =>
            fold_left (fun doc' el => updateAt el preventElement doc')
                      (selectAll (matches_class cls) [] doc) doc)
         PREVENTED_CLASSES b.

(** [preventActionsOnClass()] *)
Definition preventActionsOnClass (st : State) : State :=
  with_body (preventActionsOnClassOn (storage st) (body st)) st.

(* ------------------------------------------------------------------ *)
(** *** The message listener *)

Inductive Request : Type :=
| getEditedElements
| clearEditedElements
| setEditingState (enabled : bool).

Inductive Response : Type :=
| editedElements (editedData : JSObject string)  (* key to [textContent] *)
| success.

(** The loop [editedSet.forEach] of the [getEditedElements] branch (lines
    348-352). *)
Fixpoint collectEdited (body : Node) (editedSet : list string) (editedData : JSObject string)
    : JSObject string :=
  match editedSet with
  | [] => editedData
  | key :: rest =>
      match getElementByKey body key with
      | Some el =>
          match nodeAt body el with
          | Some node => collectEdited body rest (obj_set editedData key (trim (textContent node)))
          | None => collectEdited body rest editedData
          end
      | None => collectEdited body rest editedData
      end
  end.

(** The listener of [chrome.runtime.onMessage] (lines 344-372). *)
Definition onMessage (st : State) (request : Request) : State * Response :=
  match request with
  | getEditedElements =>
      let '(st1, editedSet) := getEditedElementsForPage st in
      (st1, editedElements (collectEdited (body st1) editedSet []))
  | clearEditedElements =>
      let '(st1, _) := getEditedElementsForPage st in
      (with_editedElementsMap (obj_set (editedElementsMap st1) (currentPageKey st1) []) st1,
       success)
  | setEditingState enabled =>
      let st1 := with_editingEnabled enabled st in
      if enabled then (enableEditing st1, success)
      else (with_body (disableEditingOn (body st1)) st1, success)
  end.

(* ------------------------------------------------------------------ *)
(** *** Observers and listeners *)

(** The callback of the observer of [startObservers] (lines 377-384) when a
    batch of mutations is delivered, up to its first [await]: it returns at
    the guard, or sets the guard and calls [applyEdits], which asks the
    storage for the entry of the page key of that moment and is suspended.
    The closure is stepped by [watcherStep]. *)
Definition watcherCallback (st : State) : State :=
  let st1 := if applying (watcher st) then st
             else with_requestedKey (currentPageKey st) st in
  with_watcher (watcherStep (watcher st) Batch) st1.

(** [applyEdits()] of a pass once the storage has answered (lines 236-237
    and 262-276).  The answer holds the entry of the key that was asked for,
    and [getSavedEdits] reads in it the entry of [currentPageKey] as it is
    now: after a change of page in between there is none, and nothing is
    applied. *)
Definition applyEditsAsked (st : State) : State * list TextWrite :=
  if String.eqb (requestedKey st) (currentPageKey st) then applyEdits st else (st, []).

(** What the suspended callback of the watcher has done when the promise it
    awaits is fulfilled (lines 379-382): the awaited call has had its effect
    (for [enableEditing], the callbacks that it starts on the selected
    elements are taken to have run by then); the next call is made and
    awaited, or the guard is cleared. *)
Definition passStage (stage : Stage) (st : State) : State :=
  match stage with
  | awaitApplyEdits => fst (applyEditsAsked st)
  | awaitEnableEditing => enableEditing st
  | awaitPreventActions => preventActionsOnClass st
  end.

(** The promise awaited by the [k]-th suspended callback of the watcher is
    fulfilled. *)
Definition passResumes (st : State) (k : nat) : State :=
  let st1 := match nth_error (suspended (watcher st)) k with
             | Some stage => passStage stage st
             | None => st
             end in
  with_watcher (watcherStep (watcher st) (Resume k)) st1.

(** The promise awaited by the [k]-th suspended callback of the watcher is
    rejected: the callback ends there. *)
Definition passRejected (st : State) (k : nat) : State :=
  with_watcher (watcherStep (watcher st) (Reject k)) st.

(** The callback of the observer of [startPathObserver] (lines 391-403). *)
Definition pathObserver (st : State) : State :=
  let newPath := location st in
  if negb (String.eqb newPath (lastPath st)) then
    let st1 := mkState (body st) (location st) (storage st) (editingEnabled st)
                       newPath (editedElementsMap st) newPath
                       (watcher st) (requestedKey st) in
    let '(st2, _) := getEditedElementsForPage st1 in
    let st3 := with_editedElementsMap
                 (obj_set (editedElementsMap st2) (currentPageKey st2) []) st2 in
    preventActionsOnClass (enableEditing (fst (applyEdits st3)))
  else st.

(** The listeners that [enableEditing] attaches to an element (lines
    314-322): they run when the element has them. *)
Definition hasListeners (st : State) (el : Path) : bool :=
  match nodeAt (body st) el with
  | Some (Element a _) => (0 <? listeners a)%nat
  | _ => false
  end.

(** A [focus] event at an element.  The listener of line 314 is registered
    for the bubbling phase; the capturing listener that lines 336-338
    register for [focus] on the same element calls [stopPropagation], which
    ends the dispatch before the bubbling listeners of the target are
    invoked.  So the listener of line 314 does not run and the event changes
    nothing. *)
Definition onFocus (st : State) (el : Path) : State := st.

Definition onBlur (st : State) (el : Path) : State :=
  if hasListeners st el
  then with_body (updateAt el (setAttrs (with_isEditing "false")) (body st)) st
  else st.

Definition onInput (st : State) (el : Path) : State :=
  if hasListeners st el then
    let st1 := with_body (updateAt el (setAttrs (with_isEditing "true")) (body st)) st in
    let '(st2, editedSet) := getEditedElementsForPage st1 in
    let st3 := with_editedElementsMap
                 (obj_set (editedElementsMap st2) (currentPageKey st2)
                          (set_add (getKey (body st2) el) editedSet)) st2 in
    saveEdit st3 el
  else st.

(** What can happen to the content script. *)
Inductive Event : Type :=
| Message (request : Request)
| MutationBatch                              (* both observers are called back *)
| PassResumes (k : nat)                      (* an [await] of the watcher's callback is fulfilled *)
| PassRejected (k : nat)                     (* an [await] of the watcher's callback is rejected *)
| HostChange (b : Node) (loc : string)       (* the page or the user changes document or location *)
| StorageChange (s : Storage)                (* the popup writes to [chrome.storage.local] *)
| Focus (el : Path)
| Blur (el : Path)
| Input (el : Path).

Definition step (st : State) (ev : Event) : State :=
  match ev with
  | Message request => fst (onMessage st request)
  | MutationBatch => pathObserver (watcherCallback st)
  | PassResumes k => passResumes st k
  | PassRejected k => passRejected st k
  | HostChange b loc =>
      mkState b loc (storage st) (editingEnabled st) (currentPageKey st)
              (editedElementsMap st) (lastPath st) (watcher st) (requestedKey st)
  | StorageChange s => with_storage s st
  | Focus el => onFocus st el
  | Blur el => onBlur st el
  | Input el => onInput st el
  end.

Definition run (st : State) (evs : list Event) : State := fold_left step evs st.

Definition isInput (ev : Event) : bool :=
  match ev with Input _ => true | _ => false end.

(** The callback given to [waitForTarget] (lines 472-481):
    [startObservers()] makes the closure of the watcher, and
    [startPathObserver()] sets [lastPath = currentPageKey].  The listeners
    that [preventScrollOnDiv2ut()] attaches are listeners of the document,
    which is above [document.body]; they write nothing. *)
Definition init (st : State) : State :=
  let '(st1, _) := getEditedElementsForPage st in
  let st2 := with_editedElementsMap
               (obj_set (editedElementsMap st1) (currentPageKey st1) []) st1 in
  let st3 := preventActionsOnClass (fst (applyEdits (enableEditing st2))) in
  mkState (body st3) (location st3) (storage st3) (editingEnabled st3)
          (currentPageKey st3) (editedElementsMap st3) (currentPageKey st3)
          startObservers (requestedKey st3).

(* ================================================================== *)
(** ** The popup *)

(** [getSavedEdits()] of the popup (lines 17-21); [pageKey] is
    [getPageKey()], the origin and path of the current tab. *)
Definition popup_getSavedEdits (pageKey : string) (s : Storage) : JSObject string :=
  match obj_get (storedPages s) pageKey with
  | Some edits => edits
  | None => []
  end.

(** [saveEdits(edits)] (lines 24-27) *)
Definition saveEdits (pageKey : string) (edits : JSObject string) (s : Storage) : Storage :=
  mkStorage (storedEditingEnabled s) (obj_set (storedPages s) pageKey edits).

(** [getEditingState()] (lines 41-44) *)
Definition getEditingState (s : Storage) : bool :=
  match storedEditingEnabled s with Some false => false | _ => true end.

(** [setEditingState(enabled)] of the popup (lines 47-49) *)
Definition popup_setEditingState (enabled : bool) (s : Storage) : Storage :=
  mkStorage (Some enabled) (storedPages s).

(** The loop of the save handler over
    [Object.entries(response.editedElements)] (lines 88-96), starting from
    [allEdits = { ...previous }]. *)
Fixpoint mergeEdited (allEdits : JSObject string) (entries : list (string * string))
    : JSObject string :=
  match entries with
  | [] => allEdits
  | (key, currentText) :: rest =>
      if truthy currentText && truthy (trim currentText)
      then mergeEdited (obj_set allEdits key (trim currentText)) rest
      else mergeEdited allEdits rest
  end.

(** The save handler once [response.editedElements] is there (lines 82-99):
    the stored edits of the page are read, merged with the response and
    stored. *)
Definition saveBtn_store (pageKey : string) (data : JSObject string) (s : Storage) : Storage :=
  let previous := popup_getSavedEdits pageKey s in
  let allEdits := mergeEdited previous data in
  saveEdits pageKey allEdits s.

(** The click handler of [saveBtn] (lines 70-123). *)
Definition saveBtn_click (pageKey : string) (st : State) : State :=
  let '(st1, response) := onMessage st getEditedElements in
  match response with
  | editedElements data =>
      let st2 := with_storage (saveBtn_store pageKey data (storage st1)) st1 in
      fst (onMessage st2 clearEditedElements)
  | success => st1
  end.

(** The click handler of [toggleBtn] (lines 126-146). *)
Definition toggleBtn_click (st : State) : State :=
  let newState := negb (getEditingState (storage st)) in
  let st1 := with_storage (popup_setEditingState newState (storage st)) st in
  fst (onMessage st1 (setEditingState newState)).

(** The click handler of [clearBtn] (lines 149-176). *)
Definition clearBtn_click (pageKey : string) (st : State) : State :=
  let st1 := with_storage
               (mkStorage (storedEditingEnabled (storage st))
                          (obj_remove (storedPages (storage st)) pageKey)) st in
  fst (onMessage st1 clearEditedElements).


(* ================================================================== *)
(** ** The popup and the page together *)

(** What the user and the page can do. *)
Inductive Action : Type :=
| content (ev : Event)              (* something happens to the content script *)
| saveClick (pageKey : string)      (* a click on [saveBtn] *)
| toggleClick                       (* a click on [toggleBtn] *)
| clearClick (pageKey : string).    (* a click on [clearBtn] *)

Definition act (st : State) (a : Action) : State :=
  match a with
  | content ev => step st ev
  | saveClick pageKey => saveBtn_click pageKey st
  | toggleClick => toggleBtn_click st
  | clearClick pageKey => clearBtn_click pageKey st
  end.

Definition perform (st : State) (actions : list Action) : State := fold_left act actions st.

(** An action through which only this program writes to the storage. *)
Definition ownWrite (a : Action) : bool :=
  match a with content (StorageChange _) => false | _ => true end.

(* ================================================================== *)
(** ** Notions used in the statements *)

(** A string made of decimal digits only. *)
Fixpoint allDigits (s : string) : bool :=
  match s with
  | EmptyString => true
  | String c r => isDigit c && allDigits r
  end.

(** The attributes of the element at a position. *)
Definition attrsAt (n : Node) (p : Path) : option Attrs :=
  match nodeAt n p with Some m => attrs m | None => None end.

(** A function on nodes that maps elements to elements. *)
Definition keepsElements (f : Node -> Node) : Prop :=
  forall n, isElement n = true -> isElement (f n) = true.

(** A function on nodes that changes attributes only. *)
Definition attrsOnly (f : Node -> Node) : Prop :=
  forall n, exists g, f n = setAttrs g n.

(** Neither position is on the way to the other. *)
Definition apart (p q : Path) : Prop :=
  (forall r, q <> (p ++ r)%list) /\ (forall r, p <> (q ++ r)%list).

(** The segments of the key of a position, from [document.body] down. *)
Fixpoint segments (n : Node) (el : Path) : list string :=
  match el with
  | [] => []
  | i :: el' =>
      match nth_error (children n) i with
      | Some c =>
          (match attrs c with Some a => tagName a | None => "" end ++ ":" ++ decimal i)
          :: segments c el'
      | None => []
      end
  end.

(** The tag names met on the way to a position, [document.body] excluded. *)
Fixpoint tagsAlong (n : Node) (el : Path) : list string :=
  match el with
  | [] => []
  | i :: el' =>
      match nth_error (children n) i with
      | Some c => match attrs c with Some a => tagName a | None => "" end :: tagsAlong c el'
      | None => []
      end
  end.

(** The field of a key segment that [getElementByKey] reads. *)
Definition indexField (part : string) : option string := nth_error (split ":" part) 1.

(** Every element renamed: [f] gives the new tag name. *)
Fixpoint retag (f : string -> string) (n : Node) : Node :=
  match n with
  | Element a cs =>
      Element (mkAttrs (f (tagName a)) (elId a) (elName a) (classList a)
                       (contenteditable a) (editReady a) (isEditing a) (listeners a)
                       (styleCaretColor a) (styleUserSelect a) (styleCursor a)
                       (blockers a))
              (map (retag f) cs)
  | _ => n
  end.

(** A part without a number, or without the child it asks for, ends the
    descent with [null]. *)
Inductive Malformed : Node -> list string -> Prop :=
| non_numeric node p rest :
    parseInt (toStringU (indexField p)) = None ->
    Malformed node (p :: rest)
| out_of_range node p rest z :
    parseInt (toStringU (indexField p)) = Some z ->
    (Z.of_nat (List.length (children node)) <= z < 4294967295)%Z ->
    Malformed node (p :: rest)
| no_such_child node p rest z :
    parseInt (toStringU (indexField p)) = Some z ->
    children_get node z = None ->
    Malformed node (p :: rest)
| below node p rest z i child :
    parseInt (toStringU (indexField p)) = Some z ->
    children_get node z = Some i ->
    nth_error (children node) i = Some child ->
    Malformed child rest ->
    Malformed node (p :: rest).

(** Writing the first text node, or nothing when there is none. *)
Definition writeText (t : string) (n : Node) : Node :=
  match setFirstText t n with Some n' => n' | None => n end.

(** Every stored text is its own trim. *)
Definition StoredTrimmed (edits : JSObject string) : Prop :=
  forall key text, In (key, text) edits -> trim text = text.

(** Every element that a stored key locates is a leaf text host: it has no
    element children and at most one text node. *)
Definition LeafTargets (edits : JSObject string) (d : Node) : Prop :=
  forall key text el node,
    In (key, text) edits ->
    getElementByKey d key = Some el -> nodeAt d el = Some node ->
    children node = [] /\ (textNodes node <= 1)%nat.

(** Entries whose keys locate the same element store the same text. *)
Definition Unambiguous (edits : JSObject string) (d : Node) : Prop :=
  forall key1 text1 key2 text2 el,
    In (key1, text1) edits -> In (key2, text2) edits ->
    getElementByKey d key1 = Some el -> getElementByKey d key2 = Some el ->
    text1 = text2.

(** A step of reconciliation that writes nothing. *)
Definition Settled (d : Node) (e : string * string) : Prop := applyEdit d e = (d, []).

(** The pending-edit tracker of the current page. *)
Definition pending (st : State) : list string :=
  match obj_get (editedElementsMap st) (currentPageKey st) with
  | Some s => s
  | None => []
  end.

(** Every text in the storage is its own trim. *)
Definition AllTrimmed (s : Storage) : Prop :=
  forall page edits key text,
    obj_get (storedPages s) page = Some edits ->
    obj_get edits key = Some text -> trim text = text.

(** What holds of the closure of [startObservers] at every moment. *)
Definition guarded (w : Watcher) : Prop :=
  (List.length (suspended w) <= 1)%nat /\
  (suspended w <> @nil Stage -> applying w = true) /\
  (applying w = true -> suspended w <> @nil Stage \/ (0 < failed w)%nat) /\
  started w = (completed w + failed w + List.length (suspended w))%nat.

(* ------------------------------------------------------------------ *)
(** *** Documents used as examples *)

(** An element with a tag name and nothing else set. *)
Definition plain (tag : string) (cs : list Node) : Node :=
  Element (mkAttrs tag "" "" [] None None None 0 None None None 0) cs.

(** [<body><div>Hello</div></body>] *)
Definition doc_div : Node := plain "BODY" [plain "DIV" [Text "Hello"]].

(** [<body><o:p><div class="_1b33"><span>Hello</span></div></o:p></body>]:
    the tag name [O:P] holds a colon, as the tags of pasted office documents
    and of XML vocabularies do. *)
Definition doc_colon_tag : Node :=
  plain "BODY"
    [plain "O:P"
       [Element (mkAttrs "DIV" "" "" ["_1b33"] None None None 0 None None None 0)
                [plain "SPAN" [Text "Hello"]]]].

(** [<body><span>ab</span></body>] with the text in two text nodes, as a
    rendering library leaves it for [<span>{"{a}{b}"}</span>] *)
Definition doc_two_texts : Node := plain "BODY" [plain "SPAN" [Text "a"; Text "b"]].

(** [<body><div class="_1b33"><span>Hello</span></div></body>] *)
Definition doc_editable : Node :=
  plain "BODY"
    [Element (mkAttrs "DIV" "" "" ["_1b33"] None None None 0 None None None 0) [plain "SPAN" [Text "Hello"]]].

(** [<body><div>Hello</div><p id="-1">Bye</p></body>] *)
Definition doc_named : Node :=
  plain "BODY"
    [plain "DIV" [Text "Hello"];
     Element (mkAttrs "P" "-1" "" [] None None None 0 None None None 0) [Text "Bye"]].

(** The attributes of the [span] of [doc_editable] once editing is enabled. *)
Definition span_enabled : Attrs :=
  mkAttrs "SPAN" "" "" [] (Some "true") (Some "true") None 1
          (Some "#000") (Some "text") (Some "text") 0.

(** [doc_editable] with editing enabled on its [span]. *)
Definition doc_enabled : Node :=
  plain "BODY"
    [Element (mkAttrs "DIV" "" "" ["_1b33"] None None None 0 None None None 0)
             [Element span_enabled [Text "Hello"]]].

Definition storage_empty : Storage := mkStorage None [].

(** The page [https://example.org/a] with [doc_enabled], nothing stored and
    nothing tracked. *)
Definition state_enabled : State :=
  mkState doc_enabled "https://example.org/a" storage_empty true
          "https://example.org/a" [] "https://example.org/a" startObservers "".

(** The same page after the location has become [https://example.org/b],
    where one key was tracked before; the observer has not run yet. *)
Definition state_navigated : State :=
  mkState doc_enabled "https://example.org/b" storage_empty true
          "https://example.org/a"
          [("https://example.org/a", ["DIV:0>SPAN:0"]);
           ("https://example.org/b", ["DIV:0>SPAN:0"])]
          "https://example.org/a" startObservers "".

(* ------------------------------------------------------------------ *)
(** *** Notions for the editability manager *)

(** The attributes without what [enableEditing] and the disable path set:
    the [contenteditable] attribute, the [editReady] marker, the listeners
    and the style properties [caretColor], [userSelect] and [cursor]. *)
Definition unmarked (a : Attrs) : Attrs :=
  mkAttrs (tagName a) (elId a) (elName a) (classList a) None None (isEditing a) 0
          None None None (blockers a).

(** The document without these. *)
Fixpoint bare (n : Node) : Node :=
  match n with
  | Element a cs => Element (unmarked a) (map bare cs)
  | _ => n
  end.

(** The attributes of the proper ancestors of a position, nearest first,
    on top of [above]. *)
Fixpoint ancestorsAt (n : Node) (p : Path) (above : list Attrs) : list Attrs :=
  match p with
  | [] => above
  | i :: p' =>
      match n, nth_error (children n) i with
      | Element a _, Some c => ancestorsAt c p' (a :: above)
      | _, _ => above
      end
  end.

(** What [enableEditing] asks of a selected element before it initialises
    it: no [editReady] marker that is a non-empty string, some text left
    after trimming, no element child, and an ID that does not start with
    [editable]. *)
Definition eligible (a : Attrs) (text : string) (nchildren : nat) : bool :=
  negb (truthyU (editReady a)) && truthy (trim text) &&
  (nchildren =? 0)%nat && negb (startsWith "editable" (elId a)).

(** The attributes that the initialisation sets. *)
Definition initialised (a : Attrs) : Attrs :=
  with_listeners
    (with_styleCursor "text"
       (with_styleUserSelect "text"
          (with_styleCaretColor "#000"
             (with_contenteditable "true" (with_editReady "true" a))))).

(** The attributes that the disable path sets. *)
Definition revoked (a : Attrs) : Attrs :=
  with_editReady "false" (with_contenteditable "false" a).

(** The attributes of a selected element after the callback of
    [enableEditing], given its text and the number of its element children. *)
Definition enableAttrs (a : Attrs) (text : string) (nchildren : nat) : Attrs :=
  if eligible a text nchildren then initialised a else a.

(** The state of the loop of [enableEditing] on the document [b] once the
    positions [done] have had their turn. *)
Definition enabledAt (b : Node) (done : list Path) (d : Node) : Prop :=
  bare d = bare b /\
  forall q n a, nodeAt b q = Some n -> attrs n = Some a ->
    (In q done ->
     attrsAt d q = Some (enableAttrs a (textContent n) (List.length (children n)))) /\
    (~ In q done -> attrsAt d q = Some a).

(** The attributes of an element after the disable path. *)
Definition disableAttrs (a : Attrs) : Attrs :=
  if optEq (contenteditable a) "true" then revoked a else a.

(** The text that the content script reads for a key: [el.textContent.trim()]
    of the element that the key decodes to, when there is one. *)
Definition textAtKey (body : Node) (key : string) : option string :=
  match getElementByKey body key with
  | Some el => option_map (fun node => trim (textContent node)) (nodeAt body el)
  | None => None
  end.

(** The position holds an element with [contenteditable = "true"]. *)
Definition editableAt (b : Node) (p : Path) : bool :=
  match attrsAt b p with
  | Some a => optEq (contenteditable a) "true"
  | None => false
  end.

(** An event that the content script handles, as opposed to a change made
    by the page, the user or the popup. *)
Definition handled (ev : Event) : bool :=
  match ev with
  | HostChange _ _ | StorageChange _ => false
  | _ => true
  end.

Definition isBatch (ev : WatcherEvent) : bool :=
  match ev with Batch => true | _ => false end.

(** The stored flag is the same and the same positions hold an element
    with [contenteditable = "true"]. *)
Definition sameGate (st st' : State) : Prop :=
  storedEditingEnabled (storage st') = storedEditingEnabled (storage st) /\
  forall p, editableAt (body st') p = editableAt (body st) p.

(** The page [https://example.org/a] with [doc_editable] and editing
    switched off in the storage. *)
Definition state_disabled : State :=
  mkState doc_editable "https://example.org/a" (mkStorage (Some false) []) false
          "https://example.org/a" [] "https://example.org/a" startObservers "".

(** What the content script leaves alone of an element: tag name, ID, name
    and classes. *)
Definition framed (a : Attrs) : Attrs :=
  mkAttrs (tagName a) (elId a) (elName a) (classList a) None None None 0 None None None 0.

(** The frame of a document: the arrangement of its nodes and what
    [framed] keeps of its elements, without the data of the text nodes and
    without the marks of the content script. *)
Fixpoint frame (n : Node) : Node :=
  match n with
  | Text _ => Text ""
  | Comment d => Comment d
  | Element a cs => Element (framed a) (map frame cs)
  end.

(** An event that the content script handles and that is no [input]
    event. *)
Definition handledNoInput (ev : Event) : bool := handled ev && negb (isInput ev).

(** [doc_editable] as the page renders it again, with the text it has for
    the [span]. *)
Definition doc_rendered_again : Node :=
  plain "BODY"
    [Element (mkAttrs "DIV" "" "" ["_1b33"] None None None 0 None None None 0)
             [plain "SPAN" [Text "Original"]]].

(** A document stripped of the marks of the content script: the
    arrangement of its nodes, the data of its text nodes and what [framed]
    keeps of its elements. *)
Fixpoint stripped (n : Node) : Node :=
  match n with
  | Element a cs => Element (framed a) (map stripped cs)
  | _ => n
  end.

(** [p] is the position of a proper ancestor of the element at [q]. *)
Definition properAncestor (p q : Path) : Prop :=
  exists r, r <> [] /\ q = (p ++ r)%list.

(** Every element that a stored key locates has no element child. *)
Definition LeafLocated (edits : JSObject string) (d : Node) : Prop :=
  forall key text el node,
    In (key, text) edits ->
    getElementByKey d key = Some el -> nodeAt d el = Some node ->
    children node = [].

(** [<body><div><span data-is-editing="true">typing</span></div></body>]:
    the user is typing into the [span]. *)
Definition doc_typing : Node :=
  plain "BODY"
    [plain "DIV"
       [Element (mkAttrs "SPAN" "" "" [] (Some "true") (Some "true") (Some "true") 1
                         (Some "#000") (Some "text") (Some "text") 0)
                [Text "typing"]]].

(* ================================================================== *)
(** ** Facts about strings *)

Lemma trimStart_head s :
  trimStart s = "" \/ exists c r, trimStart s = String c r /\ isWhiteSpace c = false.
Proof.
  induction s as [|c r IH]; simpl; [now left|].
  destruct (isWhiteSpace c) eqn:E; [exact IH | right; eauto].
Qed.

Lemma trimEnd_idem s : trimEnd (trimEnd s) = trimEnd s.
Proof.
  induction s as [|c r IH]; simpl; [reflexivity|].
  destruct (isWhiteSpace c && isEmpty (trimEnd r)) eqn:E; [reflexivity|].
  simpl. rewrite IH, E. reflexivity.
Qed.

Lemma trimStart_trimEnd s :
  trimStart (trimEnd (trimStart s)) = trimEnd (trimStart s).
Proof.
  destruct (trimStart_head s) as [-> | (c & r & -> & Hc)]; [reflexivity|].
  simpl. rewrite Hc. simpl. rewrite Hc. reflexivity.
Qed.

(** [trim] leaves a trimmed string as it is. *)
Lemma trim_idem s : trim (trim s) = trim s.
Proof.
  unfold trim. rewrite trimStart_trimEnd. apply trimEnd_idem.
Qed.

Lemma split_nonempty sep s : split sep s <> [].
Proof.
  destruct s as [|c r]; simpl; [discriminate|].
  destruct (Ascii.eqb c sep); [discriminate|].
  destruct (split sep r); discriminate.
Qed.

Lemma split_absent sep s : occurs sep s = false -> split sep s = [s].
Proof.
  induction s as [|c r IH]; simpl; [reflexivity|].
  destruct (Ascii.eqb c sep); simpl; [discriminate|].
  intros H. rewrite (IH H). reflexivity.
Qed.

Lemma split_app sep a b :
  occurs sep a = false ->
  split sep (a ++ String sep b) = a :: split sep b.
Proof.
  induction a as [|c r IH]; simpl.
  - intros _. rewrite Ascii.eqb_refl. reflexivity.
  - destruct (Ascii.eqb c sep); simpl; [discriminate|].
    intros H. rewrite (IH H). reflexivity.
Qed.

Lemma split_join sep parts :
  parts <> [] ->
  Forall (fun p => occurs sep p = false) parts ->
  split sep (join (String sep "") parts) = parts.
Proof.
  induction parts as [|p rest IH]; [congruence|].
  intros _ H. inversion H as [|? ? Hp Hrest]; subst.
  destruct rest as [|q rest'].
  - simpl. apply split_absent, Hp.
  - change (join (String sep "") (p :: q :: rest'))
      with (p ++ String sep (join (String sep "") (q :: rest'))).
    rewrite split_app by exact Hp.
    rewrite IH; [reflexivity | discriminate | exact Hrest].
Qed.

Lemma append_empty_r (s : string) : s ++ "" = s.
Proof. induction s as [|c r IH]; simpl; [reflexivity | now rewrite IH]. Qed.

Lemma occurs_app c a b : occurs c (a ++ b) = occurs c a || occurs c b.
Proof.
  induction a as [|d r IH]; simpl; [reflexivity|].
  rewrite IH. apply orb_assoc.
Qed.

(* ------------------------------------------------------------------ *)
(** *** Decimal spellings *)

Lemma allDigits_uint u : allDigits (DecimalString.NilEmpty.string_of_uint u) = true.
Proof. induction u; simpl; auto. Qed.

Lemma parseDigits_uint u n :
  parseDigits (DecimalString.NilEmpty.string_of_uint u) (Z.of_nat n)
  = Z.of_nat (Nat.of_uint_acc u n).
Proof.
  revert n.
  induction u; intros n;
    cbn [DecimalString.NilEmpty.string_of_uint parseDigits Nat.of_uint_acc];
    try reflexivity;
    match goal with |- context [isDigit ?c] => change (isDigit c) with true end;
    cbv iota; rewrite Nat.tail_mul_spec, <- IHu; f_equal;
    match goal with |- context [digitVal ?c] =>
      let v := eval compute in (digitVal c) in change (digitVal c) with v end;
    lia.
Qed.

Lemma decimal_allDigits n : allDigits (decimal n) = true.
Proof. apply allDigits_uint. Qed.

Lemma decimal_nonempty n : exists c r, decimal n = String c r /\ isDigit c = true.
Proof.
  unfold decimal.
  assert (H : Nat.to_uint n <> Decimal.Nil).
  { rewrite <- (DecimalNat.Unsigned.of_to n) at 1.
    rewrite DecimalNat.Unsigned.to_of. apply DecimalFacts.unorm_nonnil. }
  pose proof (allDigits_uint (Nat.to_uint n)) as D.
  destruct (Nat.to_uint n); try congruence; simpl in *; eauto.
Qed.

Lemma parseDigits_decimal n : parseDigits (decimal n) 0 = Z.of_nat n.
Proof.
  unfold decimal. change 0%Z with (Z.of_nat 0).
  rewrite parseDigits_uint.
  change (Nat.of_uint_acc (Nat.to_uint n) 0) with (Nat.of_uint (Nat.to_uint n)).
  now rewrite DecimalNat.Unsigned.of_to.
Qed.

Lemma isDigit_not c d : isDigit c = true -> isDigit d = false -> Ascii.eqb c d = false.
Proof.
  intros Hc Hd. destruct (Ascii.eqb c d) eqn:E; [|reflexivity].
  apply Ascii.eqb_eq in E. congruence.
Qed.

Lemma allDigits_occurs c s : isDigit c = false -> allDigits s = true -> occurs c s = false.
Proof.
  intros Hc. induction s as [|d r IH]; simpl; [reflexivity|].
  intros H. apply andb_true_iff in H as [Hd Hr].
  rewrite (isDigit_not d c Hd Hc), (IH Hr). reflexivity.
Qed.

(** [parseInt] reads back the spelling of an index. *)
Lemma parseInt_decimal n : parseInt (decimal n) = Some (Z.of_nat n).
Proof.
  destruct (decimal_nonempty n) as (c & r & E & Hc).
  pose proof (parseDigits_decimal n) as P.
  unfold parseInt. rewrite E in *. 
  assert (W : isWhiteSpace c = false).
  { destruct (isWhiteSpace c) eqn:W; [|reflexivity].
    unfold isWhiteSpace, isDigit in *. simpl in W.
    rewrite !orb_true_iff in W. rewrite andb_true_iff in Hc.
    rewrite !N.eqb_eq in W. rewrite !N.leb_le in Hc. lia. }
  simpl trimStart. rewrite W.
  assert (Hm : Ascii.eqb c "-" = false) by (apply isDigit_not; [exact Hc|reflexivity]).
  assert (Hp : Ascii.eqb c "+" = false) by (apply isDigit_not; [exact Hc|reflexivity]).
  destruct c as [[] [] [] [] [] [] [] []]; try discriminate; rewrite Hc, P; reflexivity.
Qed.


(* ================================================================== *)
(** ** Facts about the document *)

Local Open Scope list_scope.

Lemma children_elements n i c : nth_error (children n) i = Some c -> isElement c = true.
Proof.
  intros H. apply nth_error_In in H. unfold children in H.
  apply filter_In in H. tauto.
Qed.

Lemma nodeAt_app n p q :
  nodeAt n (p ++ q) = match nodeAt n p with Some m => nodeAt m q | None => None end.
Proof.
  revert n. induction p as [|i p IH]; intros n; simpl; [reflexivity|].
  destruct (nth_error (children n) i); [apply IH | reflexivity].
Qed.

Lemma nodeAt_element n p m :
  isElement n = true -> nodeAt n p = Some m -> isElement m = true.
Proof.
  revert n. induction p as [|i p IH]; intros n Hn; simpl.
  - intros [= <-]. exact Hn.
  - destruct (nth_error (children n) i) as [c|] eqn:E; [|discriminate].
    apply IH. eapply children_elements, E.
Qed.

(** The element children after [updateNthElement]. *)
Lemma elements_updateNth g i l j :
  keepsElements g ->
  nth_error (filter isElement (updateNthElement g i l)) j =
  if Nat.eqb j i then option_map g (nth_error (filter isElement l) i)
  else nth_error (filter isElement l) j.
Proof.
  intros Hg. revert i j.
  induction l as [|n r IH]; intros i j.
  - simpl. destruct (Nat.eqb j i); destruct i, j; reflexivity.
  - destruct n as [d|d|a cs].
    + simpl. apply IH.
    + simpl. apply IH.
    + destruct i as [|i'].
      * simpl updateNthElement.
        assert (E : isElement (g (Element a cs)) = true) by (apply Hg; reflexivity).
        simpl. rewrite E. destruct j; reflexivity.
      * simpl. destruct j as [|j']; [reflexivity|]. simpl. apply IH.
Qed.

Lemma length_elements_updateNth g i l :
  keepsElements g ->
  List.length (filter isElement (updateNthElement g i l)) = List.length (filter isElement l).
Proof.
  intros Hg. revert i.
  induction l as [|n r IH]; intros i; [reflexivity|].
  destruct n as [d|d|a cs]; simpl; auto.
  destruct i as [|i'].
  - assert (E : isElement (g (Element a cs)) = true) by (apply Hg; reflexivity).
    simpl. rewrite E. reflexivity.
  - simpl. f_equal. apply IH.
Qed.

Lemma keepsElements_updateAt p f : keepsElements f -> keepsElements (updateAt p f).
Proof.
  intros Hf n Hn. destruct p; simpl; [apply Hf, Hn|].
  destruct n; [discriminate..|reflexivity].
Qed.

(** The updated position holds the updated element. *)
Lemma nodeAt_updateAt_same p f n :
  keepsElements f -> nodeAt (updateAt p f n) p = option_map f (nodeAt n p).
Proof.
  intros Hf. revert n.
  induction p as [|i p IH]; intros n; [reflexivity|].
  destruct n as [d|d|a cs]; [simpl; destruct i; reflexivity..|].
  simpl. unfold children. simpl childNodes.
  rewrite elements_updateNth by (apply keepsElements_updateAt, Hf).
  rewrite Nat.eqb_refl.
  destruct (nth_error (filter isElement cs) i) as [c|]; simpl; [apply IH | reflexivity].
Qed.

(** A position apart from the updated one holds what it held. *)
Lemma nodeAt_updateAt_apart p f n q :
  keepsElements f -> apart p q -> nodeAt (updateAt p f n) q = nodeAt n q.
Proof.
  intros Hf. revert n q.
  induction p as [|i p IH]; intros n q [H1 H2].
  - exfalso. apply (H1 q). reflexivity.
  - destruct q as [|j q]; [exfalso; apply (H2 (i :: p)); reflexivity|].
    destruct n as [d|d|a cs]; [reflexivity..|].
    simpl. unfold children. simpl childNodes.
    rewrite elements_updateNth by (apply keepsElements_updateAt, Hf).
    destruct (Nat.eqb j i) eqn:E; [|reflexivity].
    apply Nat.eqb_eq in E. subst j.
    destruct (nth_error (filter isElement cs) i) as [c|]; simpl; [|reflexivity].
    apply IH. split; intros r Hr.
    + apply (H1 r). simpl. congruence.
    + apply (H2 r). simpl. congruence.
Qed.

Lemma attrsOnly_keepsElements f : attrsOnly f -> keepsElements f.
Proof.
  intros Hf n Hn. destruct (Hf n) as [g ->]. destruct n; [discriminate..|reflexivity].
Qed.

Lemma children_setAttrs g n : children (setAttrs g n) = children n.
Proof. destruct n; reflexivity. Qed.

(** A change of attributes at one position leaves the attributes at every
    other position alone. *)
Lemma attrsAt_updateAt_other p f n q :
  attrsOnly f -> q <> p -> attrsAt (updateAt p f n) q = attrsAt n q.
Proof.
  intros Hf. pose proof (attrsOnly_keepsElements f Hf) as Hk.
  unfold attrsAt. revert n q.
  induction p as [|i p IH]; intros n q Hq.
  - simpl updateAt. destruct (Hf n) as [g ->].
    destruct q as [|j q]; [congruence|].
    simpl. rewrite children_setAttrs. reflexivity.
  - destruct n as [d|d|a cs]; try reflexivity.
    destruct q as [|j q]; [reflexivity|].
    simpl. unfold children. simpl childNodes.
    rewrite elements_updateNth by (apply keepsElements_updateAt, Hk).
    destruct (Nat.eqb j i) eqn:E; [|reflexivity].
    apply Nat.eqb_eq in E. subst j.
    destruct (nth_error (filter isElement cs) i) as [c|]; simpl; [|reflexivity].
    apply IH. congruence.
Qed.

Lemma attrsAt_updateAt_same p f n :
  keepsElements f ->
  attrsAt (updateAt p f n) p = match nodeAt n p with Some m => attrs (f m) | None => None end.
Proof.
  intros Hf. unfold attrsAt. rewrite nodeAt_updateAt_same by exact Hf.
  destruct (nodeAt n p); reflexivity.
Qed.

(** Two functions that agree on the element at a position update alike. *)
Lemma updateNth_ext f g i l :
  (forall c, nth_error (filter isElement l) i = Some c -> f c = g c) ->
  updateNthElement f i l = updateNthElement g i l.
Proof.
  revert i. induction l as [|n r IH]; intros i H; [reflexivity|].
  destruct n as [d|d|a cs]; simpl.
  - f_equal. apply IH. exact H.
  - f_equal. apply IH. exact H.
  - destruct i as [|i'].
    + f_equal. apply H. reflexivity.
    + f_equal. apply IH. exact H.
Qed.

Lemma updateAt_ext p f g n :
  (forall m, nodeAt n p = Some m -> f m = g m) -> updateAt p f n = updateAt p g n.
Proof.
  revert n. induction p as [|i p IH]; intros n H.
  - simpl. apply H. reflexivity.
  - destruct n as [d|d|a cs]; try reflexivity.
    simpl. f_equal. apply updateNth_ext. intros c Hc.
    apply IH. intros m Hm. apply H. simpl. unfold children. simpl childNodes.
    rewrite Hc. exact Hm.
Qed.

Lemma updateNth_id i l :
  updateNthElement (fun c => c) i l = l.
Proof.
  revert i. induction l as [|n r IH]; intros i; [reflexivity|].
  destruct n as [d|d|a cs]; simpl; try (f_equal; apply IH).
  destruct i; [reflexivity | f_equal; apply IH].
Qed.

Lemma updateAt_id p n : updateAt p (fun c => c) n = n.
Proof.
  revert n. induction p as [|i p IH]; intros n; [reflexivity|].
  destruct n as [d|d|a cs]; try reflexivity.
  simpl. f_equal.
  rewrite (updateNth_ext _ (fun c => c)); [apply updateNth_id | intros; apply IH].
Qed.



(* ================================================================== *)
(** ** Facts about keys *)

(** One turn of the loop of [getElementByKey]. *)
Lemma getElementByKey_loop_cons node p rest :
  getElementByKey_loop node (p :: rest) =
  match parseInt (toStringU (indexField p)) with
  | None => None
  | Some childIndex =>
      match children_get node childIndex with
      | None => None
      | Some i =>
          match nth_error (children node) i with
          | Some child => option_map (cons i) (getElementByKey_loop child rest)
          | None => None
          end
      end
  end.
Proof. reflexivity. Qed.

Lemma filter_map_elements (T : Node -> Node) l :
  (forall c, isElement (T c) = isElement c) ->
  filter isElement (map T l) = map T (filter isElement l).
Proof.
  intros HT. induction l as [|c r IH]; [reflexivity|].
  simpl. rewrite HT. destruct (isElement c); simpl; now rewrite IH.
Qed.

Lemma namedIndex_map (T : Node -> Node) key l i :
  (forall c, isNamed key (T c) = isNamed key c) ->
  namedIndex key (map T l) i = namedIndex key l i.
Proof.
  intros HT. revert i. induction l as [|c r IH]; intros i; [reflexivity|].
  simpl. rewrite HT. destruct (isNamed key c); [reflexivity | apply IH].
Qed.

(** [getElementByKey] reads of the document the arrangement of the elements
    and their IDs and names, and nothing else: a transformation of the tree
    that keeps these keeps every result. *)
Lemma getElementByKey_loop_transform (T : Node -> Node) :
  (forall n, children (T n) = map T (children n)) ->
  (forall key c, isNamed key (T c) = isNamed key c) ->
  forall parts n, getElementByKey_loop (T n) parts = getElementByKey_loop n parts.
Proof.
  intros Hc Hn. induction parts as [|p rest IH]; intros n; [reflexivity|].
  rewrite !getElementByKey_loop_cons.
  destruct (parseInt (toStringU (indexField p))) as [z|]; [|reflexivity].
  assert (E : children_get (T n) z = children_get n z).
  { unfold children_get. rewrite Hc, length_map.
    destruct ((0 <=? z)%Z && (z <? 4294967295)%Z); [reflexivity|].
    apply namedIndex_map. intros c. apply Hn. }
  rewrite E. destruct (children_get n z) as [i|]; [|reflexivity].
  rewrite Hc, nth_error_map.
  destruct (nth_error (children n) i) as [c|]; simpl; [|reflexivity].
  now rewrite IH.
Qed.

Lemma isElement_skeleton c : isElement (skeleton c) = isElement c.
Proof. destruct c; reflexivity. Qed.

Lemma children_skeleton n : children (skeleton n) = map skeleton (children n).
Proof.
  destruct n as [d|d|a cs]; try reflexivity.
  unfold children. simpl. apply filter_map_elements, isElement_skeleton.
Qed.

Lemma isNamed_skeleton key c : isNamed key (skeleton c) = isNamed key c.
Proof. destruct c; reflexivity. Qed.

Lemma getElementByKey_skeleton b1 b2 key :
  skeleton b1 = skeleton b2 -> getElementByKey b1 key = getElementByKey b2 key.
Proof.
  intros H. unfold getElementByKey.
  rewrite <- (getElementByKey_loop_transform skeleton children_skeleton isNamed_skeleton _ b1).
  rewrite <- (getElementByKey_loop_transform skeleton children_skeleton isNamed_skeleton _ b2).
  now rewrite H.
Qed.

Lemma isElement_retag f c : isElement (retag f c) = isElement c.
Proof. destruct c; reflexivity. Qed.

Lemma children_retag f n : children (retag f n) = map (retag f) (children n).
Proof.
  destruct n as [d|d|a cs]; try reflexivity.
  unfold children. simpl. apply filter_map_elements, isElement_retag.
Qed.

Lemma isNamed_retag f key c : isNamed key (retag f c) = isNamed key c.
Proof. destruct c; reflexivity. Qed.

(** A result of [getElementByKey] is a position in the document, one step
    for each part of the key. *)
Lemma getElementByKey_loop_valid parts : forall n el,
  getElementByKey_loop n parts = Some el ->
  (exists m, nodeAt n el = Some m) /\ List.length el = List.length parts.
Proof.
  induction parts as [|p rest IH]; intros n el.
  - intros [= <-]. split; [now exists n | reflexivity].
  - rewrite getElementByKey_loop_cons.
    destruct (parseInt (toStringU (indexField p))) as [z|]; [|discriminate].
    destruct (children_get n z) as [i|]; [|discriminate].
    destruct (nth_error (children n) i) as [c|] eqn:E; [|discriminate].
    destruct (getElementByKey_loop c rest) as [el'|] eqn:R; [|discriminate].
    intros [= <-]. destruct (IH _ _ R) as [[m Hm] L].
    split; [exists m; simpl; now rewrite E | simpl; now rewrite L].
Qed.

(** Each step of a result is the index that [parseInt] read in the part,
    whenever that is an array index. *)
Lemma getElementByKey_loop_positional parts : forall n el,
  getElementByKey_loop n parts = Some el ->
  Forall2 (fun part i =>
             exists z, parseInt (toStringU (indexField part)) = Some z /\
                       ((0 <= z < 4294967295)%Z -> i = Z.to_nat z))
          parts el.
Proof.
  induction parts as [|p rest IH]; intros n el.
  - intros [= <-]. constructor.
  - rewrite getElementByKey_loop_cons.
    destruct (parseInt (toStringU (indexField p))) as [z|] eqn:P; [|discriminate].
    destruct (children_get n z) as [i|] eqn:G; [|discriminate].
    destruct (nth_error (children n) i) as [c|] eqn:E; [|discriminate].
    destruct (getElementByKey_loop c rest) as [el'|] eqn:R; [|discriminate].
    intros [= <-]. constructor; [|eapply IH, R].
    exists z. split; [exact P|]. intros Hz.
    unfold children_get in G.
    replace ((0 <=? z)%Z && (z <? 4294967295)%Z) with true in G
      by (symmetry; apply andb_true_iff; split; [apply Z.leb_le | apply Z.ltb_lt]; lia).
    destruct (z <? Z.of_nat (List.length (children n)))%Z; congruence.
Qed.

(** The result depends on the index fields of the parts only. *)
Lemma getElementByKey_loop_fields parts1 : forall parts2 n,
  map indexField parts1 = map indexField parts2 ->
  getElementByKey_loop n parts1 = getElementByKey_loop n parts2.
Proof.
  induction parts1 as [|p rest IH]; intros [|q rest2] n; simpl map; try discriminate;
    [reflexivity|].
  intros [= Hpq Hrest]. rewrite !getElementByKey_loop_cons, Hpq.
  destruct (parseInt _) as [z|]; [|reflexivity].
  destruct (children_get n z) as [i|]; [|reflexivity].
  destruct (nth_error (children n) i) as [c|]; [|reflexivity].
  now rewrite (IH rest2 c Hrest).
Qed.

Lemma nodeAt_snoc n el i m :
  nodeAt n (el ++ [i]) = Some m <->
  exists parent, nodeAt n el = Some parent /\ nth_error (children parent) i = Some m.
Proof.
  rewrite nodeAt_app. destruct (nodeAt n el) as [parent|].
  - simpl. destruct (nth_error (children parent) i) as [c|] eqn:E.
    + split; [intros [= <-]; eauto | intros (q & [= <-] & H); congruence].
    + split; [discriminate | intros (q & [= <-] & H); congruence].
  - split; [discriminate | intros (q & H & _); discriminate].
Qed.

Lemma segments_snoc n el i parent c :
  nodeAt n el = Some parent -> nth_error (children parent) i = Some c ->
  segments n (el ++ [i]) =
  segments n el ++
  [(match attrs c with Some a => tagName a | None => "" end ++ ":" ++ decimal i)%string].
Proof.
  revert n. induction el as [|j el IH]; intros n; simpl.
  - intros [= <-] ->. reflexivity.
  - destruct (nth_error (children n) j) as [d|]; [|discriminate].
    intros H1 H2. now rewrite (IH _ H1 H2).
Qed.

(** [getKey] walks up and prepends; the result lists the segments from
    [document.body] down. *)
Lemma getKey_loop_segments body el : forall path m,
  nodeAt body el = Some m ->
  getKey_loop body (rev el) path = segments body el ++ path.
Proof.
  induction el as [|i el IH] using rev_ind; intros path m H; [reflexivity|].
  apply nodeAt_snoc in H as (parent & Hp & Hc).
  rewrite rev_app_distr. simpl rev. simpl app.
  cbn [getKey_loop]. 
  replace (rev (i :: rev el)) with (el ++ [i]) by (simpl; now rewrite rev_involutive).
  assert (Hm : nodeAt body (el ++ [i]) = Some m) by (apply nodeAt_snoc; eauto).
  rewrite Hm. rewrite (IH _ _ Hp), (segments_snoc _ _ _ _ _ Hp Hc), <- app_assoc.
  reflexivity.
Qed.

Lemma getKey_segments body el m :
  nodeAt body el = Some m -> getKey body el = join ">" (segments body el).
Proof.
  intros H. unfold getKey. rewrite (getKey_loop_segments _ _ [] _ H), app_nil_r. reflexivity.
Qed.

Lemma segments_nonempty n i el m :
  nodeAt n (i :: el) = Some m -> segments n (i :: el) <> [].
Proof.
  simpl. destruct (nth_error (children n) i); [discriminate | discriminate].
Qed.

(** Decoding the segments of a position gives the position back, when no
    tag name on the way holds a colon and the indices are array indices. *)
Lemma getElementByKey_loop_segments el : forall n m,
  nodeAt n el = Some m ->
  Forall (fun t => occurs ":" t = false) (tagsAlong n el) ->
  Forall (fun i => (Z.of_nat i < 4294967295)%Z) el ->
  getElementByKey_loop n (segments n el) = Some el.
Proof.
  induction el as [|i el IH]; intros n m; [reflexivity|].
  simpl. destruct (nth_error (children n) i) as [c|] eqn:E; [|discriminate].
  intros Hm Ht Hi. inversion Ht as [|? ? Ht1 Ht2]; subst. inversion Hi as [|? ? Hi1 Hi2]; subst.
  rewrite getElementByKey_loop_cons. unfold indexField.
  rewrite split_app by exact Ht1.
  rewrite split_absent
    by (apply allDigits_occurs; [reflexivity | apply decimal_allDigits]).
  cbn [nth_error toStringU]. rewrite parseInt_decimal.
  unfold children_get.
  replace ((0 <=? Z.of_nat i)%Z && (Z.of_nat i <? 4294967295)%Z) with true
    by (symmetry; apply andb_true_iff; split; [apply Z.leb_le | apply Z.ltb_lt]; lia).
  rewrite Nat2Z.id.
  assert (L : (i < List.length (children n))%nat) by (apply nth_error_Some; congruence).
  replace (Z.of_nat i <? Z.of_nat (List.length (children n)))%Z with true
    by (symmetry; apply Z.ltb_lt; lia).
  rewrite E.
  now rewrite (IH _ _ Hm Ht2 Hi2).
Qed.

Lemma segments_no_gt el : forall n,
  Forall (fun t => occurs ">" t = false) (tagsAlong n el) ->
  Forall (fun p => occurs ">" p = false) (segments n el).
Proof.
  induction el as [|i el IH]; intros n; simpl; [constructor|].
  destruct (nth_error (children n) i) as [c|]; [|constructor].
  intros H. inversion H as [|? ? H1 H2]; subst. constructor; [|apply IH, H2].
  rewrite occurs_app, H1. simpl.
  apply allDigits_occurs; [reflexivity | apply decimal_allDigits].
Qed.

(** The round trip of the codec: for an element below [document.body]
    whose tag names on the way hold neither [:] nor [>]. *)
Lemma getElementByKey_getKey body el m :
  el <> [] ->
  nodeAt body el = Some m ->
  Forall (fun t => occurs ":" t = false /\ occurs ">" t = false) (tagsAlong body el) ->
  Forall (fun i => (Z.of_nat i < 4294967295)%Z) el ->
  getElementByKey body (getKey body el) = Some el.
Proof.
  intros Hne Hm Ht Hi. unfold getElementByKey.
  rewrite (getKey_segments _ _ _ Hm).
  destruct el as [|i el]; [congruence|].
  change ">" with (String ">"%char "").
  rewrite split_join.
  - eapply getElementByKey_loop_segments; eauto.
    eapply Forall_impl; [|exact Ht]. intros t [H _]. exact H.
  - eapply segments_nonempty, Hm.
  - apply segments_no_gt. eapply Forall_impl; [|exact Ht]. intros t [_ H]. exact H.
Qed.

Lemma children_get_out_of_range node z :
  (Z.of_nat (List.length (children node)) <= z < 4294967295)%Z ->
  children_get node z = None.
Proof.
  intros H. unfold children_get.
  replace ((0 <=? z)%Z && (z <? 4294967295)%Z) with true
    by (symmetry; apply andb_true_iff; split; [apply Z.leb_le | apply Z.ltb_lt]; lia).
  destruct (Z.ltb_spec z (Z.of_nat (List.length (children node)))); [lia | reflexivity].
Qed.

Lemma Malformed_null node parts :
  Malformed node parts -> getElementByKey_loop node parts = None.
Proof.
  induction 1 as [node p rest P | node p rest z P R | node p rest z P G
                 | node p rest z i child P G E M IH];
    rewrite getElementByKey_loop_cons, P; try reflexivity.
  - now rewrite children_get_out_of_range.
  - now rewrite G.
  - now rewrite G, E, IH.
Qed.


(* ================================================================== *)
(** ** Facts about reconciliation *)

Lemma skeleton_writeFirst t l :
  Forall (fun c => forall c', setFirstText t c = Some c' -> skeleton c' = skeleton c) l ->
  forall l', writeFirst (setFirstText t) l = Some l' -> map skeleton l' = map skeleton l.
Proof.
  induction 1 as [|c r Hc Hr IH]; intros l'; simpl; [discriminate|].
  destruct (setFirstText t c) as [c'|] eqn:E.
  - intros [= <-]. simpl. now rewrite (Hc c').
  - destruct (writeFirst (setFirstText t) r) as [r'|]; [|discriminate].
    intros [= <-]. simpl. now rewrite (IH r').
Qed.

(** Writing the first text node changes no element and moves no node. *)
Lemma skeleton_setFirstText t n :
  forall n', setFirstText t n = Some n' -> skeleton n' = skeleton n.
Proof.
  induction n as [d|d|a cs IH] using Node_ind; intros n'; simpl.
  - intros [= <-]. reflexivity.
  - discriminate.
  - destruct (writeFirst (setFirstText t) cs) as [cs'|] eqn:E; [|discriminate].
    intros [= <-]. simpl. f_equal. eapply skeleton_writeFirst; eauto.
Qed.

Lemma skeleton_updateNth g i l :
  (forall c, skeleton (g c) = skeleton c) ->
  map skeleton (updateNthElement g i l) = map skeleton l.
Proof.
  intros Hg. revert i. induction l as [|n r IH]; intros i; [reflexivity|].
  destruct n as [d|d|a cs]; simpl; try (f_equal; apply IH).
  destruct i as [|i']; simpl; [now rewrite Hg | f_equal; apply IH].
Qed.

Lemma skeleton_updateAt p g n :
  (forall c, skeleton (g c) = skeleton c) -> skeleton (updateAt p g n) = skeleton n.
Proof.
  intros Hg. revert n. induction p as [|i p IH]; intros n; simpl; [apply Hg|].
  destruct n as [d|d|a cs]; try reflexivity.
  simpl. f_equal. apply skeleton_updateNth. exact IH.
Qed.

Lemma skeleton_writeText t n : skeleton (writeText t n) = skeleton n.
Proof.
  unfold writeText. destruct (setFirstText t n) eqn:E; [|reflexivity].
  eapply skeleton_setFirstText, E.
Qed.

Lemma isElement_setFirstText t n n' :
  setFirstText t n = Some n' -> isElement n' = isElement n.
Proof.
  intros H. apply skeleton_setFirstText in H.
  rewrite <- (isElement_skeleton n), <- (isElement_skeleton n'). now rewrite H.
Qed.

Lemma keepsElements_writeText t : keepsElements (writeText t).
Proof.
  intros n Hn. unfold writeText. destruct (setFirstText t n) eqn:E; [|exact Hn].
  now rewrite (isElement_setFirstText _ _ _ E).
Qed.

(** The step of [applyEdits], spelt with [writeText]. *)
Lemma applyEdit_eq body key newText :
  applyEdit body (key, newText) =
  match getElementByKey body key with
  | None => (body, [])
  | Some el =>
      match nodeAt body el with
      | None => (body, [])
      | Some node =>
          if negb (String.eqb (trim (textContent node)) newText)
             && negb (optEq (dataIsEditing node) "true")
          then match setFirstText newText node with
               | Some _ => (updateAt el (writeText newText) body, [(el, newText)])
               | None => (body, [])
               end
          else (body, [])
      end
  end.
Proof.
  unfold applyEdit.
  destruct (getElementByKey body key) as [el|]; [|reflexivity].
  destruct (nodeAt body el) as [node|] eqn:N; [|reflexivity].
  destruct (negb _ && negb _); [|reflexivity].
  destruct (setFirstText newText node) as [node'|] eqn:E; [|reflexivity].
  f_equal. apply updateAt_ext. intros m Hm.
  rewrite N in Hm. injection Hm as <-. unfold writeText. now rewrite E.
Qed.

(** A step of reconciliation creates and removes nothing. *)
Lemma applyEdit_skeleton body e : skeleton (fst (applyEdit body e)) = skeleton body.
Proof.
  destruct e as [key newText]. rewrite applyEdit_eq.
  destruct (getElementByKey body key) as [el|]; [|reflexivity].
  destruct (nodeAt body el) as [node|]; [|reflexivity].
  destruct (negb _ && negb _); [|reflexivity].
  destruct (setFirstText newText node); [|reflexivity].
  simpl. apply skeleton_updateAt, skeleton_writeText.
Qed.

Lemma applyEntries_skeleton entries : forall body,
  skeleton (fst (applyEntries body entries)) = skeleton body.
Proof.
  induction entries as [|e rest IH]; intros body; [reflexivity|].
  simpl. pose proof (applyEdit_skeleton body e) as H.
  destruct (applyEdit body e) as [b1 w1]. simpl in H.
  specialize (IH b1). destruct (applyEntries b1 rest) as [b2 w2]. simpl in *. congruence.
Qed.

Lemma applyEntries_app l1 l2 body :
  applyEntries body (l1 ++ l2) =
  (fst (applyEntries (fst (applyEntries body l1)) l2),
   snd (applyEntries body l1) ++ snd (applyEntries (fst (applyEntries body l1)) l2)).
Proof.
  revert body. induction l1 as [|e rest IH]; intros body.
  - simpl. now destruct (applyEntries body l2).
  - simpl. destruct (applyEdit body e) as [b1 w1]. rewrite IH.
    destruct (applyEntries b1 rest) as [b2 w2]. simpl.
    now rewrite app_assoc.
Qed.

(** The early return of [applyEdits] changes nothing. *)
Lemma applyEditsOn_entries edits body : applyEditsOn edits body = applyEntries body edits.
Proof. destruct edits; reflexivity. Qed.

Lemma applyEdit_unresolved body key newText :
  getElementByKey body key = None -> applyEdit body (key, newText) = (body, []).
Proof. intros H. unfold applyEdit. now rewrite H. Qed.


(* ================================================================== *)
(** ** The key codec *)

(** C2, as the code has it.  [getElementByKey] answers [null] or a position
    of the document that has one step for each part of the key; a step is the
    index that [parseInt] reads in the part whenever that is an array index.
    No tag name is compared: the result is the same when every element of the
    document is renamed, and the same for every key whose parts carry the
    same index fields. *)
Theorem getElementByKey_by_position (body : Node) (key : string) :
  (forall el, getElementByKey body key = Some el ->
     (exists node, nodeAt body el = Some node) /\
     Forall2 (fun part i =>
                exists z, parseInt (toStringU (indexField part)) = Some z /\
                          ((0 <= z < 4294967295)%Z -> i = Z.to_nat z))
             (split ">" key) el) /\
  (forall f, getElementByKey (retag f body) key = getElementByKey body key) /\
  (forall key', map indexField (split ">" key') = map indexField (split ">" key) ->
     getElementByKey body key' = getElementByKey body key).
Proof.
  unfold getElementByKey. repeat split.
  - eapply getElementByKey_loop_valid; eauto.
  - eapply getElementByKey_loop_positional; eauto.
  - intros f. apply getElementByKey_loop_transform.
    + apply children_retag.
    + intros k c. apply isNamed_retag.
  - intros key' H. now apply getElementByKey_loop_fields.
Qed.

(** C3, where the code fails it.  The [span] of [doc_colon_tag] is reached
    from [document.body] by the child indices 0, 0, 0 and gets the key
    [O:P:0>DIV:0>SPAN:0]; decoding splits the first part at its colons, reads
    [P] as the index and answers [null]. *)
Theorem getKey_colon_tag_not_decoded :
  nodeAt doc_colon_tag [0; 0; 0] = Some (plain "SPAN" [Text "Hello"]) /\
  getKey doc_colon_tag [0; 0; 0] = "O:P:0>DIV:0>SPAN:0" /\
  getElementByKey doc_colon_tag (getKey doc_colon_tag [0; 0; 0]) = None.
Proof. repeat split. Qed.

(** The round trip of the codec holds for every element below
    [document.body] on whose way no tag name holds [:] or [>] (indices are
    array indices in every browser). *)
Theorem getKey_roundtrip (body : Node) (el : Path) (node : Node) :
  el <> [] ->
  nodeAt body el = Some node ->
  Forall (fun t => occurs ":" t = false /\ occurs ">" t = false) (tagsAlong body el) ->
  Forall (fun i => (Z.of_nat i < 4294967295)%Z) el ->
  getElementByKey body (getKey body el) = Some el.
Proof. apply getElementByKey_getKey. Qed.

(** C7, as the code has it.  A key with a part in which [parseInt] finds no
    number, or a part whose index is an array index past the last element
    child, or a part that asks for a child that is not there, decodes to
    [null]; reconciliation then skips its entry: the pass does to the
    document, and writes, what it does without that entry. *)
Theorem malformed_key_skipped (body : Node) (key : string) :
  Malformed body (split ">" key) ->
  getElementByKey body key = None /\
  forall before newText after,
    applyEditsOn (before ++ (key, newText) :: after) body
    = applyEditsOn (before ++ after) body.
Proof.
  intros M. assert (N : getElementByKey body key = None) by (apply Malformed_null, M).
  split; [exact N|]. intros before newText after.
  rewrite !applyEditsOn_entries, !applyEntries_app.
  set (b1 := fst (applyEntries body before)).
  assert (N1 : getElementByKey b1 key = None).
  { rewrite <- N. apply getElementByKey_skeleton. apply applyEntries_skeleton. }
  cbn [applyEntries]. rewrite (applyEdit_unresolved _ _ _ N1).
  destruct (applyEntries b1 after) as [b2 w2]. reflexivity.
Qed.


(* ================================================================== *)
(** ** The reconciler *)

Lemma optEq_true v s : optEq v s = true <-> v = Some s.
Proof.
  destruct v as [t|]; simpl; [|split; discriminate].
  rewrite String.eqb_eq. split; congruence.
Qed.

(** What a step writes, it writes to the located element, after a mismatch,
    and not while the element is being edited. *)
Lemma applyEdit_write now key newText w :
  In w (snd (applyEdit now (key, newText))) ->
  exists node,
    getElementByKey now key = Some (fst w) /\ snd w = newText /\
    nodeAt now (fst w) = Some node /\
    trim (textContent node) <> newText /\
    dataIsEditing node <> Some "true" /\
    fst (applyEdit now (key, newText)) = updateAt (fst w) (writeText newText) now.
Proof.
  rewrite applyEdit_eq.
  destruct (getElementByKey now key) as [el|]; [|intros []].
  destruct (nodeAt now el) as [node|] eqn:N; [|intros []].
  destruct (negb (String.eqb (trim (textContent node)) newText)) eqn:T; simpl; [|intros []].
  destruct (negb (optEq (dataIsEditing node) "true")) eqn:E; simpl; [|intros []].
  destruct (setFirstText newText node); simpl; [|intros []].
  intros [<- | []]. simpl. exists node. repeat split; auto.
  - apply negb_true_iff in T. now apply String.eqb_neq in T.
  - apply negb_true_iff in E. intros H. apply optEq_true in H. congruence.
Qed.

(** An element that is being edited is not written to. *)
Lemma applyEdit_isEditing now key newText el node :
  getElementByKey now key = Some el -> nodeAt now el = Some node ->
  dataIsEditing node = Some "true" ->
  applyEdit now (key, newText) = (now, []).
Proof.
  intros K N E. rewrite applyEdit_eq, K, N.
  replace (optEq (dataIsEditing node) "true") with true by (symmetry; now apply optEq_true).
  now rewrite andb_false_r.
Qed.

(** An element whose trimmed text is the stored text is not written to. *)
Lemma applyEdit_same_text now key newText el node :
  getElementByKey now key = Some el -> nodeAt now el = Some node ->
  trim (textContent node) = newText ->
  applyEdit now (key, newText) = (now, []).
Proof.
  intros K N E. rewrite applyEdit_eq, K, N, E, String.eqb_refl. reflexivity.
Qed.

(** Every write of a pass is the write of one of its steps. *)
Lemma applyEntries_write entries : forall body w,
  In w (snd (applyEntries body entries)) ->
  exists before e after,
    entries = before ++ e :: after /\
    In w (snd (applyEdit (fst (applyEntries body before)) e)).
Proof.
  induction entries as [|e rest IH]; intros body w; [intros []|].
  simpl. destruct (applyEdit body e) as [b1 w1] eqn:E1.
  destruct (applyEntries b1 rest) as [b2 w2] eqn:E2. simpl.
  intros H. apply in_app_or in H as [H|H].
  - exists [], e, rest. simpl. rewrite E1. auto.
  - specialize (IH b1 w). rewrite E2 in IH. destruct (IH H) as (before & e' & after & -> & Hw).
    exists (e :: before), e', after. split; [reflexivity|].
    simpl. rewrite E1. destruct (applyEntries b1 before). exact Hw.
Qed.

Lemma nodeAt_skeleton p : forall n,
  nodeAt (skeleton n) p = option_map skeleton (nodeAt n p).
Proof.
  induction p as [|i p IH]; intros n; [reflexivity|].
  simpl. rewrite children_skeleton, nth_error_map.
  destruct (nth_error (children n) i); simpl; [apply IH | reflexivity].
Qed.

Lemma nodeAt_same_skeleton d1 d2 p n1 :
  skeleton d1 = skeleton d2 -> nodeAt d1 p = Some n1 ->
  exists n2, nodeAt d2 p = Some n2 /\ skeleton n1 = skeleton n2.
Proof.
  intros H N. pose proof (nodeAt_skeleton p d1) as E1. pose proof (nodeAt_skeleton p d2) as E2.
  rewrite H, E2, N in E1. destruct (nodeAt d2 p) as [n2|]; [|discriminate].
  exists n2. split; [reflexivity|]. simpl in E1. congruence.
Qed.

Lemma dataIsEditing_skeleton n1 n2 :
  skeleton n1 = skeleton n2 -> dataIsEditing n1 = dataIsEditing n2.
Proof.
  destruct n1, n2; simpl; try discriminate; try reflexivity. now intros [= -> _].
Qed.

(** A leaf and another located element are apart. *)
Lemma leaf_apart d el1 el2 n1 n2 :
  nodeAt d el1 = Some n1 -> nodeAt d el2 = Some n2 ->
  children n1 = [] -> children n2 = [] -> el1 <> el2 -> apart el1 el2.
Proof.
  intros N1 N2 C1 C2 D. split; intros r ->.
  - rewrite nodeAt_app, N1 in N2. destruct r as [|i r].
    + apply D. now rewrite app_nil_r.
    + simpl in N2. rewrite C1 in N2. destruct i; discriminate.
  - rewrite nodeAt_app, N2 in N1. destruct r as [|i r].
    + apply D. now rewrite app_nil_r.
    + simpl in N1. rewrite C2 in N1. destruct i; discriminate.
Qed.

(** A step of the loop writes to one element or changes nothing. *)
Lemma applyEdit_cases now key newText :
  applyEdit now (key, newText) = (now, []) \/
  exists el, applyEdit now (key, newText)
             = (updateAt el (writeText newText) now, [(el, newText)]).
Proof.
  rewrite applyEdit_eq.
  destruct (getElementByKey now key) as [el|]; [|now left].
  destruct (nodeAt now el) as [node|]; [|now left].
  destruct (negb _ && negb _); [|now left].
  destruct (setFirstText newText node); [right; now exists el | now left].
Qed.

(** Writes apart from a position leave the node there as it is. *)
Lemma applyEntries_apart entries : forall d q,
  (forall w, In w (snd (applyEntries d entries)) -> apart (fst w) q) ->
  nodeAt (fst (applyEntries d entries)) q = nodeAt d q.
Proof.
  induction entries as [|[key newText] rest IH]; intros d q H; [reflexivity|].
  cbn [applyEntries] in *.
  destruct (applyEdit_cases d key newText) as [E|(el & E)]; rewrite E in *.
  - specialize (IH d q). destruct (applyEntries d rest) as [d2 w2]. cbn [fst snd] in *.
    apply IH. intros w I. apply H. exact I.
  - specialize (IH (updateAt el (writeText newText) d) q).
    destruct (applyEntries (updateAt el (writeText newText) d) rest) as [d2 w2].
    cbn [fst snd] in *. rewrite IH.
    + apply nodeAt_updateAt_apart; [apply keepsElements_writeText|].
      apply (H (el, newText)). now left.
    + intros w I. apply H. now right.
Qed.

(** The target of a write is an element that an entry locates in the
    document of the page, and its marker is not [true]. *)
Lemma applyEntries_target edits body w :
  In w (snd (applyEntries body edits)) ->
  exists key node,
    In (key, snd w) edits /\ getElementByKey body key = Some (fst w) /\
    nodeAt body (fst w) = Some node /\ dataIsEditing node <> Some "true".
Proof.
  intros Hw.
  apply applyEntries_write in Hw as (before & [key newText] & after & -> & Hw).
  apply applyEdit_write in Hw as (node' & K & T & N' & _ & E & _).
  pose proof (applyEntries_skeleton before body) as Sk.
  destruct (nodeAt_same_skeleton _ _ _ _ Sk N') as (node & N & S).
  exists key, node. rewrite T. repeat split.
  - apply in_or_app. right. now left.
  - now rewrite <- (getElementByKey_skeleton _ _ key Sk).
  - exact N.
  - now rewrite <- (dataIsEditing_skeleton _ _ S).
Qed.

(** C4, as the code has it.  A pass of [applyEdits] leaves every element,
    every attribute and the place of every node as they were: only the data
    of text nodes can differ.  Each of its writes goes to the first text node
    below the element that the entry's key locates, whose trimmed text
    differs from the stored text and whose [isEditing] marker is not [true],
    and leaves every element apart from that one as it was.  When the key of
    an entry locates an element whose marker is [true], the entry writes
    nothing and changes nothing, whatever its stored text; so no write of
    the pass has for its target an element whose marker is [true].  The
    marker is read on the located element only: an element whose marker is
    [true] keeps its node through the pass when no write has a proper
    ancestor or a proper descendant of it for its target, as when it and the
    elements that the stored keys locate have no element child. *)
Theorem applyEdits_writes_text_only (edits : JSObject string) (body : Node) :
  skeleton (fst (applyEditsOn edits body)) = skeleton body /\
  (forall w, In w (snd (applyEditsOn edits body)) ->
     exists before key after node,
       let now := fst (applyEditsOn before body) in
       edits = before ++ (key, snd w) :: after /\
       getElementByKey now key = Some (fst w) /\
       nodeAt now (fst w) = Some node /\
       trim (textContent node) <> snd w /\
       dataIsEditing node <> Some "true" /\
       fst (applyEdit now (key, snd w)) = updateAt (fst w) (writeText (snd w)) now /\
       (forall q, apart (fst w) q ->
          nodeAt (fst (applyEdit now (key, snd w))) q = nodeAt now q)) /\
  (forall before key newText after el node,
     let now := fst (applyEditsOn before body) in
     edits = before ++ (key, newText) :: after ->
     getElementByKey now key = Some el ->
     nodeAt now el = Some node ->
     dataIsEditing node = Some "true" ->
     applyEdit now (key, newText) = (now, [])) /\
  (forall w node,
     In w (snd (applyEditsOn edits body)) ->
     nodeAt body (fst w) = Some node ->
     dataIsEditing node <> Some "true") /\
  (forall q n,
     nodeAt body q = Some n -> dataIsEditing n = Some "true" ->
     (forall w, In w (snd (applyEditsOn edits body)) ->
        ~ properAncestor (fst w) q /\ ~ properAncestor q (fst w)) ->
     nodeAt (fst (applyEditsOn edits body)) q = Some n) /\
  (LeafLocated edits body ->
   forall q n,
     nodeAt body q = Some n -> dataIsEditing n = Some "true" -> children n = [] ->
     nodeAt (fst (applyEditsOn edits body)) q = Some n).
Proof.
  rewrite applyEditsOn_entries. split; [apply applyEntries_skeleton|].
  assert (M : forall w node, In w (snd (applyEntries body edits)) ->
                nodeAt body (fst w) = Some node -> dataIsEditing node <> Some "true").
  { intros w node Hw N. destruct (applyEntries_target _ _ _ Hw) as (key & node' & _ & _ & N' & E).
    rewrite N in N'. now injection N' as <-. }
  assert (A : forall q n, nodeAt body q = Some n -> dataIsEditing n = Some "true" ->
                (forall w, In w (snd (applyEntries body edits)) ->
                   ~ properAncestor (fst w) q /\ ~ properAncestor q (fst w)) ->
                nodeAt (fst (applyEntries body edits)) q = Some n).
  { intros q n N E H. rewrite applyEntries_apart; [exact N|].
    intros w Hw. destruct (H w Hw) as [H1 H2].
    assert (D : fst w <> q) by (intros <-; exact (M w n Hw N E)).
    split; intros r Heq.
    - destruct r as [|i r]; [apply D; now rewrite Heq, app_nil_r|].
      apply H1. exists (i :: r). split; [discriminate | exact Heq].
    - destruct r as [|i r]; [apply D; now rewrite Heq, app_nil_r|].
      apply H2. exists (i :: r). split; [discriminate | exact Heq]. }
  split; [|split; [|split; [exact M|split; [exact A|]]]].
  - intros w Hw. apply applyEntries_write in Hw as (before & [key newText] & after & -> & Hw).
    apply applyEdit_write in Hw as (node & K & T & N & D & E & U).
    exists before, key, after, node. rewrite applyEditsOn_entries. subst newText.
    cbv zeta. repeat split; try assumption.
    intros q Ap. rewrite U. apply nodeAt_updateAt_apart; [apply keepsElements_writeText | exact Ap].
  - intros before key newText after el node now _ K N E.
    eapply applyEdit_isEditing; eauto.
  - intros Lf q n N E C. rewrite applyEntries_apart; [exact N|].
    intros w Hw.
    destruct (applyEntries_target _ _ _ Hw) as (key & node & I & K & Nw & Ew).
    apply (leaf_apart body (fst w) q node n Nw N); [|exact C|].
    + exact (Lf key (snd w) (fst w) node I K Nw).
    + intros Eq. rewrite Eq in Nw. rewrite N in Nw. injection Nw as <-. now apply Ew.
Qed.

(* ------------------------------------------------------------------ *)
(** *** A second pass *)

Lemma textNodes_skeleton n : textNodes (skeleton n) = textNodes n.
Proof.
  induction n as [d|d|a cs IH] using Node_ind; try reflexivity.
  simpl. rewrite map_map. f_equal.
  induction IH as [|c r Hc Hr IHr]; [reflexivity|]. simpl. now rewrite Hc, IHr.
Qed.

Lemma children_nil_skeleton n : children (skeleton n) = [] <-> children n = [].
Proof.
  rewrite children_skeleton. destruct (children n); simpl; split; congruence.
Qed.

(** Nodes with the same skeleton are leaves together. *)
Lemma leaf_skeleton n1 n2 :
  skeleton n1 = skeleton n2 ->
  children n1 = [] /\ (textNodes n1 <= 1)%nat ->
  children n2 = [] /\ (textNodes n2 <= 1)%nat.
Proof.
  intros H [C T]. split.
  - apply children_nil_skeleton. rewrite <- H. now apply children_nil_skeleton.
  - rewrite <- textNodes_skeleton, <- H, textNodes_skeleton. exact T.
Qed.

Lemma LeafTargets_skeleton edits d1 d2 :
  skeleton d1 = skeleton d2 -> LeafTargets edits d1 -> LeafTargets edits d2.
Proof.
  intros H L key text el node I K N.
  rewrite <- (getElementByKey_skeleton d1 d2 key H) in K.
  destruct (nodeAt_same_skeleton d2 d1 el node (eq_sym H) N) as (n1 & N1 & S).
  eapply leaf_skeleton; [symmetry; exact S|]. eapply L; eauto.
Qed.

Lemma Unambiguous_skeleton edits d1 d2 :
  skeleton d1 = skeleton d2 -> Unambiguous edits d1 -> Unambiguous edits d2.
Proof.
  intros H U key1 text1 key2 text2 el I1 I2 K1 K2.
  rewrite <- (getElementByKey_skeleton d1 d2 key1 H) in K1.
  rewrite <- (getElementByKey_skeleton d1 d2 key2 H) in K2. eapply U; eauto.
Qed.

Lemma concatTexts_no_text l :
  filter isElement l = [] -> list_sum (map textNodes l) = 0%nat ->
  concatTexts textContent l = "".
Proof.
  induction l as [|c r IH]; [reflexivity|].
  destruct c as [d|d|a cs]; simpl; try discriminate.
  intros E T. now apply IH.
Qed.

(** Writing to a leaf text host makes the written text its whole text. *)
Lemma textContent_written t node node' :
  children node = [] -> (textNodes node <= 1)%nat ->
  setFirstText t node = Some node' -> textContent node' = t.
Proof.
  destruct node as [d|d|a cs]; simpl.
  - intros _ _ [= <-]. reflexivity.
  - discriminate.
  - unfold children. simpl childNodes. intros C T.
    destruct (writeFirst (setFirstText t) cs) as [cs'|] eqn:W; [|discriminate].
    intros [= <-]. simpl. revert cs' W C T.
    induction cs as [|c r IH]; intros cs'; simpl; [discriminate|].
    destruct c as [d|d|b ds]; simpl.
    + intros [= <-] C T. simpl.
      rewrite concatTexts_no_text; [apply append_empty_r | exact C | lia].
    + destruct (writeFirst (setFirstText t) r) as [r'|]; [|discriminate].
      intros [= <-] C T. simpl. now apply IH.
    + discriminate.
Qed.

Lemma Settled_iff d key text :
  Settled d (key, text) <-> snd (applyEdit d (key, text)) = [].
Proof.
  unfold Settled. split; [intros ->; reflexivity|].
  rewrite applyEdit_eq.
  destruct (getElementByKey d key) as [el|]; [|reflexivity].
  destruct (nodeAt d el) as [node|]; [|reflexivity].
  destruct (negb _ && negb _); [|reflexivity].
  destruct (setFirstText text node); [discriminate | reflexivity].
Qed.

Section SecondPass.

Variable edits : JSObject string.
Hypothesis trimmed : StoredTrimmed edits.

(** After its own step an entry is settled. *)
Lemma Settled_after_step d key text :
  In (key, text) edits -> LeafTargets edits d ->
  Settled (fst (applyEdit d (key, text))) (key, text).
Proof.
  intros I L. destruct (applyEdit d (key, text)) as [d' w] eqn:A.
  rewrite applyEdit_eq in A.
  destruct (getElementByKey d key) as [el|] eqn:K.
  2:{ injection A as <- <-. cbn [fst]. now apply applyEdit_unresolved. }
  destruct (nodeAt d el) as [node|] eqn:N.
  2:{ injection A as <- <-. cbn [fst]. unfold Settled. now rewrite applyEdit_eq, K, N. }
  destruct (negb _ && negb _) eqn:C.
  2:{ injection A as <- <-. cbn [fst]. unfold Settled. now rewrite applyEdit_eq, K, N, C. }
  destruct (setFirstText text node) as [node'|] eqn:W.
  2:{ injection A as <- <-. cbn [fst]. unfold Settled. now rewrite applyEdit_eq, K, N, C, W. }
  injection A as <- <-. simpl.
  assert (S : skeleton (updateAt el (writeText text) d) = skeleton d)
    by (apply skeleton_updateAt, skeleton_writeText).
  eapply applyEdit_same_text.
  - rewrite (getElementByKey_skeleton _ d key S). exact K.
  - rewrite nodeAt_updateAt_same by apply keepsElements_writeText. rewrite N. reflexivity.
  - unfold writeText. rewrite W.
    destruct (L key text el node I K N) as [Lc Lt].
    rewrite (textContent_written _ _ _ Lc Lt W). exact (trimmed key text I).
Qed.

(** A settled entry stays settled through the step of another entry. *)
Lemma Settled_through_step d key1 text1 key2 text2 :
  In (key1, text1) edits -> In (key2, text2) edits ->
  LeafTargets edits d -> Unambiguous edits d ->
  Settled d (key1, text1) ->
  Settled (fst (applyEdit d (key2, text2))) (key1, text1).
Proof.
  intros I1 I2 L U S1.
  destruct (applyEdit d (key2, text2)) as [d' w] eqn:A.
  rewrite applyEdit_eq in A.
  destruct (getElementByKey d key2) as [el2|] eqn:K2; [|injection A as <- <-; exact S1].
  destruct (nodeAt d el2) as [n2|] eqn:N2; [|injection A as <- <-; exact S1].
  destruct (negb _ && negb _) eqn:C2; [|injection A as <- <-; exact S1].
  destruct (setFirstText text2 n2) as [n2'|] eqn:W2; [|injection A as <- <-; exact S1].
  injection A as <- <-. simpl.
  assert (S : skeleton (updateAt el2 (writeText text2) d) = skeleton d)
    by (apply skeleton_updateAt, skeleton_writeText).
  destruct (getElementByKey d key1) as [el1|] eqn:K1.
  2:{ apply applyEdit_unresolved. now rewrite (getElementByKey_skeleton _ d key1 S). }
  destruct (L key2 text2 el2 n2 I2 K2 N2) as [Lc2 Lt2].
  destruct (list_eq_dec Nat.eq_dec el1 el2) as [->|D].
  - assert (text1 = text2) as -> by (eapply U; eauto).
    eapply applyEdit_same_text.
    + rewrite (getElementByKey_skeleton _ d key1 S). exact K1.
    + rewrite nodeAt_updateAt_same by apply keepsElements_writeText. rewrite N2. reflexivity.
    + unfold writeText. rewrite W2.
      rewrite (textContent_written _ _ _ Lc2 Lt2 W2). exact (trimmed key2 text2 I2).
  - destruct (nodeAt d el1) as [n1|] eqn:N1.
    2:{ unfold getElementByKey in K1. apply getElementByKey_loop_valid in K1 as [[m Hm] _].
        congruence. }
    destruct (L key1 text1 el1 n1 I1 K1 N1) as [Lc1 Lt1].
    assert (Ap : apart el2 el1) by (eapply leaf_apart; eauto).
    assert (N1' : nodeAt (updateAt el2 (writeText text2) d) el1 = Some n1).
    { rewrite nodeAt_updateAt_apart; [exact N1 | apply keepsElements_writeText | exact Ap]. }
    apply Settled_iff. apply Settled_iff in S1.
    rewrite applyEdit_eq in *.
    rewrite (getElementByKey_skeleton _ d key1 S), K1, N1'. rewrite K1, N1 in S1.
    destruct (negb _ && negb _); [|reflexivity].
    destruct (setFirstText text1 n1); [discriminate | reflexivity].
Qed.

Lemma Settled_through_pass entries : forall d,
  incl entries edits -> LeafTargets edits d -> Unambiguous edits d ->
  (forall e, In e entries -> Settled (fst (applyEntries d entries)) e) /\
  (forall e, In e edits -> Settled d e -> Settled (fst (applyEntries d entries)) e).
Proof.
  induction entries as [|[key text] rest IH]; intros d Hin L U.
  - split; [intros e [] | intros e _ H; exact H].
  - assert (I : In (key, text) edits) by (apply Hin; now left).
    assert (Hrest : incl rest edits) by (intros x Hx; apply Hin; now right).
    cbn [applyEntries]. pose proof (applyEdit_skeleton d (key, text)) as S.
    pose proof (Settled_after_step d key text I L) as S0.
    assert (T : forall e, In e edits -> Settled d e ->
                          Settled (fst (applyEdit d (key, text))) e).
    { intros [k1 t1] I1 H1. now apply Settled_through_step. }
    destruct (applyEdit d (key, text)) as [d1 w1]. cbn [fst] in S, S0, T.
    assert (L1 : LeafTargets edits d1) by exact (LeafTargets_skeleton edits d d1 (eq_sym S) L).
    assert (U1 : Unambiguous edits d1) by exact (Unambiguous_skeleton edits d d1 (eq_sym S) U).
    destruct (IH d1 Hrest L1 U1) as [IH1 IH2].
    destruct (applyEntries d1 rest) as [d2 w2]. cbn [fst] in *.
    split.
    + intros e [<-|He]; [apply IH2; assumption | apply IH1; assumption].
    + intros e Ie He. apply IH2; [assumption|]. now apply T.
Qed.

Lemma applyEntries_settled entries d :
  (forall e, In e entries -> Settled d e) -> applyEntries d entries = (d, []).
Proof.
  induction entries as [|e rest IH]; intros H; [reflexivity|].
  simpl. rewrite (H e) by now left. rewrite IH by (intros x Hx; apply H; now right).
  reflexivity.
Qed.

End SecondPass.

(** C5, as the code has it.  When every stored text is its own trim, every
    element that a stored key locates is a leaf text host (no element
    children, at most one text node), and no two entries locate the same
    element with different texts, a second pass right after the first
    writes to no text node and leaves the document as it is. *)
Theorem applyEdits_second_pass_silent (edits : JSObject string) (body : Node) :
  StoredTrimmed edits -> LeafTargets edits body -> Unambiguous edits body ->
  applyEditsOn edits (fst (applyEditsOn edits body)) = (fst (applyEditsOn edits body), []).
Proof.
  intros T L U. rewrite !applyEditsOn_entries.
  apply applyEntries_settled.
  apply (Settled_through_pass edits T edits body); auto. apply incl_refl.
Qed.


(* ================================================================== *)
(** ** The editing gate *)

Lemma attrs_setAttrs g n : attrs (setAttrs g n) = option_map g (attrs n).
Proof. destruct n; reflexivity. Qed.

Lemma attrsOnly_setAttrs g : attrsOnly (setAttrs g).
Proof. intros n. now exists g. Qed.

(** A loop that sets attributes at selected positions: an element at a
    selected position gets them, when setting twice is setting once. *)
Lemma attrsAt_fold_setAttrs g ps : forall d el,
  (forall a, g (g a) = g a) ->
  attrsAt (fold_left (fun doc p => updateAt p (setAttrs g) doc) ps d) el =
  if in_dec (list_eq_dec Nat.eq_dec) el ps then option_map g (attrsAt d el) else attrsAt d el.
Proof.
  induction ps as [|p ps IH]; intros d el Hg; [reflexivity|].
  simpl fold_left. rewrite IH by exact Hg.
  assert (E : attrsAt (updateAt p (setAttrs g) d) el =
              if list_eq_dec Nat.eq_dec p el then option_map g (attrsAt d el) else attrsAt d el).
  { destruct (list_eq_dec Nat.eq_dec p el) as [->|D].
    - rewrite attrsAt_updateAt_same by apply attrsOnly_keepsElements, attrsOnly_setAttrs.
      unfold attrsAt. destruct (nodeAt d el); [apply attrs_setAttrs | reflexivity].
    - apply attrsAt_updateAt_other; [apply attrsOnly_setAttrs | congruence]. }
  rewrite E. simpl in_dec.
  destruct (list_eq_dec Nat.eq_dec p el) as [->|D];
    destruct (in_dec (list_eq_dec Nat.eq_dec) el ps); try reflexivity.
  destruct (attrsAt d el); simpl; [now rewrite Hg | reflexivity].
Qed.

Lemma selectBelow_In (select : Node -> list Path) l : forall k i c q,
  nth_error (filter isElement l) i = Some c -> In q (select c) ->
  In ((k + i)%nat :: q) (selectBelow select l k).
Proof.
  induction l as [|n r IH]; intros k i c q; simpl; [destruct i; discriminate|].
  destruct (isElement n) eqn:E.
  - destruct i as [|i']; simpl.
    + intros [= <-] Hq. apply in_or_app. left. rewrite Nat.add_0_r. now apply in_map.
    + intros Hc Hq. apply in_or_app. right.
      replace (k + S i')%nat with (S k + i')%nat by lia. eapply IH; eauto.
  - apply IH.
Qed.

(** Every element whose [contenteditable] attribute is [true] is selected
    by the disable path. *)
Lemma selectAll_contenteditable el : forall n anc a,
  attrsAt n el = Some a -> optEq (contenteditable a) "true" = true ->
  In el (selectAll matches_contenteditable_true anc n).
Proof.
  unfold attrsAt. induction el as [|i el IH]; intros n anc a.
  - simpl. destruct n as [d|d|b cs]; try discriminate. simpl.
    intros [= ->] H. unfold matches_contenteditable_true. rewrite H. now left.
  - destruct n as [d|d|b cs]; [simpl; destruct i; discriminate..|].
    simpl. unfold children. simpl childNodes.
    destruct (nth_error (filter isElement cs) i) as [c|] eqn:E; [|discriminate].
    intros N H. apply in_or_app. right.
    apply (selectBelow_In _ cs 0 i c el E). eapply IH; eauto.
Qed.

(** The disable path on an editable element. *)
Lemma disableEditingOn_editable b el a :
  attrsAt b el = Some a -> contenteditable a = Some "true" ->
  attrsAt (disableEditingOn b) el
  = Some (with_editReady "false" (with_contenteditable "false" a)).
Proof.
  intros A C. unfold disableEditingOn, disableElement.
  rewrite attrsAt_fold_setAttrs by reflexivity.
  destruct (in_dec (list_eq_dec Nat.eq_dec) el _) as [_|N]; [now rewrite A|].
  exfalso. apply N. eapply selectAll_contenteditable; eauto.
  now apply optEq_true.
Qed.

Lemma enableElement_attrsOnly s : attrsOnly (enableElement s).
Proof.
  intros n. destruct n as [d|d|a cs]; try (exists (fun a => a); reflexivity).
  unfold enableElement.
  destruct (hasPreventedClass s a); [exists (fun a => a); reflexivity|].
  destruct (truthyU (editReady a) || _); [exists (fun a => a); reflexivity|].
  destruct (0 <? _)%nat; [exists (fun a => a); reflexivity|].
  destruct (_ || _); [exists (fun a => a); reflexivity|].
  now exists initialised.
Qed.

(** The guard of [enableEditing]: an element whose [editReady] entry is a
    non-empty string is returned as it is. *)
Lemma enableElement_ready s n a :
  attrs n = Some a -> truthyU (editReady a) = true -> enableElement s n = n.
Proof.
  destruct n as [d|d|b cs]; try reflexivity. simpl. intros [= ->] H.
  rewrite H. simpl. now destruct (hasPreventedClass s a).
Qed.

(** The enable path leaves an element alone whose [editReady] entry is a
    non-empty string. *)
Lemma enableEditingOn_ready s b el a :
  attrsAt b el = Some a -> truthyU (editReady a) = true ->
  attrsAt (enableEditingOn s b) el = Some a.
Proof.
  intros A R. unfold enableEditingOn.
  destruct (negb (isEditingEnabled s)); [exact A|].
  generalize (selectAll matches_div1b33_span [] b) as ps. revert A.
  generalize b as d.
  intros d A ps. revert d A. induction ps as [|p ps IH]; intros d A; [exact A|].
  simpl. apply IH.
  destruct (list_eq_dec Nat.eq_dec p el) as [->|D].
  - rewrite attrsAt_updateAt_same by apply attrsOnly_keepsElements, enableElement_attrsOnly.
    unfold attrsAt in A. destruct (nodeAt d el) as [m|]; [|discriminate].
    now rewrite (enableElement_ready s m a A R).
  - rewrite attrsAt_updateAt_other; [exact A | apply enableElement_attrsOnly | congruence].
Qed.

(** C1, where the code fails it.  An element that is editable when the
    [setEditingState] message turns the capability off gets
    [contenteditable="false"] and the marker [editReady = "false"]; the
    marker is a non-empty string, so the enable path takes the element for
    processed: after the message that turns the capability on again, with
    whatever the storage then holds, the element still has
    [contenteditable="false"]. *)
Theorem setEditingState_off_on (st : State) (s : Storage) (el : Path) (a : Attrs) :
  attrsAt (body st) el = Some a ->
  contenteditable a = Some "true" ->
  let off := fst (onMessage st (setEditingState false)) in
  let on := fst (onMessage (with_storage s off) (setEditingState true)) in
  let a' := with_editReady "false" (with_contenteditable "false" a) in
  attrsAt (body off) el = Some a' /\
  attrsAt (body on) el = Some a' /\
  contenteditable a' = Some "false" /\
  truthyU (editReady a') = true.
Proof.
  intros A C off on a'.
  assert (Off : attrsAt (body off) el = Some a').
  { unfold off. simpl. now apply disableEditingOn_editable. }
  repeat split; [exact Off|].
  unfold on. simpl. apply enableEditingOn_ready; [exact Off | reflexivity].
Qed.


(* ================================================================== *)
(** ** Dictionaries *)

Lemma obj_get_set_same {V} (o : JSObject V) k v : obj_get (obj_set o k v) k = Some v.
Proof.
  induction o as [|[k' v'] r IH]; simpl.
  - now rewrite String.eqb_refl.
  - destruct (String.eqb k' k) eqn:E; simpl; [now rewrite String.eqb_refl | now rewrite E].
Qed.

Lemma obj_get_set_other {V} (o : JSObject V) k v k' :
  k' <> k -> obj_get (obj_set o k v) k' = obj_get o k'.
Proof.
  intros D. induction o as [|[k0 v0] r IH]; simpl.
  - destruct (String.eqb k k') eqn:E; [apply String.eqb_eq in E; congruence | reflexivity].
  - destruct (String.eqb k0 k) eqn:E; simpl.
    + apply String.eqb_eq in E. subst k0.
      destruct (String.eqb k k') eqn:E'; [apply String.eqb_eq in E'; congruence | reflexivity].
    + destruct (String.eqb k0 k'); [reflexivity | exact IH].
Qed.

Lemma obj_get_remove {V} (o : JSObject V) k k' :
  obj_get (obj_remove o k) k' = if String.eqb k k' then None else obj_get o k'.
Proof.
  induction o as [|[k0 v0] r IH]; simpl; [now destruct (String.eqb k k')|].
  destruct (String.eqb k0 k) eqn:E; simpl.
  - rewrite IH. apply String.eqb_eq in E. subst k0.
    now destruct (String.eqb k k').
  - rewrite IH. destruct (String.eqb k0 k') eqn:E'; [|reflexivity].
    apply String.eqb_eq in E'. subst k0.
    rewrite String.eqb_sym in E. now rewrite E.
Qed.

(* ================================================================== *)
(** ** Navigation *)

Lemma pending_with_body b st : pending (with_body b st) = pending st.
Proof. reflexivity. Qed.

Lemma pending_applyEdits st : pending (fst (applyEdits st)) = pending st.
Proof. unfold applyEdits. now destruct (applyEditsOn _ _). Qed.

Lemma pending_enableEditing st : pending (enableEditing st) = pending st.
Proof. reflexivity. Qed.

Lemma pending_getEditedElementsForPage st :
  pending (fst (getEditedElementsForPage st)) = pending st /\
  snd (getEditedElementsForPage st) = pending st /\
  currentPageKey (fst (getEditedElementsForPage st)) = currentPageKey st.
Proof.
  unfold getEditedElementsForPage, pending.
  destruct (obj_get (editedElementsMap st) (currentPageKey st)) as [s|] eqn:E; simpl.
  - now rewrite E.
  - now rewrite obj_get_set_same.
Qed.

(** The tracker of the current page once [clear()] has run on it. *)
Lemma pending_cleared st :
  pending (with_editedElementsMap
             (obj_set (editedElementsMap st) (currentPageKey st) []) st) = [].
Proof. unfold pending. simpl. now rewrite obj_get_set_same. Qed.

Lemma pending_preventActionsOnClass st : pending (preventActionsOnClass st) = pending st.
Proof. reflexivity. Qed.

Lemma pending_pathObserver st : pending st = [] -> pending (pathObserver st) = [].
Proof.
  intros H. unfold pathObserver.
  destruct (negb (String.eqb (location st) (lastPath st))); [|exact H].
  destruct (getEditedElementsForPage _) as [st2 s2].
  rewrite pending_preventActionsOnClass, pending_enableEditing, pending_applyEdits.
  apply pending_cleared.
Qed.

Lemma pending_watcherCallback st : pending (watcherCallback st) = pending st.
Proof. unfold watcherCallback. now destruct (applying (watcher st)). Qed.

Lemma pending_applyEditsAsked st : pending (fst (applyEditsAsked st)) = pending st.
Proof.
  unfold applyEditsAsked. destruct (String.eqb _ _); [apply pending_applyEdits | reflexivity].
Qed.

Lemma pending_passResumes st k : pending (passResumes st k) = pending st.
Proof.
  unfold passResumes. destruct (nth_error (suspended (watcher st)) k) as [[| |]|];
    try reflexivity.
  apply pending_applyEditsAsked.
Qed.

(** An event that is no [input] event leaves an empty tracker empty. *)
Lemma pending_step st ev : isInput ev = false -> pending st = [] -> pending (step st ev) = [].
Proof.
  intros I H. destruct ev as [r| |k|k|b loc|s|el|el|el]; cbn [step];
    try exact H; try discriminate.
  - destruct r as [| |enabled]; simpl.
    + destruct (pending_getEditedElementsForPage st) as (P & _ & _).
      destruct (getEditedElementsForPage st) as [st1 s1]. simpl in *. congruence.
    + destruct (getEditedElementsForPage st) as [st1 s1]. simpl. apply pending_cleared.
    + destruct enabled; exact H.
  - apply pending_pathObserver. now rewrite pending_watcherCallback.
  - now rewrite pending_passResumes.
  - unfold onBlur. destruct (hasListeners st el); exact H.
Qed.

Lemma pending_run evs : forall st,
  forallb (fun ev => negb (isInput ev)) evs = true -> pending st = [] ->
  pending (run st evs) = [].
Proof.
  induction evs as [|ev evs IH]; intros st; simpl; [auto|].
  intros H P. apply andb_true_iff in H as [H1 H2].
  apply IH; [exact H2|]. apply pending_step; [now apply negb_true_iff | exact P].
Qed.

Lemma getEditedElements_empty st :
  pending st = [] -> snd (onMessage st getEditedElements) = editedElements [].
Proof.
  intros H. simpl. destruct (pending_getEditedElementsForPage st) as (_ & S & _).
  destruct (getEditedElementsForPage st) as [st1 s1]. simpl in *.
  rewrite S, H. reflexivity.
Qed.

(** C6.  When the observer of [startPathObserver] finds the location changed,
    it makes the new location the current page key and the last known path
    and empties the tracker of that page; from then on, and through every
    sequence of events without an [input] event, the answer to
    [getEditedElements] is the empty mapping. *)
Theorem navigation_clears_pending (st : State) :
  location st <> lastPath st ->
  let st' := pathObserver st in
  currentPageKey st' = location st /\
  lastPath st' = location st /\
  obj_get (editedElementsMap st') (currentPageKey st') = Some [] /\
  forall evs, forallb (fun ev => negb (isInput ev)) evs = true ->
    snd (onMessage (run st' evs) getEditedElements) = editedElements [].
Proof.
  intros D st'.
  assert (E : st' =
    preventActionsOnClass (enableEditing (fst (applyEdits
      (let st1 := mkState (body st) (location st) (storage st) (editingEnabled st)
                          (location st) (editedElementsMap st) (location st)
                          (watcher st) (requestedKey st) in
       let st2 := fst (getEditedElementsForPage st1) in
       with_editedElementsMap (obj_set (editedElementsMap st2) (currentPageKey st2) []) st2))))).
  { unfold st', pathObserver. apply String.eqb_neq in D. rewrite D. simpl negb. cbv iota.
    now destruct (getEditedElementsForPage _). }
  cbv zeta in E.
  set (st1 := mkState (body st) (location st) (storage st) (editingEnabled st)
                      (location st) (editedElementsMap st) (location st)
                      (watcher st) (requestedKey st)) in E.
  destruct (pending_getEditedElementsForPage st1) as (_ & _ & K).
  set (st2 := fst (getEditedElementsForPage st1)) in *.
  set (st3 := with_editedElementsMap (obj_set (editedElementsMap st2) (currentPageKey st2) []) st2) in E.
  assert (F : forall x,
             currentPageKey (preventActionsOnClass (enableEditing (fst (applyEdits x))))
             = currentPageKey x
             /\ lastPath (preventActionsOnClass (enableEditing (fst (applyEdits x))))
                = lastPath x
             /\ editedElementsMap (preventActionsOnClass (enableEditing (fst (applyEdits x))))
                = editedElementsMap x).
  { intros x. unfold applyEdits. now destruct (applyEditsOn _ _). }
  destruct (F st3) as (F1 & F2 & F3). rewrite <- E in F1, F2, F3.
  assert (L2 : lastPath st2 = location st).
  { unfold st2, getEditedElementsForPage. now destruct (obj_get _ _). }
  repeat split.
  - rewrite F1. exact K.
  - rewrite F2. exact L2.
  - rewrite F3, F1. simpl. apply obj_get_set_same.
  - intros evs H. apply getEditedElements_empty. apply pending_run; [exact H|].
    rewrite E, pending_preventActionsOnClass, pending_enableEditing, pending_applyEdits.
    apply pending_cleared.
Qed.


(* ================================================================== *)
(** ** The save path *)

Lemma truthy_trim text : trim text <> "" -> truthy text && truthy (trim text) = true.
Proof.
  intros H. destruct text as [|c r]; [now elim H|].
  simpl truthy at 1. destruct (trim (String c r)); [now elim H | reflexivity].
Qed.

(** A key that the batch does not hold keeps its value. *)
Lemma mergeEdited_other batch : forall allEdits key,
  ~ In key (obj_keys batch) -> obj_get (mergeEdited allEdits batch) key = obj_get allEdits key.
Proof.
  induction batch as [|[k t] rest IH]; intros allEdits key H; [reflexivity|].
  simpl in *. assert (D : key <> k) by intuition.
  assert (R : ~ In key (obj_keys rest)) by intuition.
  destruct (truthy t && truthy (trim t)); rewrite IH by exact R; [|reflexivity].
  now apply obj_get_set_other.
Qed.

(** A key of the batch with text left after trimming gets that text. *)
Lemma mergeEdited_in batch : forall allEdits key text,
  NoDup (obj_keys batch) -> In (key, text) batch -> trim text <> "" ->
  obj_get (mergeEdited allEdits batch) key = Some (trim text).
Proof.
  induction batch as [|[k t] rest IH]; intros allEdits key text N I T; [destruct I|].
  simpl in N. inversion N as [|? ? Hk Hrest]; subst.
  destruct I as [[= -> ->]|I].
  - simpl. rewrite (truthy_trim _ T).
    rewrite mergeEdited_other by exact Hk. apply obj_get_set_same.
  - simpl. destruct (truthy t && truthy (trim t)); now apply IH.
Qed.

(** What the merge holds was there before or is its own trim. *)
Lemma mergeEdited_values batch : forall allEdits key v,
  obj_get (mergeEdited allEdits batch) key = Some v ->
  obj_get allEdits key = Some v \/ trim v = v.
Proof.
  induction batch as [|[k t] rest IH]; intros allEdits key v; [now left|].
  simpl. destruct (truthy t && truthy (trim t)); [|apply IH].
  intros H. apply IH in H as [H|H]; [|now right].
  destruct (String.eqb key k) eqn:E.
  - apply String.eqb_eq in E. subst key. rewrite obj_get_set_same in H.
    injection H as <-. right. apply trim_idem.
  - apply String.eqb_neq in E. rewrite obj_get_set_other in H by exact E. now left.
Qed.

(** C8.  The save path stores, for the page of the tab, the previous edits
    with the batch merged in: a key of the batch whose text is not empty
    after trimming maps to the trimmed text, a key that the batch does not
    hold keeps the value it had, and the edits of every other page stay. *)
Theorem save_overwrites_only_batch
    (pageKey : string) (batch : JSObject string) (s : Storage) :
  NoDup (obj_keys batch) ->
  let previous := popup_getSavedEdits pageKey s in
  let saved := popup_getSavedEdits pageKey (saveBtn_store pageKey batch s) in
  (forall key text, In (key, text) batch -> trim text <> "" ->
     obj_get saved key = Some (trim text)) /\
  (forall key, ~ In key (obj_keys batch) -> obj_get saved key = obj_get previous key) /\
  (forall page, page <> pageKey ->
     obj_get (storedPages (saveBtn_store pageKey batch s)) page = obj_get (storedPages s) page).
Proof.
  intros N previous saved.
  assert (E : saved = mergeEdited previous batch).
  { unfold saved, saveBtn_store, saveEdits, popup_getSavedEdits at 1. simpl.
    now rewrite obj_get_set_same. }
  rewrite E. repeat split.
  - intros key text I T. now apply mergeEdited_in.
  - intros key H. now apply mergeEdited_other.
  - intros page D. unfold saveBtn_store, saveEdits. simpl. now apply obj_get_set_other.
Qed.

(* ================================================================== *)
(** ** Stored texts *)

Lemma AllTrimmed_set s page edits :
  AllTrimmed s ->
  (forall key text, obj_get edits key = Some text -> trim text = text) ->
  AllTrimmed (mkStorage (storedEditingEnabled s) (obj_set (storedPages s) page edits)).
Proof.
  intros A H page' edits' key text. simpl.
  destruct (String.eqb page' page) eqn:E.
  - apply String.eqb_eq in E. subst page'. rewrite obj_get_set_same.
    intros [= <-]. apply H.
  - apply String.eqb_neq in E. rewrite obj_get_set_other by exact E. apply A.
Qed.

Lemma AllTrimmed_page s page key text :
  AllTrimmed s ->
  obj_get (match obj_get (storedPages s) page with Some e => e | None => [] end) key = Some text ->
  trim text = text.
Proof.
  intros A. destruct (obj_get (storedPages s) page) as [e|] eqn:E; [|discriminate].
  eapply A; eauto.
Qed.

Lemma AllTrimmed_saveEdit st el : AllTrimmed (storage st) -> AllTrimmed (storage (saveEdit st el)).
Proof.
  intros A. unfold saveEdit. destruct (nodeAt (body st) el) as [node|]; [|exact A].
  simpl. apply AllTrimmed_set; [exact A|]. intros key text.
  destruct (String.eqb key (getKey (body st) el)) eqn:E.
  - apply String.eqb_eq in E. subst key. rewrite obj_get_set_same.
    intros [= <-]. apply trim_idem.
  - apply String.eqb_neq in E. rewrite obj_get_set_other by exact E.
    unfold getSavedEdits. eapply AllTrimmed_page; eauto.
Qed.

Lemma AllTrimmed_saveBtn_store pageKey batch s :
  AllTrimmed s -> AllTrimmed (saveBtn_store pageKey batch s).
Proof.
  intros A. unfold saveBtn_store, saveEdits. apply AllTrimmed_set; [exact A|].
  intros key text H. apply mergeEdited_values in H as [H|H]; [|exact H].
  unfold popup_getSavedEdits in H. eapply AllTrimmed_page; eauto.
Qed.

Lemma storage_applyEdits st : storage (fst (applyEdits st)) = storage st.
Proof. unfold applyEdits. now destruct (applyEditsOn _ _). Qed.

Lemma storage_getEditedElementsForPage st :
  storage (fst (getEditedElementsForPage st)) = storage st.
Proof. unfold getEditedElementsForPage. now destruct (obj_get _ _). Qed.

Lemma storage_pathObserver st : storage (pathObserver st) = storage st.
Proof.
  unfold pathObserver. destruct (negb _); [|reflexivity].
  match goal with |- context [getEditedElementsForPage ?x] =>
    pose proof (storage_getEditedElementsForPage x) as G;
    destruct (getEditedElementsForPage x) as [st2 s2] end.
  simpl in G. unfold enableEditing. simpl. now rewrite storage_applyEdits.
Qed.

Lemma storage_watcherCallback st : storage (watcherCallback st) = storage st.
Proof. unfold watcherCallback. now destruct (applying (watcher st)). Qed.

Lemma storage_applyEditsAsked st : storage (fst (applyEditsAsked st)) = storage st.
Proof.
  unfold applyEditsAsked. destruct (String.eqb _ _); [apply storage_applyEdits | reflexivity].
Qed.

Lemma storage_passResumes st k : storage (passResumes st k) = storage st.
Proof.
  unfold passResumes. destruct (nth_error (suspended (watcher st)) k) as [[| |]|];
    try reflexivity.
  apply storage_applyEditsAsked.
Qed.

Lemma storage_onMessage st r : storage (fst (onMessage st r)) = storage st.
Proof.
  destruct r as [| |enabled]; simpl.
  - pose proof (storage_getEditedElementsForPage st) as G.
    now destruct (getEditedElementsForPage st).
  - pose proof (storage_getEditedElementsForPage st) as G.
    now destruct (getEditedElementsForPage st).
  - now destruct enabled.
Qed.

Lemma AllTrimmed_onInput st el : AllTrimmed (storage st) -> AllTrimmed (storage (onInput st el)).
Proof.
  intros A. unfold onInput. destruct (hasListeners st el); [|exact A].
  match goal with |- context [getEditedElementsForPage ?x] =>
    pose proof (storage_getEditedElementsForPage x) as G;
    destruct (getEditedElementsForPage x) as [st2 s2] end.
  simpl in G. apply AllTrimmed_saveEdit. simpl. now rewrite G.
Qed.

(** The click on [saveBtn] stores the merge of what the content script
    reports for the tracked keys. *)
Lemma saveBtn_click_storage pageKey st :
  storage (saveBtn_click pageKey st)
  = saveBtn_store pageKey (collectEdited (body st) (pending st) []) (storage st).
Proof.
  unfold saveBtn_click. cbn [onMessage].
  destruct (pending_getEditedElementsForPage st) as (_ & S & _).
  pose proof (storage_getEditedElementsForPage st) as G.
  assert (B : body (fst (getEditedElementsForPage st)) = body st).
  { unfold getEditedElementsForPage. now destruct (obj_get _ _). }
  destruct (getEditedElementsForPage st) as [st1 s1]. cbn [fst snd] in *.
  match goal with |- context [getEditedElementsForPage ?x] =>
    pose proof (storage_getEditedElementsForPage x) as G2;
    destruct (getEditedElementsForPage x) as [st2 s2] end.
  cbn [fst snd] in *. simpl in G2. simpl. now rewrite G2, G, S, B.
Qed.

Lemma AllTrimmed_act st a :
  ownWrite a = true -> AllTrimmed (storage st) -> AllTrimmed (storage (act st a)).
Proof.
  intros O A. destruct a as [ev|pageKey| |pageKey]; simpl.
  - destruct ev as [r| |k|k|b loc|s|el|el|el]; cbn [step]; try exact A; try discriminate.
    + now rewrite storage_onMessage.
    + now rewrite storage_pathObserver, storage_watcherCallback.
    + now rewrite storage_passResumes.
    + unfold onBlur. now destruct (hasListeners st el).
    + now apply AllTrimmed_onInput.
  - unfold saveBtn_click.
    pose proof (storage_onMessage st getEditedElements) as G.
    destruct (onMessage st getEditedElements) as [st1 [data|]]; simpl in G.
    + rewrite storage_onMessage. simpl. apply AllTrimmed_saveBtn_store. now rewrite G.
    + now rewrite G.
  - unfold toggleBtn_click. rewrite storage_onMessage. simpl.
    intros page edits key text. simpl. apply A.
  - unfold clearBtn_click. rewrite storage_onMessage. simpl.
    intros page edits key text. simpl. rewrite obj_get_remove.
    destruct (String.eqb pageKey page); [discriminate | apply A].
Qed.

(** C10.  [saveEdit] stores under the key of the element its trimmed text,
    which is its own trim; what the save path stores for a key is the value
    the key had or its own trim; so, from a storage without edits, through
    clicks in the popup and events in the page, every text in the storage
    is its own trim. *)
Theorem stored_texts_trimmed :
  (forall st el node, nodeAt (body st) el = Some node ->
     obj_get (getSavedEdits (saveEdit st el)) (getKey (body st) el)
     = Some (trim (textContent node)) /\
     trim (trim (textContent node)) = trim (textContent node)) /\
  (forall pageKey batch s key v,
     obj_get (popup_getSavedEdits pageKey (saveBtn_store pageKey batch s)) key = Some v ->
     obj_get (popup_getSavedEdits pageKey s) key = Some v \/ trim v = v) /\
  (forall st actions,
     storedPages (storage st) = [] -> forallb ownWrite actions = true ->
     AllTrimmed (storage (perform st actions))).
Proof.
  split; [|split].
  - intros st el node N. split; [|apply trim_idem].
    unfold saveEdit, getSavedEdits. rewrite N. simpl.
    now rewrite !obj_get_set_same.
  - intros pageKey batch s key v H. apply mergeEdited_values with (batch := batch).
    unfold saveBtn_store, saveEdits, popup_getSavedEdits at 1 in H. simpl in H.
    now rewrite obj_get_set_same in H.
  - intros st actions E. revert st E.
    assert (G : forall actions st, AllTrimmed (storage st) -> forallb ownWrite actions = true ->
                AllTrimmed (storage (perform st actions))).
    { induction actions0 as [|a rest IH]; intros st A O; [exact A|].
      simpl in O. apply andb_true_iff in O as [O1 O2].
      simpl. apply IH; [|exact O2]. now apply AllTrimmed_act. }
    intros st E O. apply G; [|exact O].
    intros page edits key text. rewrite E. discriminate.
Qed.

(* ================================================================== *)
(** ** Clearing *)

Lemma with_body_same st : with_body (body st) st = st.
Proof. now destruct st. Qed.

(** After a click on [clearBtn] for the current page, nothing is stored for
    the page and nothing is tracked: reconciliation writes nothing and
    leaves the document as it is, whatever the texts of the elements, and
    [getEditedElements] answers with the empty mapping. *)
Theorem clear_is_exact (st : State) :
  let st' := clearBtn_click (currentPageKey st) st in
  getSavedEdits st' = [] /\
  applyEdits st' = (st', []) /\
  snd (onMessage st' getEditedElements) = editedElements [].
Proof.
  intros st'.
  assert (K : currentPageKey st' = currentPageKey st).
  { unfold st', clearBtn_click. cbn [onMessage].
    match goal with |- context [getEditedElementsForPage ?x] =>
      destruct (pending_getEditedElementsForPage x) as (_ & _ & C);
      destruct (getEditedElementsForPage x) as [st2 s2] end.
    cbn [fst] in *. exact C. }
  assert (S : getSavedEdits st' = []).
  { unfold getSavedEdits. rewrite K. unfold st', clearBtn_click.
    rewrite storage_onMessage. simpl. rewrite obj_get_remove, String.eqb_refl. reflexivity. }
  split; [exact S|]. split.
  - unfold applyEdits. rewrite S. simpl. now rewrite with_body_same.
  - apply getEditedElements_empty. unfold st', clearBtn_click. cbn [onMessage].
    match goal with |- context [getEditedElementsForPage ?x] =>
      destruct (getEditedElementsForPage x) as [st2 s2] end.
    cbn [fst]. apply pending_cleared.
Qed.

(* ================================================================== *)
(** ** The reentrancy guard *)

(** Closes the cases of [guarded_step]. *)
Ltac guard_cases :=
  simpl in *; repeat split; intros;
  first [ lia | discriminate | assumption | congruence
        | left; discriminate | right; lia
        | match goal with H : _ <> _ |- _ => now elim H end
        | match goal with H : _ -> true = true \/ _ |- _ => idtac end; tauto
        | tauto ].

Lemma guarded_step w ev : guarded w -> guarded (watcherStep w ev).
Proof.
  unfold guarded. intros (L & A & B & S). destruct w as [ap sus st co fa ig]. simpl in *.
  destruct sus as [|x [|y r]]; simpl in *; try lia.
  - assert (Ap : ap = true -> (0 < fa)%nat).
    { intros H. destruct (B H) as [N|F]; [now elim N | exact F]. }
    destruct ev as [|k|k]; simpl.
    + destruct ap; guard_cases.
    + destruct k; guard_cases.
    + destruct k; guard_cases.
  - assert (ap = true) as -> by (apply A; discriminate).
    destruct ev as [|k|k]; simpl.
    + guard_cases.
    + destruct k as [|[|k]]; [destruct x | |]; guard_cases.
    + destruct k as [|[|k]]; guard_cases.
Qed.

Lemma guarded_run evs : forall w, guarded w -> guarded (watcherRun w evs).
Proof.
  induction evs as [|ev evs IH]; intros w G; [exact G|].
  simpl. apply IH. now apply guarded_step.
Qed.




(* ================================================================== *)
(** ** The editability manager *)

Lemma fold_left_ext {A B} (f g : A -> B -> A) l : forall x,
  (forall y z, f y z = g y z) -> fold_left f l x = fold_left g l x.
Proof.
  induction l as [|z l IH]; intros x H; [reflexivity|].
  simpl. rewrite H. now apply IH.
Qed.

(** A transformation that keeps the arrangement of the elements keeps
    positions. *)
Lemma nodeAt_transform (T : Node -> Node) :
  (forall n, children (T n) = map T (children n)) ->
  forall p n, nodeAt (T n) p = option_map T (nodeAt n p).
Proof.
  intros HT. induction p as [|i p IH]; intros n; [reflexivity|].
  simpl. rewrite HT, nth_error_map.
  destruct (nth_error (children n) i); simpl; [apply IH | reflexivity].
Qed.

Lemma isElement_bare c : isElement (bare c) = isElement c.
Proof. destruct c; reflexivity. Qed.

Lemma children_bare n : children (bare n) = map bare (children n).
Proof.
  destruct n as [d|d|a cs]; try reflexivity.
  unfold children. simpl. apply filter_map_elements, isElement_bare.
Qed.

Lemma nodeAt_bare p n : nodeAt (bare n) p = option_map bare (nodeAt n p).
Proof. apply nodeAt_transform, children_bare. Qed.

Lemma textContent_bare n : textContent (bare n) = textContent n.
Proof.
  induction n as [d|d|a cs IH] using Node_ind; try reflexivity.
  simpl. induction IH as [|c r Hc Hr IHr]; [reflexivity|].
  simpl. now rewrite Hc, IHr.
Qed.

Lemma length_children_bare n :
  List.length (children (bare n)) = List.length (children n).
Proof. rewrite children_bare. apply length_map. Qed.

(** Nodes that are the same but for the marks have the same text and as
    many element children. *)
Lemma bare_text_children n m :
  bare n = bare m ->
  textContent n = textContent m /\
  List.length (children n) = List.length (children m).
Proof.
  intros H. split.
  - rewrite <- (textContent_bare n), <- (textContent_bare m). now rewrite H.
  - rewrite <- (length_children_bare n), <- (length_children_bare m). now rewrite H.
Qed.

Lemma nodeAt_same_bare d1 d2 p n1 :
  bare d1 = bare d2 -> nodeAt d1 p = Some n1 ->
  exists n2, nodeAt d2 p = Some n2 /\ bare n1 = bare n2.
Proof.
  intros H N. pose proof (nodeAt_bare p d1) as E1. pose proof (nodeAt_bare p d2) as E2.
  rewrite H, E2, N in E1. destruct (nodeAt d2 p) as [n2|]; [|discriminate].
  exists n2. split; [reflexivity|]. simpl in E1. congruence.
Qed.

Lemma bare_updateNth g i l :
  (forall c, bare (g c) = bare c) ->
  map bare (updateNthElement g i l) = map bare l.
Proof.
  intros Hg. revert i. induction l as [|n r IH]; intros i; [reflexivity|].
  destruct n as [d|d|a cs]; simpl; try (f_equal; apply IH).
  destruct i as [|i']; simpl; [|f_equal; apply IH].
  f_equal. apply (Hg (Element a cs)).
Qed.

Lemma bare_updateAt p g n :
  (forall c, bare (g c) = bare c) -> bare (updateAt p g n) = bare n.
Proof.
  intros Hg. revert n. induction p as [|i p IH]; intros n; simpl; [apply Hg|].
  destruct n as [d|d|a cs]; try reflexivity.
  simpl. f_equal. apply bare_updateNth. exact IH.
Qed.

Lemma bare_fold g ps : forall d,
  (forall c, bare (g c) = bare c) ->
  bare (fold_left (fun doc p => updateAt p g doc) ps d) = bare d.
Proof.
  induction ps as [|p ps IH]; intros d Hg; [reflexivity|].
  simpl. rewrite IH by exact Hg. now apply bare_updateAt.
Qed.

Lemma bare_setAttrs g n :
  (forall a, unmarked (g a) = unmarked a) -> bare (setAttrs g n) = bare n.
Proof. intros H. destruct n; simpl; try reflexivity. now rewrite H. Qed.

(* ------------------------------------------------------------------ *)
(** *** What a selector selects *)

Lemma selectBelow_In_iff (select : Node -> list Path) l : forall k q,
  In q (selectBelow select l k) <->
  exists i c q', q = (k + i)%nat :: q' /\
                 nth_error (filter isElement l) i = Some c /\ In q' (select c).
Proof.
  induction l as [|n r IH]; intros k q; simpl.
  - split; [intros [] | intros (i & c & q' & _ & H & _); destruct i; discriminate].
  - destruct (isElement n) eqn:E.
    + rewrite in_app_iff, in_map_iff, IH. split.
      * intros [(q' & <- & H) | (i & c & q' & -> & H1 & H2)].
        -- exists 0%nat, n, q'. rewrite Nat.add_0_r. auto.
        -- exists (S i), c, q'. rewrite Nat.add_succ_r. auto.
      * intros (i & c & q' & -> & H1 & H2). destruct i as [|i]; simpl in H1.
        -- injection H1 as <-. left. exists q'. rewrite Nat.add_0_r. auto.
        -- right. exists i, c, q'. rewrite Nat.add_succ_r. auto.
    + apply IH.
Qed.

(** [querySelectorAll] selects a position exactly when it holds an element
    that the selector matches among its ancestors. *)
Lemma selectAll_In_iff matches p : forall n above,
  In p (selectAll matches above n) <->
  exists a, attrsAt n p = Some a /\ matches (ancestorsAt n p above) a = true.
Proof.
  unfold attrsAt. induction p as [|i p IH]; intros n above.
  - destruct n as [d|d|a cs]; simpl.
    + split; [intros [] | intros (a & H & _); discriminate].
    + split; [intros [] | intros (a & H & _); discriminate].
    + rewrite in_app_iff, selectBelow_In_iff. split.
      * intros [H | (i & c & q' & H & _)]; [|discriminate].
        destruct (matches above a) eqn:M; [|destruct H]. now exists a.
      * intros (a' & [= <-] & M). left. rewrite M. now left.
  - destruct n as [d|d|a cs].
    + simpl. split; [intros [] | intros (a & H & _); destruct i; discriminate].
    + simpl. split; [intros [] | intros (a & H & _); destruct i; discriminate].
    + cbn [selectAll nodeAt ancestorsAt]. unfold children at 1 2. simpl childNodes.
      rewrite in_app_iff, selectBelow_In_iff. split.
      * intros [H | (i0 & c & q' & [= <- <-] & H1 & H2)].
        { destruct (matches above a); [destruct H as [H|[]]; discriminate | destruct H]. }
        simpl in *. rewrite H1. now apply IH.
      * destruct (nth_error (filter isElement cs) i) as [c|] eqn:E;
          [|intros (a' & H & _); discriminate].
        intros H. right. exists i, c, p. repeat split; [exact E|]. now apply IH.
Qed.

(* ------------------------------------------------------------------ *)
(** *** The enable path *)

Lemma unmarked_initialised a : unmarked (initialised a) = unmarked a.
Proof. reflexivity. Qed.

Lemma unmarked_enableAttrs a t k : unmarked (enableAttrs a t k) = unmarked a.
Proof. unfold enableAttrs. now destruct (eligible a t k). Qed.

Lemma eligible_initialised a t k : eligible (initialised a) t k = false.
Proof. reflexivity. Qed.

Lemma enableAttrs_idem a t k : enableAttrs (enableAttrs a t k) t k = enableAttrs a t k.
Proof.
  unfold enableAttrs. destruct (eligible a t k) eqn:E; [|now rewrite E].
  now rewrite eligible_initialised.
Qed.

Lemma startsWith_editable id :
  String.eqb id "editableSaveBtn" || startsWith "editable" id = startsWith "editable" id.
Proof.
  destruct (String.eqb id "editableSaveBtn") eqn:E; [|reflexivity].
  apply String.eqb_eq in E. now subst id.
Qed.

(** The callback of [enableEditing], once [enableEditing] has found editing
    enabled: the prevented classes are not looked at. *)
Lemma enableElement_eq s n :
  isEditingEnabled s = true ->
  enableElement s n
  = setAttrs (fun a => enableAttrs a (textContent n) (List.length (children n))) n.
Proof.
  intros En. destruct n as [d|d|a cs]; try reflexivity.
  unfold enableElement, hasPreventedClass. rewrite En.
  unfold setAttrs, enableAttrs, eligible. rewrite startsWith_editable.
  destruct (truthyU (editReady a)),
           (truthy (trim (textContent (Element a cs)))),
           (List.length (children (Element a cs))),
           (startsWith "editable" (elId a)); reflexivity.
Qed.

Lemma bare_enableElement s n : bare (enableElement s n) = bare n.
Proof.
  destruct n as [d|d|a cs]; try reflexivity. unfold enableElement.
  destruct (hasPreventedClass s a); [reflexivity|].
  destruct (_ || _); [reflexivity|].
  destruct (0 <? _)%nat; [reflexivity|].
  destruct (_ || _); reflexivity.
Qed.

Section EnableLoop.

Variable s : Storage.
Hypothesis enabled : isEditingEnabled s = true.
Variable b : Node.

Lemma enabledAt_step done d p :
  enabledAt b done d -> enabledAt b (p :: done) (updateAt p (enableElement s) d).
Proof.
  intros [B A]. split.
  - rewrite bare_updateAt; [exact B | apply bare_enableElement].
  - intros q n a N At.
    destruct (A q n a N At) as [A1 A2].
    destruct (list_eq_dec Nat.eq_dec q p) as [->|D].
    + assert (G : attrsAt (updateAt p (enableElement s) d) p
                  = Some (enableAttrs a (textContent n) (List.length (children n)))).
      { rewrite attrsAt_updateAt_same
          by apply attrsOnly_keepsElements, enableElement_attrsOnly.
        destruct (nodeAt_same_bare b d p n (eq_sym B) N) as (m & M & Bm).
        rewrite M, (enableElement_eq s m enabled), attrs_setAttrs.
        destruct (bare_text_children n m Bm) as [<- <-].
        assert (Am : attrsAt d p = attrs m) by (unfold attrsAt; now rewrite M).
        destruct (in_dec (list_eq_dec Nat.eq_dec) p done) as [I|I].
        - rewrite (A1 I) in Am. rewrite <- Am. simpl. now rewrite enableAttrs_idem.
        - rewrite (A2 I) in Am. rewrite <- Am. reflexivity. }
      split; [intros _; exact G | intros H; elim H; now left].
    + rewrite attrsAt_updateAt_other; [|apply enableElement_attrsOnly | exact D].
      split.
      * intros [H|H]; [congruence | now apply A1].
      * intros H. apply A2. intros I. apply H. now right.
Qed.

Lemma enabledAt_fold ps : forall done d,
  enabledAt b done d ->
  enabledAt b (rev ps ++ done)
            (fold_left (fun doc el => updateAt el (enableElement s) doc) ps d).
Proof.
  induction ps as [|p ps IH]; intros done d H; [exact H|].
  simpl. rewrite <- app_assoc. simpl. apply IH. now apply enabledAt_step.
Qed.

Lemma enabledAt_result :
  enabledAt b (selectAll matches_div1b33_span [] b) (enableEditingOn s b).
Proof.
  unfold enableEditingOn. rewrite enabled. simpl negb. cbv iota.
  assert (H0 : enabledAt b [] b).
  { split; [reflexivity|]. intros q n a N At. split; [intros [] | intros _].
    unfold attrsAt. now rewrite N. }
  pose proof (enabledAt_fold (selectAll matches_div1b33_span [] b) [] b H0) as [B A].
  rewrite app_nil_r in A. split; [exact B|].
  intros q n a N At. destruct (A q n a N At) as [A1 A2]. split.
  - intros I. apply A1. now apply in_rev in I.
  - intros I. apply A2. intros J. apply I. now apply in_rev.
Qed.

End EnableLoop.


Lemma attrs_bare n : attrs (bare n) = option_map unmarked (attrs n).
Proof. destruct n; reflexivity. Qed.

Lemma attrsAt_bare n p : attrsAt (bare n) p = option_map unmarked (attrsAt n p).
Proof.
  unfold attrsAt. rewrite nodeAt_bare.
  destruct (nodeAt n p) as [m|]; [apply attrs_bare | reflexivity].
Qed.

Lemma ancestorsAt_bare p : forall n above,
  ancestorsAt (bare n) p (map unmarked above) = map unmarked (ancestorsAt n p above).
Proof.
  induction p as [|i p IH]; intros n above; [reflexivity|].
  destruct n as [d|d|a cs]; try reflexivity.
  pose proof (children_bare (Element a cs)) as C. cbn [bare] in C.
  cbn [ancestorsAt bare]. rewrite C, nth_error_map.
  destruct (nth_error (children (Element a cs)) i) as [c|]; [|reflexivity].
  simpl. apply (IH c (a :: above)).
Qed.

(** The selector ["div._1b33 span"] looks at tag names and classes only. *)
Lemma matches_div1b33_span_unmarked above a :
  matches_div1b33_span (map unmarked above) (unmarked a) = matches_div1b33_span above a.
Proof.
  unfold matches_div1b33_span. f_equal.
  induction above as [|d r IH]; [reflexivity|]. simpl. now rewrite IH.
Qed.

Lemma selected_bare n p :
  In p (selectAll matches_div1b33_span [] n) <->
  In p (selectAll matches_div1b33_span [] (bare n)).
Proof.
  rewrite !selectAll_In_iff. rewrite attrsAt_bare.
  change (@nil Attrs) with (map unmarked []) at 2. rewrite ancestorsAt_bare.
  split.
  - intros (a & A & M). exists (unmarked a). rewrite A. split; [reflexivity|].
    now rewrite matches_div1b33_span_unmarked.
  - intros (u & A & M). destruct (attrsAt n p) as [a|]; [|discriminate].
    injection A as <-. exists a. split; [reflexivity|].
    now rewrite matches_div1b33_span_unmarked in M.
Qed.

Lemma fold_left_fixed {A B} (f : A -> B -> A) l x :
  (forall z, In z l -> f x z = x) -> fold_left f l x = x.
Proof.
  induction l as [|z l IH]; intros H; [reflexivity|].
  simpl. rewrite (H z) by now left. apply IH. intros y I. apply H. now right.
Qed.

(** The attributes after [enableEditing] with editing enabled. *)
Lemma attrsAt_enableEditingOn s b p n a :
  isEditingEnabled s = true ->
  nodeAt b p = Some n -> attrs n = Some a ->
  attrsAt (enableEditingOn s b) p
  = Some (if matches_div1b33_span (ancestorsAt b p []) a
             && eligible a (textContent n) (List.length (children n))
          then initialised a else a).
Proof.
  intros En N At. destruct (enabledAt_result s En b) as [_ A].
  destruct (A p n a N At) as [A1 A2].
  destruct (matches_div1b33_span (ancestorsAt b p []) a) eqn:M; simpl.
  - apply A1. apply selectAll_In_iff. exists a. split; [|exact M].
    unfold attrsAt. now rewrite N.
  - apply A2. intros I. apply selectAll_In_iff in I as (a' & A' & M').
    unfold attrsAt in A'. rewrite N, At in A'. injection A' as <-. congruence.
Qed.

(** X3 -- What [enableEditing] does to each element when editing is enabled:
    an element of the document matched by ["div._1b33 span"] that has no
    truthy [editReady] entry, has text that is not white space only, has no
    element child and no ID starting with [editable] gets
    [editReady = "true"], [contenteditable = "true"], the style properties
    [caretColor = "#000"], [userSelect = "text"] and [cursor = "text"], and
    one more set of listeners; every other element keeps its attributes. *)
Theorem enableEditing_exact s b p n a :
  isEditingEnabled s = true ->
  nodeAt b p = Some n -> attrs n = Some a ->
  attrsAt (enableEditingOn s b) p
  = Some (if matches_div1b33_span (ancestorsAt b p []) a
             && eligible a (textContent n) (List.length (children n))
          then initialised a else a).
Proof. apply attrsAt_enableEditingOn. Qed.

Lemma bare_enableEditingOn s b : bare (enableEditingOn s b) = bare b.
Proof.
  unfold enableEditingOn. destruct (negb (isEditingEnabled s)); [reflexivity|].
  apply bare_fold, bare_enableElement.
Qed.

Lemma bare_disableEditingOn b : bare (disableEditingOn b) = bare b.
Proof.
  unfold disableEditingOn. apply bare_fold. intros c. apply bare_setAttrs.
  intros a. reflexivity.
Qed.

(** X4 -- [enableEditing] changes marks only: but for the [contenteditable]
    attribute, the [editReady] entry, the style properties [caretColor],
    [userSelect] and [cursor], and the listeners, the document after it is
    the document before it (same nodes, same texts, same tags, IDs, names,
    classes and [isEditing] entries, and the same listeners of
    [preventActionsOnClass]), whatever the stored flag; in particular the
    text of the document is the same. *)
Theorem enableEditing_marks_only s b :
  bare (enableEditingOn s b) = bare b /\
  textContent (enableEditingOn s b) = textContent b.
Proof.
  split; [apply bare_enableEditingOn|]. apply bare_text_children, bare_enableEditingOn.
Qed.

(** X5 -- [enableEditing] is idempotent: run on its own result it changes
    nothing, so that the passes of the observers never add a second set of
    listeners to an element. *)
Theorem enableEditing_idempotent s b :
  enableEditingOn s (enableEditingOn s b) = enableEditingOn s b.
Proof.
  destruct (isEditingEnabled s) eqn:En.
  2:{ unfold enableEditingOn. now rewrite En. }
  destruct (enabledAt_result s En b) as [B A].
  unfold enableEditingOn at 1. rewrite En. simpl negb. cbv iota.
  apply fold_left_fixed. intros p I.
  rewrite (updateAt_ext p _ (fun c => c)); [apply updateAt_id|].
  intros m Nm. rewrite (enableElement_eq s m En).
  destruct (nodeAt_same_bare _ _ p m B Nm) as (n & Nb & Bm).
  destruct m as [t|t|a' cs]; try reflexivity.
  destruct n as [t|t|a cs0]; try discriminate.
  destruct (bare_text_children _ _ Bm) as [-> ->].
  destruct (A p _ a Nb eq_refl) as [A1 A2].
  assert (Ad : attrsAt (enableEditingOn s b) p = Some a')
    by (unfold attrsAt; now rewrite Nm).
  assert (Ib : In p (selectAll matches_div1b33_span [] b)).
  { apply (proj2 (selected_bare b p)). rewrite <- B.
    apply (proj1 (selected_bare _ p)). exact I. }
  rewrite (A1 Ib) in Ad. injection Ad as <-.
  unfold setAttrs. now rewrite enableAttrs_idem.
Qed.

(* ------------------------------------------------------------------ *)
(** *** The disable path *)

Lemma unmarked_revoked a : unmarked (revoked a) = unmarked a.
Proof. reflexivity. Qed.

(** The attributes after the disable path. *)
Lemma attrsAt_disableEditingOn b p :
  attrsAt (disableEditingOn b) p = option_map disableAttrs (attrsAt b p).
Proof.
  unfold disableEditingOn, disableElement.
  rewrite attrsAt_fold_setAttrs by reflexivity.
  destruct (in_dec (list_eq_dec Nat.eq_dec) p _) as [I|I].
  - apply selectAll_In_iff in I as (a & A & M). rewrite A. simpl.
    unfold disableAttrs. unfold matches_contenteditable_true in M. now rewrite M.
  - destruct (attrsAt b p) as [a|] eqn:A; [|reflexivity]. simpl.
    unfold disableAttrs. destruct (optEq (contenteditable a) "true") eqn:M; [|reflexivity].
    elim I. apply selectAll_In_iff. exists a. now split.
Qed.

Lemma editableAt_disableEditingOn b p : editableAt (disableEditingOn b) p = false.
Proof.
  unfold editableAt. rewrite attrsAt_disableEditingOn.
  destruct (attrsAt b p) as [a|]; [|reflexivity]. simpl. unfold disableAttrs.
  now destruct (optEq (contenteditable a) "true") eqn:M.
Qed.

(** X6 -- What the disable path of [setEditingState] does: every element
    with [contenteditable = "true"] gets [contenteditable = "false"] and
    [editReady = "false"] and keeps its listeners, every other element keeps
    its attributes, nothing else in the document changes, and no element is
    left with [contenteditable = "true"]. *)
Theorem disableEditing_exact b :
  bare (disableEditingOn b) = bare b /\
  (forall p, attrsAt (disableEditingOn b) p = option_map disableAttrs (attrsAt b p)) /\
  (forall p, editableAt (disableEditingOn b) p = false) /\
  (forall p a, attrsAt (disableEditingOn b) p = Some a ->
               exists a0, attrsAt b p = Some a0 /\ listeners a = listeners a0).
Proof.
  split; [|split; [apply attrsAt_disableEditingOn|split; [apply editableAt_disableEditingOn|]]].
  - apply bare_disableEditingOn.
  - intros p a H. rewrite attrsAt_disableEditingOn in H.
    destruct (attrsAt b p) as [a0|]; [|discriminate].
    injection H as <-. exists a0. split; [reflexivity|]. unfold disableAttrs.
    now destruct (optEq (contenteditable a0) "true").
Qed.


(* ================================================================== *)
(** ** Keys tell elements apart *)

Lemma append_colon_inj a : forall b d1 d2,
  occurs ":" d1 = false -> occurs ":" d2 = false ->
  (a ++ ":" ++ d1 = b ++ ":" ++ d2)%string -> d1 = d2.
Proof.
  induction a as [|c a IH]; intros b d1 d2 O1 O2 E.
  - destruct b as [|c b]; simpl in E; [congruence|].
    injection E as <- ->. rewrite occurs_app in O1. simpl in O1.
    now rewrite orb_true_r in O1.
  - destruct b as [|c' b]; simpl in E.
    + injection E as -> <-. rewrite occurs_app in O2. simpl in O2.
      now rewrite orb_true_r in O2.
    + injection E as _ E. now apply (IH b).
Qed.

Lemma decimal_inj i j : decimal i = decimal j -> i = j.
Proof.
  intros E. apply Nat2Z.inj.
  rewrite <- (parseDigits_decimal i), <- (parseDigits_decimal j). now rewrite E.
Qed.

Lemma decimal_no_colon i : occurs ":" (decimal i) = false.
Proof. apply allDigits_occurs; [reflexivity | apply decimal_allDigits]. Qed.

(** The segments of a key tell the position: the index is the field after
    the last colon of its segment. *)
Lemma segments_inj el1 : forall n el2 m1 m2,
  nodeAt n el1 = Some m1 -> nodeAt n el2 = Some m2 ->
  segments n el1 = segments n el2 -> el1 = el2.
Proof.
  induction el1 as [|i el1 IH]; intros n el2 m1 m2 N1 N2 E.
  - destruct el2 as [|j el2]; [reflexivity|].
    exfalso. apply (segments_nonempty n j el2 m2 N2). now rewrite <- E.
  - destruct el2 as [|j el2].
    { exfalso. apply (segments_nonempty n i el1 m1 N1). now rewrite E. }
    simpl in N1, N2. cbn [segments] in E.
    destruct (nth_error (children n) i) as [c1|] eqn:C1; [|discriminate].
    destruct (nth_error (children n) j) as [c2|] eqn:C2; [|discriminate].
    injection E as E1 E2.
    apply append_colon_inj in E1; try apply decimal_no_colon.
    apply decimal_inj in E1. subst j. rewrite C1 in C2. injection C2 as <-.
    f_equal. now apply (IH c1 el2 m1 m2).
Qed.

Lemma join_first_nonempty sep s r : s <> "" -> join sep (s :: r) <> "".
Proof.
  intros H. destruct r as [|t r]; [exact H|].
  cbn [join]. destruct s; [congruence | discriminate].
Qed.

Lemma segments_head_nonempty n i el m :
  nodeAt n (i :: el) = Some m -> exists s r, segments n (i :: el) = s :: r /\ s <> "".
Proof.
  simpl. destruct (nth_error (children n) i) as [c|]; [|discriminate].
  intros _. eexists _, _. split; [reflexivity|].
  destruct (match attrs c with Some a => tagName a | None => "" end); discriminate.
Qed.

(** X7 -- [getKey] tells the elements of a document apart: two elements
    on whose ways from [document.body] no tag name holds [>] have the same
    key only when they are the same element; the key of [document.body]
    itself is the empty string and no other element has it. *)
Theorem getKey_injective body el1 el2 m1 m2 :
  nodeAt body el1 = Some m1 -> nodeAt body el2 = Some m2 ->
  Forall (fun t => occurs ">" t = false) (tagsAlong body el1) ->
  Forall (fun t => occurs ">" t = false) (tagsAlong body el2) ->
  (getKey body el1 = getKey body el2 -> el1 = el2) /\
  (getKey body el1 = "" <-> el1 = []).
Proof.
  intros N1 N2 T1 T2.
  rewrite (getKey_segments body el1 m1 N1), (getKey_segments body el2 m2 N2).
  assert (Z : forall el m, nodeAt body el = Some m ->
                           (join ">" (segments body el) = "" <-> el = [])).
  { intros el m N. destruct el as [|i el]; [now split|].
    destruct (segments_head_nonempty body i el m N) as (s & r & -> & Hs).
    split; [|discriminate]. intros E. now apply join_first_nonempty in E. }
  split; [|now apply (Z el1 m1)].
  intros E. destruct el1 as [|i el1].
  - symmetry. apply (Z el2 m2 N2). now rewrite <- E.
  - destruct el2 as [|j el2].
    { apply (Z (i :: el1) m1 N1). now rewrite E. }
    apply (segments_inj (i :: el1) body (j :: el2) m1 m2 N1 N2).
    rewrite <- (split_join ">" (segments body (i :: el1)));
      [|now apply (segments_nonempty body i el1 m1) | now apply segments_no_gt].
    rewrite <- (split_join ">" (segments body (j :: el2)));
      [|now apply (segments_nonempty body j el2 m2) | now apply segments_no_gt].
    now rewrite E.
Qed.


(* ================================================================== *)
(** ** What the save button stores *)

Lemma obj_get_notin {V} (o : JSObject V) k : ~ In k (obj_keys o) -> obj_get o k = None.
Proof.
  induction o as [|[k0 v0] r IH]; intros H; [reflexivity|]. simpl.
  destruct (String.eqb k0 k) eqn:E.
  - apply String.eqb_eq in E. elim H. now left.
  - apply IH. intros I. apply H. now right.
Qed.

Lemma obj_keys_set {V} (o : JSObject V) k v : obj_keys (obj_set o k v) = set_add k (obj_keys o).
Proof.
  unfold set_add. induction o as [|[k0 v0] r IH]; [reflexivity|]. simpl.
  rewrite (String.eqb_sym k k0). destruct (String.eqb k0 k) eqn:E; simpl.
  - apply String.eqb_eq in E. now subst k0.
  - rewrite IH. now destruct (existsb (String.eqb k) (obj_keys r)).
Qed.

Lemma existsb_eqb_In k l : existsb (String.eqb k) l = true <-> In k l.
Proof.
  rewrite existsb_exists. split.
  - intros (x & I & E). apply String.eqb_eq in E. now subst x.
  - intros I. exists k. split; [exact I | apply String.eqb_refl].
Qed.

Lemma NoDup_set_add k l : NoDup l -> NoDup (set_add k l).
Proof.
  intros N. unfold set_add. destruct (existsb (String.eqb k) l) eqn:E; [exact N|].
  apply NoDup_app; [exact N | repeat constructor; intros [] |].
  intros x I [<-|[]]. apply existsb_eqb_In in I. congruence.
Qed.

Lemma collectEdited_keys body editedSet : forall acc,
  NoDup (obj_keys acc) -> NoDup (obj_keys (collectEdited body editedSet acc)).
Proof.
  induction editedSet as [|k rest IH]; intros acc N; [exact N|].
  cbn [collectEdited]. destruct (getElementByKey body k) as [el|]; [|now apply IH].
  destruct (nodeAt body el) as [node|]; [|now apply IH].
  apply IH. rewrite obj_keys_set. now apply NoDup_set_add.
Qed.

(** The mapping that the loop of the [getEditedElements] branch builds: a
    tracked key that decodes gets the text read for it, every other key
    keeps what the mapping had. *)
Lemma collectEdited_get body editedSet : forall acc key,
  obj_get (collectEdited body editedSet acc) key
  = if existsb (String.eqb key) editedSet
    then match textAtKey body key with Some t => Some t | None => obj_get acc key end
    else obj_get acc key.
Proof.
  induction editedSet as [|k rest IH]; intros acc key; [reflexivity|].
  cbn [collectEdited existsb].
  assert (T : textAtKey body k
              = match getElementByKey body k with
                | Some el => option_map (fun node => trim (textContent node)) (nodeAt body el)
                | None => None
                end) by reflexivity.
  destruct (String.eqb key k) eqn:E.
  - apply String.eqb_eq in E. subst key. cbn [orb].
    destruct (getElementByKey body k) as [el|].
    + destruct (nodeAt body el) as [node|]; simpl in T; rewrite IH, T.
      * rewrite obj_get_set_same. now destruct (existsb _ rest).
      * now destruct (existsb _ rest).
    + rewrite IH, T. now destruct (existsb _ rest).
  - cbn [orb]. assert (D : key <> k) by (intros ->; now rewrite String.eqb_refl in E).
    destruct (getElementByKey body k) as [el|]; [|apply IH].
    destruct (nodeAt body el) as [node|]; [|apply IH].
    rewrite IH. now rewrite obj_get_set_other.
Qed.

(** The mapping after the loop of the save handler. *)
Lemma mergeEdited_get batch : forall allEdits key,
  NoDup (obj_keys batch) ->
  obj_get (mergeEdited allEdits batch) key
  = match obj_get batch key with
    | Some t => if truthy t && truthy (trim t) then Some (trim t) else obj_get allEdits key
    | None => obj_get allEdits key
    end.
Proof.
  induction batch as [|[k t] rest IH]; intros allEdits key N; [reflexivity|].
  inversion N as [|? ? Hk Hr]; subst. cbn [mergeEdited obj_get].
  destruct (String.eqb k key) eqn:E.
  - apply String.eqb_eq in E. subst key.
    destruct (truthy t && truthy (trim t)); rewrite IH by exact Hr;
      rewrite (obj_get_notin rest k Hk); [apply obj_get_set_same | reflexivity].
  - assert (D : key <> k) by (intros ->; now rewrite String.eqb_refl in E).
    destruct (truthy t && truthy (trim t)); rewrite IH by exact Hr; [|reflexivity].
    rewrite obj_get_set_other by exact D. reflexivity.
Qed.

Lemma textAtKey_trimmed body key t : textAtKey body key = Some t -> trim t = t.
Proof.
  unfold textAtKey. destruct (getElementByKey body key) as [el|]; [|discriminate].
  destruct (nodeAt body el) as [node|]; [|discriminate].
  intros [= <-]. apply trim_idem.
Qed.

Lemma saveBtn_click_rest pageKey st :
  body (saveBtn_click pageKey st) = body st /\
  pending (saveBtn_click pageKey st) = [] /\
  currentPageKey (saveBtn_click pageKey st) = currentPageKey st.
Proof.
  unfold saveBtn_click, onMessage, getEditedElementsForPage, pending.
  destruct (obj_get (editedElementsMap st) (currentPageKey st)) eqn:E; simpl;
    rewrite ?E, ?obj_get_set_same; simpl; rewrite ?obj_get_set_same; auto.
Qed.

(** X8 -- The answer to [getEditedElements]: the mapping holds exactly the
    tracked keys of the current page that decode to an element, each with
    the trimmed text of that element as it is now; a tracked key that no
    longer decodes is left out.  Answering changes neither the document nor
    the tracker. *)
Theorem getEditedElements_response st :
  let data := collectEdited (body st) (pending st) [] in
  snd (onMessage st getEditedElements) = editedElements data /\
  (forall key, obj_get data key
               = if existsb (String.eqb key) (pending st)
                 then textAtKey (body st) key else None) /\
  NoDup (obj_keys data) /\
  body (fst (onMessage st getEditedElements)) = body st /\
  pending (fst (onMessage st getEditedElements)) = pending st.
Proof.
  intros data. cbn [onMessage].
  destruct (pending_getEditedElementsForPage st) as (P & S & _).
  assert (B : body (fst (getEditedElementsForPage st)) = body st).
  { unfold getEditedElementsForPage. now destruct (obj_get _ _). }
  destruct (getEditedElementsForPage st) as [st1 s1]. cbn [fst snd] in *.
  subst s1. rewrite B. repeat split; try assumption.
  - intros key. unfold data. rewrite collectEdited_get.
    destruct (existsb _ _); [|reflexivity]. now destruct (textAtKey (body st) key).
  - apply collectEdited_keys. constructor.
Qed.

(** X9 -- A click on the save button, from edit to storage: under the page
    key of the popup, a tracked key that decodes to an element whose trimmed
    text is not empty is stored with that text; every other key keeps what
    was stored for it; other pages keep their edits; the document is not
    touched and the tracker of the current page is empty afterwards. *)
Theorem saveBtn_click_saves pageKey st :
  let st' := saveBtn_click pageKey st in
  (forall key,
     obj_get (popup_getSavedEdits pageKey (storage st')) key
     = match (if existsb (String.eqb key) (pending st)
              then textAtKey (body st) key else None) with
       | Some t => if truthy t then Some t
                   else obj_get (popup_getSavedEdits pageKey (storage st)) key
       | None => obj_get (popup_getSavedEdits pageKey (storage st)) key
       end) /\
  (forall page, page <> pageKey ->
     obj_get (storedPages (storage st')) page = obj_get (storedPages (storage st)) page) /\
  storedEditingEnabled (storage st') = storedEditingEnabled (storage st) /\
  body st' = body st /\
  pending st' = [].
Proof.
  intros st'. unfold st'. destruct (saveBtn_click_rest pageKey st) as (B & P & _).
  rewrite saveBtn_click_storage. repeat split; try assumption.
  - intros key. unfold saveBtn_store, saveEdits, popup_getSavedEdits at 1. simpl.
    rewrite obj_get_set_same, mergeEdited_get by (apply collectEdited_keys; constructor).
    rewrite collectEdited_get. simpl.
    destruct (existsb _ _); [|reflexivity].
    destruct (textAtKey (body st) key) as [t|] eqn:T; [|reflexivity].
    rewrite (textAtKey_trimmed _ _ _ T). now destruct (truthy t).
  - intros page D. unfold saveBtn_store, saveEdits. simpl. now apply obj_get_set_other.
Qed.


(* ================================================================== *)
(** ** Typing into an element *)

Lemma tag_updateAt g p c :
  (forall a, tagName (g a) = tagName a) ->
  match attrs (updateAt p (setAttrs g) c) with Some a => tagName a | None => "" end
  = match attrs c with Some a => tagName a | None => "" end.
Proof.
  intros Hg. destruct p as [|j p], c as [d|d|a cs]; simpl; try reflexivity. apply Hg.
Qed.

(** Setting attributes other than the tag name changes no key. *)
Lemma segments_updateAt g :
  (forall a, tagName (g a) = tagName a) ->
  forall el p n, segments (updateAt p (setAttrs g) n) el = segments n el.
Proof.
  intros Hg. induction el as [|i el IH]; intros p n; [reflexivity|].
  destruct p as [|j p].
  - simpl updateAt. cbn [segments]. now rewrite children_setAttrs.
  - destruct n as [d|d|a cs]; try reflexivity.
    cbn [updateAt segments]. unfold children at 1 2. simpl childNodes.
    rewrite elements_updateNth
      by apply keepsElements_updateAt, attrsOnly_keepsElements, attrsOnly_setAttrs.
    destruct (Nat.eqb i j) eqn:E; [|reflexivity].
    apply Nat.eqb_eq in E. subst j.
    destruct (nth_error (filter isElement cs) i) as [c|]; [|reflexivity].
    simpl option_map. cbv iota. now rewrite IH, tag_updateAt.
Qed.

Lemma getKey_updateAt g body p el m :
  (forall a, tagName (g a) = tagName a) ->
  nodeAt body el = Some m ->
  getKey (updateAt p (setAttrs g) body) el = getKey body el.
Proof.
  intros Hg N. rewrite (getKey_segments body el m N).
  assert (K : keepsElements (updateAt p (setAttrs g)))
    by apply keepsElements_updateAt, attrsOnly_keepsElements, attrsOnly_setAttrs.
  destruct (nodeAt (updateAt p (setAttrs g) body) el) as [m'|] eqn:N'.
  - rewrite (getKey_segments _ el m' N'). now rewrite segments_updateAt.
  - exfalso. revert N'. clear K.
    assert (S : forall q n, nodeAt n el = None <-> nodeAt (updateAt q (setAttrs g) n) el = None).
    { clear N. induction el as [|i el IH]; intros q n; [split; discriminate|].
      destruct q as [|j q].
      - simpl updateAt. simpl nodeAt. now rewrite children_setAttrs.
      - destruct n as [d|d|a cs]; [reflexivity..|].
        cbn [updateAt nodeAt]. unfold children at 1 2. simpl childNodes.
        rewrite elements_updateNth
          by apply keepsElements_updateAt, attrsOnly_keepsElements, attrsOnly_setAttrs.
        destruct (Nat.eqb i j) eqn:E; [|reflexivity].
        apply Nat.eqb_eq in E. subst j.
        destruct (nth_error (filter isElement cs) i) as [c|]; [|reflexivity].
        simpl option_map. cbv iota. apply IH. }
    intros N'. apply S in N'. congruence.
Qed.

Lemma textContent_setAttrs g n : textContent (setAttrs g n) = textContent n.
Proof. destruct n; reflexivity. Qed.

(** What the [input] listener does. *)
Lemma onInput_effect st el node :
  hasListeners st el = true ->
  nodeAt (body st) el = Some node ->
  let st' := onInput st el in
  let key := getKey (body st) el in
  obj_get (getSavedEdits st') key = Some (trim (textContent node)) /\
  (forall k, k <> key -> obj_get (getSavedEdits st') k = obj_get (getSavedEdits st) k) /\
  (forall page, page <> currentPageKey st ->
     obj_get (storedPages (storage st')) page = obj_get (storedPages (storage st)) page) /\
  storedEditingEnabled (storage st') = storedEditingEnabled (storage st) /\
  (forall k, In k (pending st') <-> k = key \/ In k (pending st)) /\
  body st' = updateAt el (setAttrs (with_isEditing "true")) (body st).
Proof.
  intros L N st' key. unfold st', onInput. rewrite L.
  set (b1 := updateAt el (setAttrs (with_isEditing "true")) (body st)).
  assert (N1 : nodeAt b1 el = Some (setAttrs (with_isEditing "true") node)).
  { unfold b1. rewrite nodeAt_updateAt_same
      by apply attrsOnly_keepsElements, attrsOnly_setAttrs. now rewrite N. }
  assert (K1 : getKey b1 el = key).
  { unfold b1, key. now apply (getKey_updateAt _ _ _ _ node). }
  assert (G : forall st2 s2, body st2 = b1 -> storage st2 = storage st ->
                currentPageKey st2 = currentPageKey st ->
                pending st2 = set_add key s2 -> s2 = pending st ->
    let r := saveEdit st2 el in
    obj_get (getSavedEdits r) key = Some (trim (textContent node)) /\
    (forall k, k <> key -> obj_get (getSavedEdits r) k = obj_get (getSavedEdits st) k) /\
    (forall page, page <> currentPageKey st ->
       obj_get (storedPages (storage r)) page = obj_get (storedPages (storage st)) page) /\
    storedEditingEnabled (storage r) = storedEditingEnabled (storage st) /\
    (forall k, In k (pending r) <-> k = key \/ In k (pending st)) /\
    body r = b1).
  { intros st2 s2 B S C P ->.
    assert (Gs : getSavedEdits st2 = getSavedEdits st)
      by (unfold getSavedEdits; now rewrite S, C).
    set (edits := obj_set (getSavedEdits st) key (trim (textContent node))).
    assert (R : saveEdit st2 el
                = with_storage
                    (mkStorage (storedEditingEnabled (storage st))
                       (obj_set (storedPages (storage st)) (currentPageKey st) edits)) st2).
    { unfold saveEdit. rewrite B, N1, K1, textContent_setAttrs, Gs, S, C. reflexivity. }
    intros r. unfold r. rewrite R.
    assert (Gr : getSavedEdits
                   (with_storage
                      (mkStorage (storedEditingEnabled (storage st))
                         (obj_set (storedPages (storage st)) (currentPageKey st) edits)) st2)
                 = edits).
    { unfold getSavedEdits. simpl. now rewrite C, obj_get_set_same. }
    rewrite Gr. unfold edits. split; [apply obj_get_set_same|].
    split; [intros k D; now apply obj_get_set_other|].
    split; [intros page D; simpl; now apply obj_get_set_other|].
    split; [reflexivity|]. split; [|exact B]. intros k. split.
    - unfold pending in *. simpl. rewrite P. unfold set_add.
      destruct (existsb (String.eqb key) _) eqn:E.
      + intros I. now right.
      + intros I. apply in_app_iff in I as [I|[<-|[]]]; auto.
    - unfold pending in *. simpl. rewrite P. unfold set_add.
      destruct (existsb (String.eqb key) _) eqn:E.
      + intros [->|I]; [now apply existsb_eqb_In | exact I].
      + intros [->|I]; apply in_app_iff; [right; now left | now left]. }
  unfold getEditedElementsForPage. simpl currentPageKey. simpl editedElementsMap.
  destruct (obj_get (editedElementsMap st) (currentPageKey st)) as [s|] eqn:E.
  - apply (G _ s); try reflexivity.
    + unfold pending. simpl. rewrite K1. now rewrite obj_get_set_same.
    + unfold pending. now rewrite E.
  - apply (G _ []); try reflexivity.
    + unfold pending. simpl. rewrite K1. now rewrite !obj_get_set_same.
    + unfold pending. now rewrite E.
Qed.



(* ================================================================== *)
(** ** What reconciliation restores *)

(** The tree walker finds a text node wherever there is one. *)
Lemma setFirstText_None t n : setFirstText t n = None -> textNodes n = 0%nat.
Proof.
  induction n as [d|d|a cs IH] using Node_ind; simpl; [discriminate | reflexivity |].
  destruct (writeFirst (setFirstText t) cs) as [l|] eqn:W; [discriminate|]. intros _.
  induction IH as [|c r Hc Hr IHr]; [reflexivity|].
  simpl in W. destruct (setFirstText t c) eqn:C; [discriminate|].
  destruct (writeFirst (setFirstText t) r); [discriminate|].
  simpl. now rewrite (Hc eq_refl), IHr.
Qed.

(** The text of a located element after a pass. *)
Lemma applyEditsOn_restores edits d key text el node :
  StoredTrimmed edits -> LeafTargets edits d -> Unambiguous edits d ->
  In (key, text) edits ->
  getElementByKey d key = Some el -> nodeAt d el = Some node ->
  dataIsEditing node <> Some "true" -> textNodes node = 1%nat ->
  exists node',
    nodeAt (fst (applyEditsOn edits d)) el = Some node' /\
    trim (textContent node') = text /\
    skeleton node' = skeleton node.
Proof.
  intros T L U I K N Ed Tn. rewrite applyEditsOn_entries.
  destruct (Settled_through_pass edits T edits d (incl_refl _) L U) as [S _].
  specialize (S _ I). unfold Settled in S. rewrite applyEdit_eq in S.
  pose proof (applyEntries_skeleton edits d) as Sk.
  set (d' := fst (applyEntries d edits)) in *.
  rewrite (getElementByKey_skeleton d' d key Sk), K in S.
  destruct (nodeAt_same_skeleton d d' el node (eq_sym Sk) N) as (node' & N' & Sn).
  exists node'. split; [exact N'|]. split; [|now symmetry].
  rewrite N' in S.
  destruct (String.eqb (trim (textContent node')) text) eqn:E;
    [now apply String.eqb_eq in E|].
  exfalso. simpl negb in S.
  destruct (optEq (dataIsEditing node') "true") eqn:O.
  { apply optEq_true in O. apply Ed.
    now rewrite (dataIsEditing_skeleton node node' Sn). }
  simpl in S. destruct (setFirstText text node') eqn:W; [discriminate|].
  apply setFirstText_None in W.
  rewrite <- (textNodes_skeleton node'), <- Sn, textNodes_skeleton in W. lia.
Qed.

(** X11 -- What a pass of [applyEdits] restores.  When every stored text
    is its own trim, the stored keys locate leaf elements with at most one
    text node, and no two entries locate the same element with different
    texts: after the pass, every element that a stored key locates, that is
    not being edited and that has a text node shows the stored text (its
    trimmed text is the stored one). *)
Theorem applyEdits_restores edits d key text el node :
  StoredTrimmed edits -> LeafTargets edits d -> Unambiguous edits d ->
  In (key, text) edits ->
  getElementByKey d key = Some el -> nodeAt d el = Some node ->
  dataIsEditing node <> Some "true" -> textNodes node = 1%nat ->
  exists node',
    nodeAt (fst (applyEditsOn edits d)) el = Some node' /\
    trim (textContent node') = text /\
    skeleton node' = skeleton node.
Proof. apply applyEditsOn_restores. Qed.


(* ================================================================== *)
(** ** A rejected await *)

Lemma guarded_startObservers : guarded startObservers.
Proof.
  unfold guarded, startObservers. simpl.
  repeat split; try lia; try discriminate. now intros [].
Qed.

(** With the guard set and nothing suspended, no event changes anything but
    the count of ignored batches. *)
Lemma watcher_stuck evs : forall w,
  applying w = true -> suspended w = [] ->
  let w' := watcherRun w evs in
  applying w' = true /\ suspended w' = [] /\ started w' = started w /\
  completed w' = completed w /\ failed w' = failed w /\
  ignored w' = (ignored w + List.length (filter isBatch evs))%nat.
Proof.
  induction evs as [|ev evs IH]; intros w A S.
  - simpl. repeat split; try assumption. lia.
  - cbn [watcherRun fold_left].
    assert (E : watcherStep w ev
                = if isBatch ev
                  then mkWatcher (applying w) (suspended w) (started w) (completed w)
                                 (failed w) (Datatypes.S (ignored w))
                  else w).
    { destruct ev as [|k|k]; simpl.
      - now rewrite A.
      - rewrite S. now destruct k.
      - rewrite S. now destruct k. }
    rewrite E. destruct (isBatch ev) eqn:B.
    + destruct (IH (mkWatcher (applying w) (suspended w) (started w) (completed w)
                              (failed w) (Datatypes.S (ignored w))) A S)
        as (H1 & H2 & H3 & H4 & H5 & H6).
      unfold watcherRun in *. cbn [filter]. rewrite B. simpl in *.
      repeat split; try assumption. lia.
    + destruct (IH w A S) as (H1 & H2 & H3 & H4 & H5 & H6).
      unfold watcherRun in *. cbn [filter]. rewrite B.
      repeat split; assumption.
Qed.

(** X12 -- A rejected [await] in the callback of [startObservers] leaves
    the guard set for good: once the promise awaited by the suspended
    callback is rejected, [applying] stays [true], every later batch is
    ignored and no pass is started or completed any more. *)
Theorem watcher_stuck_after_rejection evs stage evs' :
  suspended (watcherRun startObservers evs) = [stage] ->
  let w := watcherRun startObservers evs in
  let w' := watcherRun (watcherStep w (Reject 0)) evs' in
  applying w' = true /\ suspended w' = [] /\
  started w' = started w /\ completed w' = completed w /\
  failed w' = Datatypes.S (failed w) /\
  ignored w' = (ignored w + List.length (filter isBatch evs'))%nat.
Proof.
  intros S w w'.
  assert (G : guarded w) by apply guarded_run, guarded_startObservers.
  destruct G as (_ & A & _ & _). fold w in S.
  assert (Ap : applying w = true) by (apply A; rewrite S; discriminate).
  unfold w'. cbn [watcherStep]. rewrite S. cbn [nth_error removeNth].
  match goal with |- context [watcherRun ?x evs'] =>
    destruct (watcher_stuck evs' x Ap eq_refl) as (H1 & H2 & H3 & H4 & H5 & H6) end.
  simpl in *. repeat split; assumption.
Qed.


(* ================================================================== *)
(** ** Editing switched off *)

Lemma attrs_skeleton n : attrs (skeleton n) = attrs n.
Proof. destruct n; reflexivity. Qed.

Lemma attrsAt_skeleton n p : attrsAt (skeleton n) p = attrsAt n p.
Proof.
  unfold attrsAt. rewrite nodeAt_skeleton.
  destruct (nodeAt n p) as [m|]; [apply attrs_skeleton | reflexivity].
Qed.

Lemma attrsAt_same_skeleton d1 d2 p :
  skeleton d1 = skeleton d2 -> attrsAt d1 p = attrsAt d2 p.
Proof. intros H. rewrite <- (attrsAt_skeleton d1), <- (attrsAt_skeleton d2). now rewrite H. Qed.

Lemma sameGate_refl st : sameGate st st.
Proof. now split. Qed.

Lemma sameGate_trans st1 st2 st3 : sameGate st1 st2 -> sameGate st2 st3 -> sameGate st1 st3.
Proof.
  intros [S1 E1] [S2 E2]. split; [congruence|]. intros p. now rewrite E2, E1.
Qed.

Lemma sameGate_attrs st st' :
  storage st' = storage st -> (forall p, attrsAt (body st') p = attrsAt (body st) p) ->
  sameGate st st'.
Proof.
  intros S A. split; [now rewrite S|]. intros p. unfold editableAt. now rewrite A.
Qed.

Lemma body_applyEdits st : skeleton (body (fst (applyEdits st))) = skeleton (body st).
Proof.
  unfold applyEdits. rewrite applyEditsOn_entries.
  pose proof (applyEntries_skeleton (getSavedEdits st) (body st)) as S.
  destruct (applyEntries (body st) (getSavedEdits st)) as [b w]. exact S.
Qed.

Lemma sameGate_applyEdits st : sameGate st (fst (applyEdits st)).
Proof.
  apply sameGate_attrs; [apply storage_applyEdits|].
  intros p. apply attrsAt_same_skeleton, body_applyEdits.
Qed.

Lemma enableEditing_disabled st :
  isEditingEnabled (storage st) = false -> enableEditing st = st.
Proof.
  intros D. unfold enableEditing, enableEditingOn. rewrite D. apply with_body_same.
Qed.

Lemma sameGate_disabled st st' :
  sameGate st st' -> isEditingEnabled (storage st) = false ->
  isEditingEnabled (storage st') = false.
Proof. intros [S _] D. unfold isEditingEnabled in *. now rewrite S. Qed.

Lemma sameGate_getEditedElementsForPage st : sameGate st (fst (getEditedElementsForPage st)).
Proof.
  unfold getEditedElementsForPage. destruct (obj_get _ _); [apply sameGate_refl|].
  split; [reflexivity | intros p; reflexivity].
Qed.

(** Setting attributes other than [contenteditable] makes nothing
    editable. *)
Lemma editableAt_setAttrs g el b p :
  (forall a, contenteditable (g a) = contenteditable a) ->
  editableAt (updateAt el (setAttrs g) b) p = editableAt b p.
Proof.
  intros Hg. unfold editableAt. destruct (list_eq_dec Nat.eq_dec p el) as [->|D].
  - rewrite attrsAt_updateAt_same by apply attrsOnly_keepsElements, attrsOnly_setAttrs.
    unfold attrsAt. destruct (nodeAt b el) as [m|]; [|reflexivity].
    rewrite attrs_setAttrs. destruct (attrs m); [simpl; now rewrite Hg | reflexivity].
  - now rewrite attrsAt_updateAt_other by (try apply attrsOnly_setAttrs; exact D).
Qed.

Lemma editableAt_marked el v b p :
  editableAt (updateAt el (setAttrs (with_isEditing v)) b) p = editableAt b p.
Proof. apply editableAt_setAttrs. reflexivity. Qed.

(** What every update of [preventActionsOnClass] keeps, the whole of it
    keeps. *)
Lemma preventActionsOnClassOn_keeps (R : Node -> Node -> Prop) :
  (forall d, R d d) -> (forall d1 d2 d3, R d1 d2 -> R d2 d3 -> R d1 d3) ->
  (forall el d, R d (updateAt el preventElement d)) ->
  forall s b, R b (preventActionsOnClassOn s b).
Proof.
  intros Rr Rt Ru s b. unfold preventActionsOnClassOn.
  destruct (isEditingEnabled s); [apply Rr|].
  assert (F : forall ps d, R d (fold_left (fun doc' el => updateAt el preventElement doc') ps d)).
  { induction ps as [|p ps IH]; intros d; [apply Rr|].
    simpl. eapply Rt; [apply Ru | apply IH]. }
  generalize PREVENTED_CLASSES as classes. intros classes. revert b.
  induction classes as [|cls classes IH]; intros b; [apply Rr|].
  simpl. eapply Rt; [apply F | apply IH].
Qed.

Lemma sameGate_preventActionsOnClass st : sameGate st (preventActionsOnClass st).
Proof.
  split; [reflexivity|]. simpl body.
  apply (preventActionsOnClassOn_keeps
           (fun d d' => forall p, editableAt d' p = editableAt d p)).
  - reflexivity.
  - intros d1 d2 d3 H1 H2 p. now rewrite H2, H1.
  - intros el d p. apply editableAt_setAttrs. reflexivity.
Qed.

Lemma sameGate_pathObserver st :
  isEditingEnabled (storage st) = false -> sameGate st (pathObserver st).
Proof.
  intros D. unfold pathObserver.
  destruct (negb (String.eqb (location st) (lastPath st))); [|apply sameGate_refl].
  match goal with |- context [getEditedElementsForPage ?x] =>
    pose proof (sameGate_getEditedElementsForPage x) as G;
    destruct (getEditedElementsForPage x) as [st2 s2] end.
  cbn [fst] in G.
  match goal with |- sameGate _ (preventActionsOnClass (enableEditing (fst (applyEdits ?x)))) =>
    assert (G3 : sameGate st x) by (destruct G as [G1 G2]; split; [exact G1 | exact G2]);
    pose proof (sameGate_trans _ _ _ G3 (sameGate_applyEdits x)) as G4 end.
  rewrite enableEditing_disabled by now apply (sameGate_disabled st).
  exact (sameGate_trans _ _ _ G4 (sameGate_preventActionsOnClass _)).
Qed.

Lemma sameGate_watcherCallback st : sameGate st (watcherCallback st).
Proof.
  unfold watcherCallback. destruct (applying (watcher st));
    (split; [reflexivity | intros p; reflexivity]).
Qed.

Lemma sameGate_passResumes st k :
  isEditingEnabled (storage st) = false -> sameGate st (passResumes st k).
Proof.
  intros D. unfold passResumes.
  assert (W : forall x w, sameGate st x -> sameGate st (with_watcher w x)).
  { intros x w [S1 S2]. split; [exact S1 | exact S2]. }
  apply W. destruct (nth_error (suspended (watcher st)) k) as [[| |]|]; cbn [passStage].
  - unfold applyEditsAsked.
    destruct (String.eqb _ _); [apply sameGate_applyEdits | apply sameGate_refl].
  - rewrite enableEditing_disabled by exact D. apply sameGate_refl.
  - apply sameGate_preventActionsOnClass.
  - apply sameGate_refl.
Qed.

Lemma hasListeners_node st el :
  hasListeners st el = true -> exists node, nodeAt (body st) el = Some node.
Proof.
  unfold hasListeners. destruct (nodeAt (body st) el) as [m|]; [|discriminate].
  intros _. now exists m.
Qed.

(** With editing switched off in the storage, an event that the content
    script handles makes no element editable and leaves the flag alone. *)
Lemma gate_step st ev :
  isEditingEnabled (storage st) = false -> handled ev = true ->
  isEditingEnabled (storage (step st ev)) = false /\
  forall p, editableAt (body (step st ev)) p = true -> editableAt (body st) p = true.
Proof.
  intros D H.
  assert (G : forall st', sameGate st st' ->
                isEditingEnabled (storage st') = false /\
                forall p, editableAt (body st') p = true -> editableAt (body st) p = true).
  { intros st' Sg. split; [now apply (sameGate_disabled st)|].
    intros p. destruct Sg as [_ E]. now rewrite E. }
  destruct ev as [r| |k|k|b loc|s|el|el|el]; try discriminate; cbn [step].
  - destruct r as [| |[|]]; cbn [onMessage].
    + pose proof (sameGate_getEditedElementsForPage st) as Sg.
      destruct (getEditedElementsForPage st) as [st1 s1]. now apply G.
    + pose proof (sameGate_getEditedElementsForPage st) as Sg.
      destruct (getEditedElementsForPage st) as [st1 s1]. cbn [fst] in *.
      apply G. destruct Sg as [S1 S2]. split; [exact S1 | exact S2].
    + cbn [fst]. rewrite enableEditing_disabled by exact D.
      apply G. split; [reflexivity | intros p; reflexivity].
    + cbn [fst]. split; [exact D|]. intros p. simpl body.
      now rewrite editableAt_disableEditingOn.
  - apply G. pose proof (sameGate_watcherCallback st) as S1.
    pose proof (sameGate_disabled _ _ S1 D) as D1.
    exact (sameGate_trans _ _ _ S1 (sameGate_pathObserver _ D1)).
  - apply G. now apply sameGate_passResumes.
  - apply G. split; [reflexivity | intros p; reflexivity].
  - apply G. apply sameGate_refl.
  - apply G. unfold onBlur. destruct (hasListeners st el); [|apply sameGate_refl].
    split; [reflexivity|]. intros p. apply editableAt_marked.
  - apply G. destruct (hasListeners st el) eqn:L.
    + destruct (hasListeners_node st el L) as (node & N).
      destruct (onInput_effect st el node L N) as (_ & _ & _ & F & _ & B).
      split; [exact F|]. intros p. rewrite B. apply editableAt_marked.
    + unfold onInput. rewrite L. apply sameGate_refl.
Qed.

(** X13 -- Editing switched off stays off: while the stored flag is
    [false] and neither page nor popup interferes, whatever messages,
    mutation batches, awaits of the watcher's pass fulfilled or rejected,
    and focus, blur and input events the content script handles, the flag
    stays [false] and no element gets [contenteditable = "true"] that did
    not have it. *)
Theorem disabled_makes_nothing_editable st evs :
  isEditingEnabled (storage st) = false ->
  forallb handled evs = true ->
  isEditingEnabled (storage (run st evs)) = false /\
  forall p, editableAt (body (run st evs)) p = true -> editableAt (body st) p = true.
Proof.
  revert st. induction evs as [|ev evs IH]; intros st D H; [now split|].
  simpl in H. apply andb_true_iff in H as [H1 H2].
  destruct (gate_step st ev D H1) as [D1 E1].
  destruct (IH (step st ev) D1 H2) as [D2 E2].
  unfold run in *. cbn [fold_left]. split; [exact D2|].
  intros p E. now apply E1, E2.
Qed.


(* ================================================================== *)
(** ** The toggle button and the storage helpers *)

Lemma pending_onMessage_setEditingState st enabled :
  pending (fst (onMessage st (setEditingState enabled))) = pending st.
Proof. cbn [onMessage]. now destruct enabled. Qed.

(** X14 -- A click on the toggle button, popup and page together: the
    stored flag is flipped and the variable [editingEnabled] of the content
    script agrees with it; stored edits and the tracker are kept.  Switching
    off leaves no element with [contenteditable = "true"]; switching on
    initialises exactly the elements that [enableEditing] accepts. *)
Theorem toggleBtn_click_effect st :
  let st' := toggleBtn_click st in
  getEditingState (storage st') = negb (getEditingState (storage st)) /\
  editingEnabled st' = getEditingState (storage st') /\
  storedPages (storage st') = storedPages (storage st) /\
  pending st' = pending st /\
  (getEditingState (storage st) = true -> forall p, editableAt (body st') p = false) /\
  (getEditingState (storage st) = false ->
   forall p n a, nodeAt (body st) p = Some n -> attrs n = Some a ->
     attrsAt (body st') p
     = Some (if matches_div1b33_span (ancestorsAt (body st) p []) a
                && eligible a (textContent n) (List.length (children n))
             then initialised a else a)).
Proof.
  intros st'. unfold st', toggleBtn_click.
  rewrite pending_onMessage_setEditingState, storage_onMessage.
  destruct (getEditingState (storage st)) eqn:G; cbn [negb onMessage fst].
  - repeat split; try reflexivity; try discriminate.
    intros _ p. simpl body. apply editableAt_disableEditingOn.
  - repeat split; try reflexivity; try discriminate.
    intros _ p n a N A. simpl body. now apply attrsAt_enableEditingOn.
Qed.

(** X15 -- The path observer reacts once to a change of location: after
    its callback has run, the location it remembers is the current one, and
    a second run changes nothing. *)
Theorem pathObserver_once st :
  pathObserver (pathObserver st) = pathObserver st /\
  (location st <> lastPath st ->
   lastPath (pathObserver st) = location st /\
   currentPageKey (pathObserver st) = location st /\
   pending (pathObserver st) = []).
Proof.
  assert (L : forall x,
             location (preventActionsOnClass (enableEditing (fst (applyEdits x))))
             = location x /\
             lastPath (preventActionsOnClass (enableEditing (fst (applyEdits x))))
             = lastPath x /\
             currentPageKey (preventActionsOnClass (enableEditing (fst (applyEdits x))))
             = currentPageKey x).
  { intros x. unfold preventActionsOnClass, enableEditing, applyEdits.
    now destruct (applyEditsOn _ _). }
  assert (Q : forall x, location (pathObserver x) = location x /\
                        lastPath (pathObserver x) = location x \/ pathObserver x = x /\ location x = lastPath x).
  { intros x. unfold pathObserver.
    destruct (String.eqb (location x) (lastPath x)) eqn:E; cbn [negb].
    - right. split; [reflexivity | now apply String.eqb_eq].
    - left. unfold getEditedElementsForPage. cbn.
      destruct (obj_get (editedElementsMap x) (location x));
        match goal with |- context [enableEditing (fst (applyEdits ?y))] =>
          destruct (L y) as (L1 & L2 & _); rewrite L1, L2 end; now split. }
  split.
  - destruct (Q st) as [[Q1 Q2]|[Q1 _]]; [|now rewrite !Q1].
    unfold pathObserver at 1. rewrite Q1, Q2, String.eqb_refl. reflexivity.
  - intros D. unfold pathObserver.
    destruct (String.eqb (location st) (lastPath st)) eqn:E;
      [now apply String.eqb_eq in E|]. cbn [negb].
    unfold getEditedElementsForPage. cbn.
    destruct (obj_get (editedElementsMap st) (location st));
      match goal with |- context [enableEditing (fst (applyEdits ?y))] =>
        destruct (L y) as (_ & L2 & L3); rewrite L2, L3, pending_preventActionsOnClass,
          pending_enableEditing, pending_applyEdits end; cbn; repeat split;
      unfold pending; cbn; now rewrite ?obj_get_set_same.
Qed.

(** X16 -- The storage helpers of the popup read back what they write:
    the edits saved for a page are the edits read for it, edits of other
    pages and the editing flag are not touched by [saveEdits], the edits are
    not touched by [setEditingState], the flag read after [setEditingState]
    is the flag written, and the content script reads flag and edits as the
    popup does. *)
Theorem storage_helpers_roundtrip pageKey edits enabled s st :
  popup_getSavedEdits pageKey (saveEdits pageKey edits s) = edits /\
  (forall page, page <> pageKey ->
     popup_getSavedEdits page (saveEdits pageKey edits s) = popup_getSavedEdits page s) /\
  getEditingState (saveEdits pageKey edits s) = getEditingState s /\
  getEditingState (popup_setEditingState enabled s) = enabled /\
  (forall page, popup_getSavedEdits page (popup_setEditingState enabled s)
                = popup_getSavedEdits page s) /\
  isEditingEnabled s = getEditingState s /\
  getSavedEdits st = popup_getSavedEdits (currentPageKey st) (storage st).
Proof.
  unfold popup_getSavedEdits, saveEdits, getEditingState, popup_setEditingState,
    isEditingEnabled, getSavedEdits. simpl.
  rewrite obj_get_set_same. repeat split; try reflexivity.
  - intros page D. now rewrite obj_get_set_other.
  - now destruct enabled.
Qed.


(* ================================================================== *)
(** ** What the content script leaves alone *)

Lemma frame_skeleton n : frame (skeleton n) = frame n.
Proof.
  induction n as [d|d|a cs IH] using Node_ind; try reflexivity.
  simpl. f_equal. rewrite map_map. induction IH as [|c r Hc Hr IHr]; [reflexivity|].
  simpl. now rewrite Hc, IHr.
Qed.

Lemma frame_bare n : frame (bare n) = frame n.
Proof.
  induction n as [d|d|a cs IH] using Node_ind; try reflexivity.
  simpl. f_equal. rewrite map_map. induction IH as [|c r Hc Hr IHr]; [reflexivity|].
  simpl. now rewrite Hc, IHr.
Qed.

Lemma frame_same_skeleton d1 d2 : skeleton d1 = skeleton d2 -> frame d1 = frame d2.
Proof. intros H. rewrite <- (frame_skeleton d1), <- (frame_skeleton d2). now rewrite H. Qed.

Lemma frame_same_bare d1 d2 : bare d1 = bare d2 -> frame d1 = frame d2.
Proof. intros H. rewrite <- (frame_bare d1), <- (frame_bare d2). now rewrite H. Qed.

Lemma frame_updateNth g i l :
  (forall c, frame (g c) = frame c) ->
  map frame (updateNthElement g i l) = map frame l.
Proof.
  intros Hg. revert i. induction l as [|n r IH]; intros i; [reflexivity|].
  destruct n as [d|d|a cs]; simpl; try (f_equal; apply IH).
  destruct i as [|i']; simpl; [|f_equal; apply IH].
  f_equal. apply (Hg (Element a cs)).
Qed.

Lemma frame_updateAt p g n :
  (forall c, frame (g c) = frame c) -> frame (updateAt p g n) = frame n.
Proof.
  intros Hg. revert n. induction p as [|i p IH]; intros n; simpl; [apply Hg|].
  destruct n as [d|d|a cs]; try reflexivity.
  simpl. f_equal. apply frame_updateNth. exact IH.
Qed.

Lemma frame_marked el v b :
  frame (updateAt el (setAttrs (with_isEditing v)) b) = frame b.
Proof. apply frame_updateAt. intros c. now destruct c. Qed.

Lemma isElement_frame c : isElement (frame c) = isElement c.
Proof. destruct c; reflexivity. Qed.

Lemma children_frame n : children (frame n) = map frame (children n).
Proof.
  destruct n as [d|d|a cs]; try reflexivity.
  unfold children. simpl. apply filter_map_elements, isElement_frame.
Qed.

Lemma isNamed_frame key c : isNamed key (frame c) = isNamed key c.
Proof. destruct c; reflexivity. Qed.

(** Decoding looks at the frame only. *)
Lemma getElementByKey_frame b1 b2 key :
  frame b1 = frame b2 -> getElementByKey b1 key = getElementByKey b2 key.
Proof.
  intros H. unfold getElementByKey.
  rewrite <- (getElementByKey_loop_transform frame children_frame isNamed_frame _ b1).
  rewrite <- (getElementByKey_loop_transform frame children_frame isNamed_frame _ b2).
  now rewrite H.
Qed.

Lemma getKey_loop_frame body up : forall path,
  getKey_loop (frame body) up path = getKey_loop body up path.
Proof.
  induction up as [|i up IH]; intros path; [reflexivity|].
  cbn [getKey_loop]. rewrite (nodeAt_transform frame children_frame).
  destruct (nodeAt body (rev (i :: up))) as [m|]; [|reflexivity].
  simpl option_map. cbv iota. rewrite IH. now destruct m.
Qed.

(** Encoding looks at the frame only. *)
Lemma getKey_frame b1 b2 el : frame b1 = frame b2 -> getKey b1 el = getKey b2 el.
Proof.
  intros H. unfold getKey.
  rewrite <- (getKey_loop_frame b1), <- (getKey_loop_frame b2). now rewrite H.
Qed.

Lemma frame_applyEdits st : frame (body (fst (applyEdits st))) = frame (body st).
Proof. apply frame_same_skeleton, body_applyEdits. Qed.

Lemma frame_enableEditing st : frame (body (enableEditing st)) = frame (body st).
Proof. apply frame_same_bare. simpl. apply bare_enableEditingOn. Qed.

Lemma body_getEditedElementsForPage st :
  body (fst (getEditedElementsForPage st)) = body st.
Proof. unfold getEditedElementsForPage. now destruct (obj_get _ _). Qed.

Lemma frame_preventActionsOnClass st :
  frame (body (preventActionsOnClass st)) = frame (body st).
Proof.
  simpl body.
  apply (preventActionsOnClassOn_keeps (fun d d' => frame d' = frame d)).
  - reflexivity.
  - intros d1 d2 d3 H1 H2. now rewrite H2.
  - intros el d. apply frame_updateAt. intros c. now destruct c.
Qed.

Lemma frame_pathObserver st : frame (body (pathObserver st)) = frame (body st).
Proof.
  unfold pathObserver.
  destruct (negb (String.eqb (location st) (lastPath st))); [|reflexivity].
  match goal with |- context [getEditedElementsForPage ?x] =>
    pose proof (body_getEditedElementsForPage x) as G;
    destruct (getEditedElementsForPage x) as [st2 s2] end.
  cbn [fst] in G.
  rewrite frame_preventActionsOnClass, frame_enableEditing, frame_applyEdits. simpl.
  now rewrite G.
Qed.

Lemma frame_watcherCallback st : frame (body (watcherCallback st)) = frame (body st).
Proof. unfold watcherCallback. now destruct (applying (watcher st)). Qed.

Lemma frame_passResumes st k : frame (body (passResumes st k)) = frame (body st).
Proof.
  unfold passResumes. simpl body.
  destruct (nth_error (suspended (watcher st)) k) as [[| |]|]; cbn [passStage];
    try reflexivity.
  - unfold applyEditsAsked.
    destruct (String.eqb _ _); [apply frame_applyEdits | reflexivity].
  - apply frame_enableEditing.
  - apply frame_preventActionsOnClass.
Qed.

Lemma frame_init st : frame (body (init st)) = frame (body st).
Proof.
  unfold init. pose proof (body_getEditedElementsForPage st) as G.
  destruct (getEditedElementsForPage st) as [st1 s1]. cbn [fst] in G. simpl body.
  match goal with |- frame (preventActionsOnClassOn _ (body ?x)) = _ =>
    change (frame (body (preventActionsOnClass x)) = frame (body st)) end.
  rewrite frame_preventActionsOnClass, frame_applyEdits, frame_enableEditing. simpl.
  now rewrite G.
Qed.

Lemma storage_init st : storage (init st) = storage st.
Proof.
  unfold init. pose proof (storage_getEditedElementsForPage st) as G.
  destruct (getEditedElementsForPage st) as [st1 s1]. cbn [fst] in G. simpl storage.
  rewrite storage_applyEdits. simpl. exact G.
Qed.

Lemma frame_step st ev :
  handled ev = true -> frame (body (step st ev)) = frame (body st).
Proof.
  intros H. destruct ev as [r| |k|k|b loc|s|el|el|el]; try discriminate; cbn [step].
  - destruct r as [| |[|]]; cbn [onMessage].
    + pose proof (body_getEditedElementsForPage st) as G.
      destruct (getEditedElementsForPage st) as [st1 s1]. cbn [fst] in *. now rewrite G.
    + pose proof (body_getEditedElementsForPage st) as G.
      destruct (getEditedElementsForPage st) as [st1 s1]. cbn [fst] in *. simpl.
      now rewrite G.
    + cbn [fst]. now rewrite frame_enableEditing.
    + cbn [fst]. simpl body. apply frame_same_bare, bare_disableEditingOn.
  - now rewrite frame_pathObserver, frame_watcherCallback.
  - apply frame_passResumes.
  - reflexivity.
  - reflexivity.
  - unfold onBlur. destruct (hasListeners st el); [apply frame_marked | reflexivity].
  - destruct (hasListeners st el) eqn:L.
    + destruct (hasListeners_node st el L) as (node & N).
      destruct (onInput_effect st el node L N) as (_ & _ & _ & _ & _ & B).
      rewrite B. apply frame_marked.
    + unfold onInput. now rewrite L.
Qed.

Lemma frame_run evs : forall st,
  forallb handled evs = true -> frame (body (run st evs)) = frame (body st).
Proof.
  induction evs as [|ev evs IH]; intros st H; [reflexivity|].
  simpl in H. apply andb_true_iff in H as [H1 H2].
  unfold run in *. cbn [fold_left]. rewrite IH by exact H2. now apply frame_step.
Qed.

Lemma storage_step st ev :
  handledNoInput ev = true -> storage (step st ev) = storage st.
Proof.
  intros H. destruct ev as [r| |k|k|b loc|s|el|el|el]; try discriminate; cbn [step].
  - apply storage_onMessage.
  - now rewrite storage_pathObserver, storage_watcherCallback.
  - apply storage_passResumes.
  - reflexivity.
  - reflexivity.
  - unfold onBlur. now destruct (hasListeners st el).
Qed.

(** X17 -- What the content script never does to the page: from its
    initialisation on, through whatever messages, mutation batches, awaits
    of the watcher's pass fulfilled or rejected, and focus, blur and input
    events it handles, the frame of the document is the one the page made:
    no node is added, removed or moved, and no tag name, ID, name or class is
    changed.  What [enableEditing], [preventActionsOnClass], the
    reconciliation and the listeners write, the data of text nodes, the
    [contenteditable] attribute, the [editReady] and [isEditing] entries,
    the style properties [caretColor], [userSelect] and [cursor], and
    listeners, is what the frame leaves out. *)
Theorem script_keeps_frame st evs :
  forallb handled evs = true ->
  frame (body (run (init st) evs)) = frame (body st).
Proof. intros H. rewrite frame_run by exact H. apply frame_init. Qed.

(** X18 -- Keys are stable under the work of the content script: after
    its initialisation and whatever events it handles, every key decodes to
    the position it decoded to in the document of the page, and every
    position has the key it had. *)
Theorem keys_stable st evs :
  forallb handled evs = true ->
  (forall key, getElementByKey (body (run (init st) evs)) key
               = getElementByKey (body st) key) /\
  (forall el, getKey (body (run (init st) evs)) el = getKey (body st) el).
Proof.
  intros H.
  assert (F : frame (body (run (init st) evs)) = frame (body st))
    by (rewrite frame_run by exact H; apply frame_init).
  split; [intros key; now apply getElementByKey_frame | intros el; now apply getKey_frame].
Qed.

(** X19 -- The content script writes to the storage at [input] events
    only: its initialisation and every other event it handles leave the
    stored flag and the stored edits of every page as they are. *)
Theorem storage_written_at_input_only st evs :
  forallb handledNoInput evs = true ->
  storage (run (init st) evs) = storage st.
Proof.
  intros H. rewrite <- (storage_init st). generalize (init st) as st0.
  induction evs as [|ev evs IH]; intros st0; [reflexivity|].
  simpl in H. apply andb_true_iff in H as [H1 H2].
  unfold run in *. cbn [fold_left]. rewrite (IH H2). now apply storage_step.
Qed.


(* ================================================================== *)
(** ** From typing to the next rendering *)

Lemma obj_get_In {V} (o : JSObject V) k v : obj_get o k = Some v -> In (k, v) o.
Proof.
  induction o as [|[k0 v0] r IH]; [discriminate|]. simpl.
  destruct (String.eqb k0 k) eqn:E.
  - apply String.eqb_eq in E. subst k0. intros [= ->]. now left.
  - intros H. right. now apply IH.
Qed.

Lemma onInput_places st el :
  location (onInput st el) = location st /\
  lastPath (onInput st el) = lastPath st /\
  currentPageKey (onInput st el) = currentPageKey st /\
  watcher (onInput st el) = watcher st.
Proof.
  unfold onInput. destruct (hasListeners st el); [|now repeat split].
  unfold getEditedElementsForPage. cbn.
  destruct (obj_get (editedElementsMap st) (currentPageKey st));
    unfold saveEdit; cbn; destruct (nodeAt _ el); now repeat split.
Qed.

Lemma isElement_stripped c : isElement (stripped c) = isElement c.
Proof. destruct c; reflexivity. Qed.

Lemma children_stripped n : children (stripped n) = map stripped (children n).
Proof.
  destruct n as [d|d|a cs]; try reflexivity.
  unfold children. simpl. apply filter_map_elements, isElement_stripped.
Qed.

Lemma textContent_stripped n : textContent (stripped n) = textContent n.
Proof.
  induction n as [d|d|a cs IH] using Node_ind; try reflexivity.
  simpl. induction IH as [|c r Hc Hr IHr]; [reflexivity|].
  simpl. now rewrite Hc, IHr.
Qed.

Lemma stripped_bare n : stripped (bare n) = stripped n.
Proof.
  induction n as [d|d|a cs IH] using Node_ind; try reflexivity.
  simpl. f_equal. rewrite map_map. induction IH as [|c r Hc Hr IHr]; [reflexivity|].
  simpl. now rewrite Hc, IHr.
Qed.

Lemma stripped_updateNth g i l :
  (forall c, stripped (g c) = stripped c) ->
  map stripped (updateNthElement g i l) = map stripped l.
Proof.
  intros Hg. revert i. induction l as [|n r IH]; intros i; [reflexivity|].
  destruct n as [d|d|a cs]; simpl; try (f_equal; apply IH).
  destruct i as [|i']; simpl; [|f_equal; apply IH].
  f_equal. apply (Hg (Element a cs)).
Qed.

Lemma stripped_updateAt p g n :
  (forall c, stripped (g c) = stripped c) -> stripped (updateAt p g n) = stripped n.
Proof.
  intros Hg. revert n. induction p as [|i p IH]; intros n; simpl; [apply Hg|].
  destruct n as [d|d|a cs]; try reflexivity.
  simpl. f_equal. apply stripped_updateNth. exact IH.
Qed.

(** [enableEditing] and [preventActionsOnClass] change marks only. *)
Lemma stripped_enableEditingOn s b : stripped (enableEditingOn s b) = stripped b.
Proof.
  rewrite <- (stripped_bare (enableEditingOn s b)), <- (stripped_bare b).
  now rewrite bare_enableEditingOn.
Qed.

Lemma stripped_preventActionsOnClassOn s b : stripped (preventActionsOnClassOn s b) = stripped b.
Proof.
  apply (preventActionsOnClassOn_keeps (fun d d' => stripped d' = stripped d)).
  - reflexivity.
  - intros d1 d2 d3 H1 H2. now rewrite H2.
  - intros el d. apply stripped_updateAt. intros c. now destruct c.
Qed.

(** Documents that differ in marks only have the same text at every
    position. *)
Lemma nodeAt_same_stripped d1 d2 p n1 :
  stripped d1 = stripped d2 -> nodeAt d1 p = Some n1 ->
  exists n2, nodeAt d2 p = Some n2 /\ textContent n2 = textContent n1.
Proof.
  intros H N.
  pose proof (nodeAt_transform stripped children_stripped p d1) as E1.
  pose proof (nodeAt_transform stripped children_stripped p d2) as E2.
  rewrite H, E2, N in E1. destruct (nodeAt d2 p) as [n2|]; [|discriminate].
  exists n2. split; [reflexivity|]. simpl in E1. injection E1 as E1.
  now rewrite <- (textContent_stripped n2), E1, textContent_stripped.
Qed.

(** A batch that finds the guard clear and no change of location starts a
    pass and does nothing else. *)
Lemma batch_starts_pass st :
  applying (watcher st) = false -> suspended (watcher st) = [] ->
  location st = lastPath st ->
  body (step st MutationBatch) = body st /\
  storage (step st MutationBatch) = storage st /\
  currentPageKey (step st MutationBatch) = currentPageKey st /\
  requestedKey (step st MutationBatch) = currentPageKey st /\
  applying (watcher (step st MutationBatch)) = true /\
  suspended (watcher (step st MutationBatch)) = [awaitApplyEdits].
Proof.
  intros A S L. cbn [step]. unfold pathObserver, watcherCallback.
  rewrite A. simpl location. simpl lastPath. rewrite L, String.eqb_refl. simpl.
  rewrite A, S. now repeat split.
Qed.

Lemma passResumes_at st stage :
  suspended (watcher st) = [stage] ->
  body (passResumes st 0) = body (passStage stage st) /\
  storage (passResumes st 0) = storage (passStage stage st) /\
  watcher (passResumes st 0) = watcherStep (watcher st) (Resume 0).
Proof. intros S. unfold passResumes. rewrite S. now repeat split. Qed.

Lemma watcherStep_resume w stage :
  suspended w = [stage] ->
  watcherStep w (Resume 0)
  = match stage with
    | awaitApplyEdits =>
        mkWatcher (applying w) [awaitEnableEditing] (started w) (completed w) (failed w)
                  (ignored w)
    | awaitEnableEditing =>
        mkWatcher (applying w) [awaitPreventActions] (started w) (completed w) (failed w)
                  (ignored w)
    | awaitPreventActions =>
        mkWatcher false [] (started w) (S (completed w)) (failed w) (ignored w)
    end.
Proof. intros S. unfold watcherStep. rewrite S. now destruct stage. Qed.

(** A pass whose three awaits are fulfilled, with no change of page since
    it started and nothing in between. *)
Lemma pass_runs st :
  suspended (watcher st) = [awaitApplyEdits] ->
  requestedKey st = currentPageKey st ->
  let st' := run st [PassResumes 0; PassResumes 0; PassResumes 0] in
  body st'
  = preventActionsOnClassOn (storage st)
      (enableEditingOn (storage st) (fst (applyEditsOn (getSavedEdits st) (body st)))) /\
  applying (watcher st') = false /\
  suspended (watcher st') = [] /\
  completed (watcher st') = S (completed (watcher st)).
Proof.
  intros S0 R. unfold run. cbn [fold_left step].
  set (st1 := passResumes st 0). set (st2 := passResumes st1 0).
  destruct (passResumes_at st _ S0) as (B1 & G1 & W1). fold st1 in B1, G1, W1.
  rewrite (watcherStep_resume _ _ S0) in W1.
  assert (S1 : suspended (watcher st1) = [awaitEnableEditing]) by now rewrite W1.
  destruct (passResumes_at st1 _ S1) as (B2 & G2 & W2). fold st2 in B2, G2, W2.
  rewrite (watcherStep_resume _ _ S1) in W2.
  assert (S2 : suspended (watcher st2) = [awaitPreventActions]) by now rewrite W2.
  destruct (passResumes_at st2 _ S2) as (B3 & G3 & W3).
  rewrite (watcherStep_resume _ _ S2) in W3.
  cbn [passStage] in *.
  assert (A1 : body st1 = fst (applyEditsOn (getSavedEdits st) (body st)) /\
               storage st1 = storage st).
  { rewrite B1, G1. unfold applyEditsAsked. rewrite R, String.eqb_refl.
    unfold applyEdits. now destruct (applyEditsOn _ _). }
  destruct A1 as [A1 A2].
  set (st3 := passResumes st2 0) in *. clearbody st3 st2 st1.
  simpl in G2, B2, B3. rewrite B3, W3, G2, B2, A2, A1.
  repeat split; try reflexivity. simpl. now rewrite W2, W1.
Qed.

(** X20 -- What the user typed comes back after the page renders again.
    After the handler of an [input] event at an initialised element has run
    to its end, so that its write to the storage has landed, with no change
    of location pending and the watcher idle (guard clear, no pass in
    flight): when the page replaces the document by one in which the key of
    the element locates an element that has a text node and is not being
    edited, and the stored edits of the page meet the conditions of X11
    there, then the next mutation batch starts a pass, and once the three
    awaits of that pass are fulfilled, with nothing else in between, that
    element shows the trimmed text that the edited element had at the
    [input] event, and the guard is clear again. *)
Theorem edit_survives_rerender st el node b2 el2 node2 :
  hasListeners st el = true ->
  nodeAt (body st) el = Some node ->
  location st = lastPath st ->
  applying (watcher st) = false ->
  suspended (watcher st) = [] ->
  StoredTrimmed (getSavedEdits (onInput st el)) ->
  LeafTargets (getSavedEdits (onInput st el)) b2 ->
  Unambiguous (getSavedEdits (onInput st el)) b2 ->
  getElementByKey b2 (getKey (body st) el) = Some el2 ->
  nodeAt b2 el2 = Some node2 ->
  dataIsEditing node2 <> Some "true" ->
  textNodes node2 = 1%nat ->
  let st' := run (onInput st el)
               [HostChange b2 (location st); MutationBatch;
                PassResumes 0; PassResumes 0; PassResumes 0] in
  (exists node3,
     nodeAt (body st') el2 = Some node3 /\
     trim (textContent node3) = trim (textContent node)) /\
  applying (watcher st') = false.
Proof.
  intros L N P A S T Lf U K N2 Ed Tn.
  destruct (onInput_effect st el node L N) as (G & _).
  apply obj_get_In in G.
  destruct (onInput_places st el) as (P1 & P2 & P3 & P4).
  destruct (applyEditsOn_restores _ _ _ _ _ _ T Lf U G K N2 Ed Tn) as (node' & N' & T' & _).
  set (stH := step (onInput st el) (HostChange b2 (location st))).
  assert (H1 : applying (watcher stH) = false) by (unfold stH; simpl; now rewrite P4).
  assert (H2 : suspended (watcher stH) = []) by (unfold stH; simpl; now rewrite P4).
  assert (H3 : location stH = lastPath stH) by (unfold stH; simpl; now rewrite P2).
  destruct (batch_starts_pass stH H1 H2 H3) as (B1 & B2 & B3 & B4 & _ & B6).
  set (stB := step stH MutationBatch) in *.
  assert (R : requestedKey stB = currentPageKey stB) by now rewrite B4, B3.
  destruct (pass_runs stB B6 R) as (Q1 & Q2 & _).
  intros st'.
  assert (E : st' = run stB [PassResumes 0; PassResumes 0; PassResumes 0]) by reflexivity.
  rewrite E. split; [|exact Q2]. rewrite Q1.
  assert (Ge : getSavedEdits stB = getSavedEdits (onInput st el)).
  { unfold getSavedEdits. now rewrite B2, B3. }
  rewrite Ge, B1.
  change (body stH) with b2.
  set (d := fst (applyEditsOn (getSavedEdits (onInput st el)) b2)) in *.
  assert (C : stripped d
              = stripped (preventActionsOnClassOn (storage stB)
                           (enableEditingOn (storage stB) d)))
    by now rewrite stripped_preventActionsOnClassOn, stripped_enableEditingOn.
  destruct (nodeAt_same_stripped _ _ el2 node' C N') as (node3 & N3 & T3).
  exists node3. split; [exact N3|]. now rewrite T3.
Qed.


(* ================================================================== *)
(** ** The guard in the content script *)

Lemma watcher_applyEdits st :
  watcher (fst (applyEdits st)) = watcher st /\
  requestedKey (fst (applyEdits st)) = requestedKey st /\
  currentPageKey (fst (applyEdits st)) = currentPageKey st.
Proof. unfold applyEdits. now destruct (applyEditsOn _ _). Qed.

Lemma watcher_pathObserver st :
  watcher (pathObserver st) = watcher st /\
  requestedKey (pathObserver st) = requestedKey st.
Proof.
  unfold pathObserver.
  destruct (negb (String.eqb (location st) (lastPath st))); [|now split].
  unfold getEditedElementsForPage. cbn.
  destruct (obj_get (editedElementsMap st) (location st));
    match goal with |- context [applyEdits ?y] =>
      destruct (watcher_applyEdits y) as (W1 & W2 & _) end;
    cbn [preventActionsOnClass enableEditing with_body watcher requestedKey];
    rewrite W1, W2; now split.
Qed.

Lemma watcher_onMessage st r : watcher (fst (onMessage st r)) = watcher st.
Proof.
  destruct r as [| |[|]]; cbn [onMessage]; try reflexivity;
    unfold getEditedElementsForPage; now destruct (obj_get _ _).
Qed.

(** Every event steps the closure of the watcher as [watcherStep] does, or
    leaves it alone. *)
Lemma watcher_step st ev :
  watcher (step st ev)
  = match ev with
    | MutationBatch => watcherStep (watcher st) Batch
    | PassResumes k => watcherStep (watcher st) (Resume k)
    | PassRejected k => watcherStep (watcher st) (Reject k)
    | _ => watcher st
    end.
Proof.
  destruct ev as [r| |k|k|b loc|s|el|el|el]; cbn [step]; try reflexivity.
  - apply watcher_onMessage.
  - destruct (watcher_pathObserver (watcherCallback st)) as [W _]. rewrite W.
    unfold watcherCallback. now destruct (applying (watcher st)).
  - unfold onBlur. now destruct (hasListeners st el).
  - destruct (onInput_places st el) as (_ & _ & _ & W). exact W.
Qed.

Lemma guarded_script evs : forall st,
  guarded (watcher st) -> guarded (watcher (run st evs)).
Proof.
  induction evs as [|ev evs IH]; intros st G; [exact G|].
  unfold run in *. cbn [fold_left]. apply IH. rewrite watcher_step.
  destruct ev; try exact G; now apply guarded_step.
Qed.

(** X21 -- The guard of the watcher in the content script.  From the
    initialisation on, whatever happens, at most one pass of the watcher is
    in flight, the guard is set while there is one, and the passes started
    are those completed, those ended by a rejected [await] and the one in
    flight.  A batch that finds the guard set, with no change of location to
    see, changes nothing but the count of ignored batches. *)
Theorem script_watcher_guarded st evs :
  let now := run (init st) evs in
  (List.length (suspended (watcher now)) <= 1)%nat /\
  (suspended (watcher now) <> [] -> applying (watcher now) = true) /\
  started (watcher now)
  = (completed (watcher now) + failed (watcher now)
     + List.length (suspended (watcher now)))%nat /\
  (applying (watcher now) = true -> location now = lastPath now ->
   step now MutationBatch
   = with_watcher (mkWatcher true (suspended (watcher now)) (started (watcher now))
                             (completed (watcher now)) (failed (watcher now))
                             (S (ignored (watcher now)))) now).
Proof.
  intros now.
  assert (G : guarded (watcher now)).
  { apply guarded_script. unfold init. destruct (getEditedElementsForPage st).
    apply guarded_startObservers. }
  destruct G as (L & A & _ & S). split; [exact L|]. split; [exact A|]. split; [exact S|].
  intros Ap Lo. cbn [step]. unfold watcherCallback, pathObserver. rewrite Ap.
  cbn [with_watcher location lastPath]. rewrite Lo, String.eqb_refl.
  cbn [negb watcherStep]. now rewrite Ap.
Qed.

Lemma pathObserver_key st :
  location st <> lastPath st -> currentPageKey (pathObserver st) = location st.
Proof.
  intros L. unfold pathObserver. apply String.eqb_neq in L. rewrite L. cbn [negb].
  match goal with |- context [getEditedElementsForPage ?x] =>
    destruct (pending_getEditedElementsForPage x) as (_ & _ & K);
    destruct (getEditedElementsForPage x) as [st2 s2] end.
  cbn [fst] in K.
  match goal with |- context [applyEdits ?y] =>
    destruct (watcher_applyEdits y) as (_ & _ & W3) end.
  cbn [preventActionsOnClass enableEditing with_body currentPageKey].
  rewrite W3. exact K.
Qed.

Lemma watcherCallback_places st :
  location (watcherCallback st) = location st /\
  lastPath (watcherCallback st) = lastPath st.
Proof. unfold watcherCallback. now destruct (applying (watcher st)). Qed.

(** X22 -- A pass does not carry the edits of one page into another.  When
    a batch arrives with the watcher idle and the location changed to a page
    other than the current one, the pass that the batch starts has asked the
    storage for the edits of the page that was left; the path observer makes
    the new location the current page key, and when the [applyEdits] of the
    pass is fulfilled it finds no entry for the current page in the answer
    and writes nothing: document, storage and tracker are as the batch left
    them. *)
Theorem pass_across_navigation_applies_nothing st :
  applying (watcher st) = false ->
  suspended (watcher st) = [] ->
  location st <> lastPath st ->
  location st <> currentPageKey st ->
  let st1 := step st MutationBatch in
  currentPageKey st1 = location st /\
  requestedKey st1 = currentPageKey st /\
  suspended (watcher st1) = [awaitApplyEdits] /\
  step st1 (PassResumes 0)
  = with_watcher (watcherStep (watcher st1) (Resume 0)) st1.
Proof.
  intros A S L C st1.
  assert (W : watcher st1 = watcherStep (watcher st) Batch) by apply watcher_step.
  assert (R : requestedKey st1 = currentPageKey st).
  { unfold st1. cbn [step]. destruct (watcher_pathObserver (watcherCallback st)) as [_ R].
    rewrite R. unfold watcherCallback. now rewrite A. }
  assert (K : currentPageKey st1 = location st).
  { unfold st1. cbn [step]. destruct (watcherCallback_places st) as [P1 P2].
    rewrite pathObserver_key; [exact P1 | now rewrite P1, P2]. }
  assert (Su : suspended (watcher st1) = [awaitApplyEdits]).
  { rewrite W. cbn [watcherStep]. rewrite A, S. reflexivity. }
  split; [exact K|]. split; [exact R|]. split; [exact Su|].
  cbn [step]. unfold passResumes. rewrite Su. cbn [nth_error passStage].
  unfold applyEditsAsked. rewrite R, K.
  assert (E : String.eqb (currentPageKey st) (location st) = false)
    by (apply String.eqb_neq; congruence).
  now rewrite E.
Qed.

End ContentScript.

(* ================================================================== *)
(** ** The statements at concrete inputs

    Below, a number of magnitude [2^53] or more is spelt as [decimalZ]
    spells it; no such number occurs. *)

Local Open Scope list_scope.

(** C2 as stated fails: the key [SPAN:0] names a [span], and decoding
    returns the [div] that is the first element child of [document.body]. *)
Lemma getElementByKey_wrong_tag :
  getElementByKey decimalZ doc_div "SPAN:0" = Some [0] /\
  option_map tagName (attrsAt doc_div [0]) = Some "DIV".
Proof. split; reflexivity. Qed.

(** C4 as stated fails: the user is typing into the [span], whose marker
    is [true]; the entry stored for the [span] is passed over, but the entry
    stored for the [div] around it finds no marker on the [div] and writes
    the first text node below it, which is the text of the [span]. *)
Lemma applyEdits_overwrites_edited_descendant :
  option_map dataIsEditing (nodeAt doc_typing [0; 0]) = Some (Some "true") /\
  option_map textContent (nodeAt doc_typing [0; 0]) = Some "typing" /\
  snd (applyEditsOn decimalZ [("DIV:0", "stale"); ("DIV:0>SPAN:0", "old")] doc_typing)
  = [([0], "stale")] /\
  option_map textContent
    (nodeAt (fst (applyEditsOn decimalZ [("DIV:0", "stale"); ("DIV:0>SPAN:0", "old")]
                    doc_typing)) [0; 0])
  = Some "stale".
Proof. repeat split; reflexivity. Qed.

(** C5 as stated fails: the [span] holds two text nodes, [a] and [b], and
    the stored text is [x].  The first pass writes [x] over [a]; the text is
    then [xb], which still differs from [x], and the second pass writes
    again. *)
Lemma applyEdits_second_pass_writes :
  applyEditsOn decimalZ [("SPAN:0", "x")] doc_two_texts
  = (plain "BODY" [plain "SPAN" [Text "x"; Text "b"]], [([0], "x")]) /\
  applyEditsOn decimalZ [("SPAN:0", "x")]
    (fst (applyEditsOn decimalZ [("SPAN:0", "x")] doc_two_texts))
  = (plain "BODY" [plain "SPAN" [Text "x"; Text "b"]], [([0], "x")]).
Proof. split; reflexivity. Qed.

(** C7 as stated fails: the index field [0abc] is not a number, yet
    [parseInt] reads 0 in it; the key decodes to the first element child and
    its entry is applied. *)
Lemma getElementByKey_reads_prefix :
  indexField "DIV:0abc" = Some "0abc" /\
  parseInt "0abc" = Some 0%Z /\
  getElementByKey decimalZ doc_div "DIV:0abc" = Some [0] /\
  applyEditsOn decimalZ [("DIV:0abc", "Bye")] doc_div
  = (plain "BODY" [plain "DIV" [Text "Bye"]], [([0], "Bye")]).
Proof. repeat split; reflexivity. Qed.

(** An index that is no array index is a property name: [-1] finds the
    element whose ID is [-1]. *)
Example getElementByKey_by_name :
  getElementByKey decimalZ doc_named "DIV:-1" = Some [1] /\
  getElementByKey decimalZ doc_div "DIV:-1" = None /\
  getElementByKey decimalZ doc_div "DIV:4294967295" = None /\
  getElementByKey decimalZ doc_div "DIV:1" = None.
Proof. repeat split; reflexivity. Qed.

(** The scenario of the specification: the stored text is [Hello], the live
    text is [Hello World]; the text is overwritten unless the element is
    being edited. *)
Example applyEdits_scenario :
  let live a := plain "BODY"
                  [plain "DIV" [plain "SPAN" [Text "a"]; plain "SPAN" [Text "b"];
                                Element a [Text "Hello World"]]] in
  let idle := mkAttrs "SPAN" "" "" [] (Some "true") (Some "true") (Some "false") 1
                      (Some "#000") (Some "text") (Some "text") 0 in
  let busy := mkAttrs "SPAN" "" "" [] (Some "true") (Some "true") (Some "true") 1
                      (Some "#000") (Some "text") (Some "text") 0 in
  applyEditsOn decimalZ [("DIV:0>SPAN:2", "Hello")] (live idle)
  = (plain "BODY"
       [plain "DIV" [plain "SPAN" [Text "a"]; plain "SPAN" [Text "b"];
                     Element idle [Text "Hello"]]],
     [([0; 2], "Hello")]) /\
  applyEditsOn decimalZ [("DIV:0>SPAN:2", "Hello")] (live busy) = (live busy, []).
Proof. split; reflexivity. Qed.

(** C7 at a key without a number. *)
Lemma malformed_key_skipped_witness :
  Malformed decimalZ doc_div (split ">" "DIV:x") /\
  getElementByKey decimalZ doc_div "DIV:x" = None /\
  forall before newText after,
    applyEditsOn decimalZ (before ++ ("DIV:x", newText) :: after) doc_div
    = applyEditsOn decimalZ (before ++ after) doc_div.
Proof.
  assert (M : Malformed decimalZ doc_div (split ">" "DIV:x"))
    by (apply non_numeric; reflexivity).
  split; [exact M|]. exact (malformed_key_skipped decimalZ doc_div "DIV:x" M).
Defined.

(** C5 at a leaf text host: the first pass writes, the second does not. *)
Lemma applyEdits_second_pass_silent_witness :
  StoredTrimmed [("DIV:0>SPAN:0", "Bye")] /\
  LeafTargets decimalZ [("DIV:0>SPAN:0", "Bye")] doc_editable /\
  Unambiguous decimalZ [("DIV:0>SPAN:0", "Bye")] doc_editable /\
  snd (applyEditsOn decimalZ [("DIV:0>SPAN:0", "Bye")] doc_editable) = [([0; 0], "Bye")] /\
  applyEditsOn decimalZ [("DIV:0>SPAN:0", "Bye")]
    (fst (applyEditsOn decimalZ [("DIV:0>SPAN:0", "Bye")] doc_editable))
  = (fst (applyEditsOn decimalZ [("DIV:0>SPAN:0", "Bye")] doc_editable), []).
Proof.
  assert (T : StoredTrimmed [("DIV:0>SPAN:0", "Bye")]).
  { intros key text [[= <- <-]|[]]. reflexivity. }
  assert (L : LeafTargets decimalZ [("DIV:0>SPAN:0", "Bye")] doc_editable).
  { intros key text el node [[= <- <-]|[]] K N.
    vm_compute in K. injection K as <-. vm_compute in N. injection N as <-.
    split; [reflexivity | simpl; lia]. }
  assert (U : Unambiguous decimalZ [("DIV:0>SPAN:0", "Bye")] doc_editable).
  { intros key1 text1 key2 text2 el [[= <- <-]|[]] [[= <- <-]|[]] _ _. reflexivity. }
  split; [exact T|]. split; [exact L|]. split; [exact U|]. split; [reflexivity|].
  exact (applyEdits_second_pass_silent decimalZ _ _ T L U).
Defined.

(** C1 at the enabled [span] of [doc_enabled]: off, then on. *)
Lemma setEditingState_off_on_witness :
  attrsAt (body state_enabled) [0; 0] = Some span_enabled /\
  contenteditable span_enabled = Some "true" /\
  (let off := fst (onMessage decimalZ state_enabled (setEditingState false)) in
   let on := fst (onMessage decimalZ (with_storage storage_empty off) (setEditingState true)) in
   let a' := with_editReady "false" (with_contenteditable "false" span_enabled) in
   attrsAt (body off) [0; 0] = Some a' /\
   attrsAt (body on) [0; 0] = Some a' /\
   contenteditable a' = Some "false" /\
   truthyU (editReady a') = true).
Proof.
  split; [reflexivity|]. split; [reflexivity|].
  exact (setEditingState_off_on decimalZ state_enabled storage_empty [0; 0] span_enabled
           eq_refl eq_refl).
Defined.

(** The same through the popup: two clicks on the toggle button leave the
    [span] with [contenteditable="false"], the stored flag being [true]
    again. *)
Example toggleBtn_click_twice :
  let off := toggleBtn_click decimalZ state_enabled in
  let on := toggleBtn_click decimalZ off in
  storedEditingEnabled (storage off) = Some false /\
  storedEditingEnabled (storage on) = Some true /\
  option_map contenteditable (attrsAt (body off) [0; 0]) = Some (Some "false") /\
  option_map contenteditable (attrsAt (body on) [0; 0]) = Some (Some "false") /\
  option_map editReady (attrsAt (body on) [0; 0]) = Some (Some "false").
Proof. repeat split; reflexivity. Qed.

(** The enable path does make the [span] of [doc_editable] editable the
    first time. *)
Example enableEditing_first_time :
  enableEditingOn storage_empty doc_editable = doc_enabled.
Proof. reflexivity. Qed.

(** C6 at a page on which a key was tracked before the location changed. *)
Lemma navigation_clears_pending_witness :
  location state_navigated <> lastPath state_navigated /\
  (let st' := pathObserver decimalZ state_navigated in
   currentPageKey st' = location state_navigated /\
   lastPath st' = location state_navigated /\
   obj_get (editedElementsMap st') (currentPageKey st') = Some [] /\
   forall evs, forallb (fun ev => negb (isInput ev)) evs = true ->
     snd (onMessage decimalZ (run decimalZ st' evs) getEditedElements) = editedElements []).
Proof.
  assert (D : location state_navigated <> lastPath state_navigated) by discriminate.
  split; [exact D|]. exact (navigation_clears_pending decimalZ state_navigated D).
Defined.

(** Until the observer runs, the key tracked for the page that was left is
    still reported; after it has run, an [input] event is reported again. *)
Example getEditedElements_around_navigation :
  snd (onMessage decimalZ state_navigated getEditedElements)
  = editedElements [("DIV:0>SPAN:0", "Hello")] /\
  snd (onMessage decimalZ (pathObserver decimalZ state_navigated) getEditedElements)
  = editedElements [] /\
  snd (onMessage decimalZ
         (run decimalZ (pathObserver decimalZ state_navigated) [Input [0; 0]])
         getEditedElements)
  = editedElements [("DIV:0>SPAN:0", "Hello")].
Proof. repeat split; reflexivity. Qed.

(** C8 at a batch of one key, next to a stored key and a stored page. *)
Lemma save_overwrites_only_batch_witness :
  let s := mkStorage None [("https://example.org/a", [("DIV:0>SPAN:1", "old")]);
                           ("https://example.org/b", [("DIV:0>SPAN:0", "other")])] in
  let batch := [("DIV:0>SPAN:0", " Hi ")] in
  NoDup (obj_keys batch) /\
  (let previous := popup_getSavedEdits "https://example.org/a" s in
   let saved := popup_getSavedEdits "https://example.org/a"
                  (saveBtn_store "https://example.org/a" batch s) in
   (forall key text, In (key, text) batch -> trim text <> "" ->
      obj_get saved key = Some (trim text)) /\
   (forall key, ~ In key (obj_keys batch) -> obj_get saved key = obj_get previous key) /\
   (forall page, page <> "https://example.org/a" ->
      obj_get (storedPages (saveBtn_store "https://example.org/a" batch s)) page
      = obj_get (storedPages s) page)).
Proof.
  assert (N : NoDup (obj_keys [("DIV:0>SPAN:0", " Hi ")])).
  { constructor; [intros [] | constructor]. }
  split; [exact N|].
  exact (save_overwrites_only_batch "https://example.org/a" [("DIV:0>SPAN:0", " Hi ")]
           (mkStorage None [("https://example.org/a", [("DIV:0>SPAN:1", "old")]);
                            ("https://example.org/b", [("DIV:0>SPAN:0", "other")])]) N).
Defined.

Example saveBtn_store_example :
  saveBtn_store "https://example.org/a" [("DIV:0>SPAN:0", " Hi "); ("DIV:0>SPAN:2", "  ")]
    (mkStorage None [("https://example.org/a", [("DIV:0>SPAN:1", "old")])])
  = mkStorage None
      [("https://example.org/a", [("DIV:0>SPAN:1", "old"); ("DIV:0>SPAN:0", "Hi")])].
Proof. reflexivity. Qed.

(** The round trip at the [span] of [doc_editable]. *)
Lemma getKey_roundtrip_witness :
  [0; 0]%nat <> [] /\
  nodeAt doc_editable [0; 0] = Some (plain "SPAN" [Text "Hello"]) /\
  Forall (fun t => occurs ":" t = false /\ occurs ">" t = false) (tagsAlong doc_editable [0; 0]) /\
  Forall (fun i => (Z.of_nat i < 4294967295)%Z) [0; 0]%nat /\
  getKey doc_editable [0; 0] = "DIV:0>SPAN:0" /\
  getElementByKey decimalZ doc_editable (getKey doc_editable [0; 0]) = Some [0; 0].
Proof.
  assert (H1 : [0; 0]%nat <> []) by discriminate.
  assert (H3 : Forall (fun t => occurs ":" t = false /\ occurs ">" t = false)
                      (tagsAlong doc_editable [0; 0])).
  { repeat constructor. }
  assert (H4 : Forall (fun i => (Z.of_nat i < 4294967295)%Z) [0; 0]%nat).
  { repeat constructor. }
  split; [exact H1|]. split; [reflexivity|]. split; [exact H3|]. split; [exact H4|].
  split; [reflexivity|].
  exact (getKey_roundtrip decimalZ doc_editable [0; 0] _ H1 eq_refl H3 H4).
Defined.

(** The guard through a storm: one batch starts a pass, three more arrive
    while it runs and are ignored, the pass completes, and the next batch
    starts the second pass.  After a rejected [await] the guard stays set
    and every later batch is ignored. *)
Example watcher_storm :
  watcherRun startObservers
    [Batch; Batch; Resume 0; Batch; Resume 0; Batch; Resume 0]
  = mkWatcher false [] 1 1 0 3 /\
  watcherRun startObservers
    [Batch; Batch; Resume 0; Batch; Resume 0; Batch; Resume 0; Batch]
  = mkWatcher true [awaitApplyEdits] 2 1 0 3 /\
  watcherRun startObservers [Batch; Reject 0; Batch; Batch]
  = mkWatcher true [] 1 0 1 2.
Proof. repeat split; reflexivity. Qed.

(** Each condition of [applyEdits_second_pass_silent] is needed: a stored
    text with white space around it, two keys that locate one element with
    different texts, and a key that locates an element with an element
    child that another key locates, each make the second pass write. *)
Example applyEdits_second_pass_conditions :
  let twice edits d := snd (applyEditsOn decimalZ edits (fst (applyEditsOn decimalZ edits d))) in
  twice [("DIV:0>SPAN:0", " x")] doc_editable = [([0; 0], " x")] /\
  twice [("DIV:0>SPAN:0", "x"); ("A:0>B:0", "y")] doc_editable
  = [([0; 0], "x"); ([0; 0], "y")] /\
  twice [("DIV:0", "x"); ("DIV:0>SPAN:0", "y")] doc_editable
  = [([0], "x"); ([0; 0], "y")].
Proof. repeat split; reflexivity. Qed.

(** Entries with keys that do not decode are passed over, the others
    applied. *)
Example applyEdits_skips_malformed :
  applyEditsOn decimalZ [("DIV:9", "x"); ("DIV", "x"); ("", "x"); ("DIV:0", "Bye")] doc_div
  = (plain "BODY" [plain "DIV" [Text "Bye"]], [([0], "Bye")]).
Proof. reflexivity. Qed.

(** [parseInt], [split] and [trim] on small inputs. *)
Example parseInt_examples :
  parseInt "12" = Some 12%Z /\ parseInt " 7" = Some 7%Z /\ parseInt "+5" = Some 5%Z /\
  parseInt "-3" = Some (-3)%Z /\ parseInt "1e3" = Some 1%Z /\ parseInt "0x10" = Some 0%Z /\
  parseInt "" = None /\ parseInt "x1" = None /\ parseInt "- 1" = None /\
  parseInt (toStringU None) = None.
Proof. repeat split; reflexivity. Qed.

Example split_trim_examples :
  split ">" "DIV:0>SPAN:2" = ["DIV:0"; "SPAN:2"] /\ split ">" "" = [""] /\
  split ":" "O:P:0" = ["O"; "P"; "0"] /\ indexField "SPAN" = None /\
  trim "  Hello World " = "Hello World" /\ trim "   " = "" /\
  join ">" ["DIV:0"; "SPAN:2"] = "DIV:0>SPAN:2".
Proof. repeat split; reflexivity. Qed.

(** What the failed round trip costs.  The user types [Bye] into the enabled
    [span]; the [input] listener stores the text under the key of the
    element; the page then renders the original content again.  Below a
    [div] the pass restores [Bye]; below [<o:p>] the stored key does not
    decode and the pass writes nothing. *)
Example edit_restored_or_lost :
  let typed outer :=
    mkState (enableEditingOn storage_empty
               (plain "BODY"
                  [plain outer
                     [Element (mkAttrs "DIV" "" "" ["_1b33"] None None None 0 None None None 0)
                              [plain "SPAN" [Text "Bye"]]]]))
            "https://example.org/a" storage_empty true
            "https://example.org/a" [] "https://example.org/a" startObservers "" in
  let rendered outer :=
    plain "BODY"
      [plain outer
         [Element (mkAttrs "DIV" "" "" ["_1b33"] None None None 0 None None None 0)
                  [plain "SPAN" [Text "Hello"]]]] in
  let later outer :=
    run decimalZ (typed outer)
        [Input [0; 0; 0]; HostChange (rendered outer) "https://example.org/a"] in
  getSavedEdits (later "DIV") = [("DIV:0>DIV:0>SPAN:0", "Bye")] /\
  snd (applyEdits decimalZ (later "DIV")) = [([0; 0; 0], "Bye")] /\
  getSavedEdits (later "O:P") = [("O:P:0>DIV:0>SPAN:0", "Bye")] /\
  snd (applyEdits decimalZ (later "O:P")) = [].
Proof. repeat split; reflexivity. Qed.

(* ------------------------------------------------------------------ *)
(** *** The editability manager, keys and the save path at concrete inputs *)

(** X3 at the [span] of [doc_editable]: it is matched and eligible, and
    gets the attributes of [span_enabled]. *)
Lemma enableEditing_exact_witness :
  isEditingEnabled storage_empty = true /\
  nodeAt doc_editable [0; 0] = Some (plain "SPAN" [Text "Hello"]) /\
  attrsAt (enableEditingOn storage_empty doc_editable) [0; 0] = Some span_enabled.
Proof.
  split; [reflexivity|]. split; [reflexivity|].
  exact (enableEditing_exact storage_empty doc_editable [0; 0]
           (plain "SPAN" [Text "Hello"]) _ eq_refl eq_refl eq_refl).
Defined.

(** X7 at the two children of the body of [doc_named]. *)
Lemma getKey_injective_witness :
  nodeAt doc_named [0] = Some (plain "DIV" [Text "Hello"]) /\
  nodeAt doc_named [1] = Some (Element (mkAttrs "P" "-1" "" [] None None None 0 None None None 0) [Text "Bye"]) /\
  Forall (fun t => occurs ">" t = false) (tagsAlong doc_named [0]) /\
  Forall (fun t => occurs ">" t = false) (tagsAlong doc_named [1]) /\
  (getKey doc_named [0] = getKey doc_named [1] -> [0%nat] = [1%nat]) /\
  (getKey doc_named [0] = ""%string <-> [0%nat] = []).
Proof.
  assert (T0 : Forall (fun t => occurs ">" t = false) (tagsAlong doc_named [0]))
    by (repeat constructor).
  assert (T1 : Forall (fun t => occurs ">" t = false) (tagsAlong doc_named [1]))
    by (repeat constructor).
  split; [reflexivity|]. split; [reflexivity|]. split; [exact T0|]. split; [exact T1|].
  exact (getKey_injective doc_named [0] [1] _ _ eq_refl eq_refl T0 T1).
Defined.


(** X11 at [doc_editable] with [Bye] stored for its [span]. *)
Lemma applyEdits_restores_witness :
  StoredTrimmed [("DIV:0>SPAN:0", "Bye")] /\
  LeafTargets decimalZ [("DIV:0>SPAN:0", "Bye")] doc_editable /\
  Unambiguous decimalZ [("DIV:0>SPAN:0", "Bye")] doc_editable /\
  getElementByKey decimalZ doc_editable "DIV:0>SPAN:0" = Some [0; 0] /\
  nodeAt doc_editable [0; 0] = Some (plain "SPAN" [Text "Hello"]) /\
  exists node',
    nodeAt (fst (applyEditsOn decimalZ [("DIV:0>SPAN:0", "Bye")] doc_editable)) [0; 0]
    = Some node' /\
    trim (textContent node') = "Bye"%string /\
    skeleton node' = skeleton (plain "SPAN" [Text "Hello"]).
Proof.
  assert (T : StoredTrimmed [("DIV:0>SPAN:0", "Bye")]).
  { intros key text [[= <- <-]|[]]. reflexivity. }
  assert (L : LeafTargets decimalZ [("DIV:0>SPAN:0", "Bye")] doc_editable).
  { intros key text el node [[= <- <-]|[]] K N.
    vm_compute in K. injection K as <-. vm_compute in N. injection N as <-.
    split; [reflexivity | simpl; lia]. }
  assert (U : Unambiguous decimalZ [("DIV:0>SPAN:0", "Bye")] doc_editable).
  { intros key1 text1 key2 text2 el [[= <- <-]|[]] [[= <- <-]|[]] _ _. reflexivity. }
  assert (E : dataIsEditing (plain "SPAN" [Text "Hello"]) <> Some "true"%string)
    by discriminate.
  split; [exact T|]. split; [exact L|]. split; [exact U|].
  split; [reflexivity|]. split; [reflexivity|].
  exact (applyEdits_restores decimalZ [("DIV:0>SPAN:0", "Bye")] doc_editable
           "DIV:0>SPAN:0" "Bye" [0; 0] (plain "SPAN" [Text "Hello"])
           T L U (or_introl eq_refl) eq_refl eq_refl E eq_refl).
Defined.

(** X12 at a first batch whose [applyEdits] is rejected: the two batches
    that follow are ignored. *)
Lemma watcher_stuck_after_rejection_witness :
  suspended (watcherRun startObservers [Batch]) = [awaitApplyEdits] /\
  (let w := watcherRun startObservers [Batch] in
   let w' := watcherRun (watcherStep w (Reject 0)) [Batch; Resume 0; Batch] in
   applying w' = true /\ suspended w' = [] /\
   started w' = started w /\ completed w' = completed w /\
   failed w' = S (failed w) /\
   ignored w' = (ignored w + List.length (filter isBatch [Batch; Resume 0; Batch]))%nat).
Proof.
  split; [reflexivity|].
  exact (watcher_stuck_after_rejection [Batch] awaitApplyEdits [Batch; Resume 0; Batch]
           eq_refl).
Defined.

(** X13 at a page with editing switched off: a mutation batch, the message
    that switches editing on, and a focus event. *)
Lemma disabled_makes_nothing_editable_witness :
  isEditingEnabled (storage state_disabled) = false /\
  forallb handled [MutationBatch; Message (setEditingState true); Focus [0; 0]] = true /\
  isEditingEnabled
    (storage (run decimalZ state_disabled
                [MutationBatch; Message (setEditingState true); Focus [0; 0]])) = false /\
  forall p,
    editableAt (body (run decimalZ state_disabled
                        [MutationBatch; Message (setEditingState true); Focus [0; 0]])) p
    = true ->
    editableAt (body state_disabled) p = true.
Proof.
  split; [reflexivity|]. split; [reflexivity|].
  exact (disabled_makes_nothing_editable decimalZ state_disabled
           [MutationBatch; Message (setEditingState true); Focus [0; 0]] eq_refl eq_refl).
Defined.

(** The save button at the enabled [span] after an [input] event: the text
    is stored under the page key of the popup and the tracker is empty. *)
Example saveBtn_click_example :
  let st := onInput state_enabled [0; 0] in
  let st' := saveBtn_click decimalZ "https://example.org/a" st in
  pending st = ["DIV:0>SPAN:0"%string] /\
  snd (onMessage decimalZ st getEditedElements) = editedElements [("DIV:0>SPAN:0", "Hello")] /\
  popup_getSavedEdits "https://example.org/a" (storage st') = [("DIV:0>SPAN:0", "Hello")] /\
  pending st' = [].
Proof. repeat split; reflexivity. Qed.

(** X17 at [doc_editable]: initialisation, a mutation batch and its pass,
    an input at the [span] that has become editable, and the message that
    switches editing off. *)
Lemma script_keeps_frame_witness :
  forallb handled [MutationBatch; PassResumes 0; PassResumes 0; PassResumes 0;
                   Input [0; 0]; Message (setEditingState false)] = true /\
  frame (body (run decimalZ
                 (init decimalZ
                    (mkState doc_editable "https://example.org/a" storage_empty true
                             "https://example.org/a" [] "https://example.org/a"
                             startObservers ""))
                 [MutationBatch; PassResumes 0; PassResumes 0; PassResumes 0;
                  Input [0; 0]; Message (setEditingState false)]))
  = frame doc_editable.
Proof.
  split; [reflexivity|].
  exact (script_keeps_frame decimalZ
           (mkState doc_editable "https://example.org/a" storage_empty true
                    "https://example.org/a" [] "https://example.org/a" startObservers "")
           [MutationBatch; PassResumes 0; PassResumes 0; PassResumes 0;
            Input [0; 0]; Message (setEditingState false)] eq_refl).
Defined.

(** X18 at [state_enabled] and the key of its [span]. *)
Lemma keys_stable_witness :
  forallb handled [Input [0; 0]; MutationBatch] = true /\
  getElementByKey decimalZ
    (body (run decimalZ (init decimalZ state_enabled) [Input [0; 0]; MutationBatch]))
    "DIV:0>SPAN:0"
  = getElementByKey decimalZ (body state_enabled) "DIV:0>SPAN:0" /\
  getKey (body (run decimalZ (init decimalZ state_enabled) [Input [0; 0]; MutationBatch]))
         [0; 0]
  = getKey (body state_enabled) [0; 0].
Proof.
  split; [reflexivity|].
  pose proof (keys_stable decimalZ state_enabled [Input [0; 0]; MutationBatch] eq_refl)
    as [K1 K2].
  split; [apply K1 | apply K2].
Defined.

(** X19 at [state_enabled]: a mutation batch, a focus event and the answer
    to [getEditedElements] write nothing. *)
Lemma storage_written_at_input_only_witness :
  forallb handledNoInput [MutationBatch; Focus [0; 0]; Message getEditedElements] = true /\
  storage (run decimalZ (init decimalZ state_enabled)
             [MutationBatch; Focus [0; 0]; Message getEditedElements])
  = storage state_enabled.
Proof.
  split; [reflexivity|].
  exact (storage_written_at_input_only decimalZ state_enabled
           [MutationBatch; Focus [0; 0]; Message getEditedElements] eq_refl).
Defined.

(** X20 at the enabled [span] of [doc_enabled]: an [input] event with the
    text [Hello], the page renders the [span] again with its own text, and
    the pass of the next mutation batch brings [Hello] back. *)
Lemma edit_survives_rerender_witness :
  hasListeners state_enabled [0; 0] = true /\
  nodeAt (body state_enabled) [0; 0] = Some (Element span_enabled [Text "Hello"]) /\
  location state_enabled = lastPath state_enabled /\
  applying (watcher state_enabled) = false /\
  suspended (watcher state_enabled) = [] /\
  StoredTrimmed (getSavedEdits (onInput state_enabled [0; 0])) /\
  LeafTargets decimalZ (getSavedEdits (onInput state_enabled [0; 0])) doc_rendered_again /\
  Unambiguous decimalZ (getSavedEdits (onInput state_enabled [0; 0])) doc_rendered_again /\
  getElementByKey decimalZ doc_rendered_again (getKey (body state_enabled) [0; 0])
  = Some [0; 0] /\
  nodeAt doc_rendered_again [0; 0] = Some (plain "SPAN" [Text "Original"]) /\
  textNodes (plain "SPAN" [Text "Original"]) = 1%nat /\
  (exists node3,
     nodeAt (body (run decimalZ (onInput state_enabled [0; 0])
                     [HostChange doc_rendered_again (location state_enabled); MutationBatch;
                      PassResumes 0; PassResumes 0; PassResumes 0]))
            [0; 0]
     = Some node3 /\
     trim (textContent node3) = trim (textContent (Element span_enabled [Text "Hello"]))) /\
  applying (watcher (run decimalZ (onInput state_enabled [0; 0])
                       [HostChange doc_rendered_again (location state_enabled); MutationBatch;
                        PassResumes 0; PassResumes 0; PassResumes 0])) = false.
Proof.
  assert (T : StoredTrimmed (getSavedEdits (onInput state_enabled [0; 0]))).
  { intros key text H. vm_compute in H. destruct H as [[= <- <-]|[]]. reflexivity. }
  assert (L : LeafTargets decimalZ (getSavedEdits (onInput state_enabled [0; 0]))
                          doc_rendered_again).
  { intros key text el node H K N. vm_compute in H. destruct H as [[= <- <-]|[]].
    vm_compute in K. injection K as <-. vm_compute in N. injection N as <-.
    split; [reflexivity | simpl; lia]. }
  assert (U : Unambiguous decimalZ (getSavedEdits (onInput state_enabled [0; 0]))
                          doc_rendered_again).
  { intros key1 text1 key2 text2 el H1 H2 _ _. vm_compute in H1, H2.
    destruct H1 as [[= <- <-]|[]]. destruct H2 as [[= <- <-]|[]]. reflexivity. }
  assert (E : dataIsEditing (plain "SPAN" [Text "Original"]) <> Some "true"%string)
    by discriminate.
  split; [reflexivity|]. split; [reflexivity|]. split; [reflexivity|].
  split; [reflexivity|]. split; [reflexivity|].
  split; [exact T|]. split; [exact L|]. split; [exact U|].
  split; [reflexivity|]. split; [reflexivity|]. split; [reflexivity|].
  exact (edit_survives_rerender decimalZ state_enabled [0; 0]
           (Element span_enabled [Text "Hello"]) doc_rendered_again [0; 0]
           (plain "SPAN" [Text "Original"])
           eq_refl eq_refl eq_refl eq_refl eq_refl T L U eq_refl eq_refl E eq_refl).
Defined.

(** The same scenario evaluated: the [span] shows [Hello] once the
    [applyEdits] of the pass is fulfilled.  A batch that arrives while the
    guard is set for good reconciles nothing: the [span] keeps the text of
    the page. *)
Example edit_survives_rerender_example :
  let shown evs :=
    option_map textContent
      (nodeAt (body (run decimalZ (onInput state_enabled [0; 0])
                       (HostChange doc_rendered_again (location state_enabled) :: evs)))
              [0; 0]) in
  shown [MutationBatch] = Some "Original"%string /\
  shown [MutationBatch; PassResumes 0] = Some "Hello"%string /\
  shown [MutationBatch; PassRejected 0; MutationBatch; PassResumes 0; MutationBatch]
  = Some "Original"%string.
Proof. repeat split; reflexivity. Qed.

(** X22 at a page that was left with an edit stored for it: the pass that
    the navigation batch starts writes nothing into the new page. *)
Lemma pass_across_navigation_applies_nothing_witness :
  let st := with_storage
              (mkStorage None [("https://example.org/a", [("DIV:0>SPAN:0", "EditedA")])])
              state_navigated in
  applying (watcher st) = false /\
  suspended (watcher st) = [] /\
  location st <> lastPath st /\
  location st <> currentPageKey st /\
  (let st1 := step decimalZ st MutationBatch in
   currentPageKey st1 = location st /\
   requestedKey st1 = currentPageKey st /\
   suspended (watcher st1) = [awaitApplyEdits] /\
   step decimalZ st1 (PassResumes 0)
   = with_watcher (watcherStep (watcher st1) (Resume 0)) st1).
Proof.
  intros st.
  assert (L : location st <> lastPath st) by discriminate.
  assert (C : location st <> currentPageKey st) by discriminate.
  split; [reflexivity|]. split; [reflexivity|]. split; [exact L|]. split; [exact C|].
  exact (pass_across_navigation_applies_nothing decimalZ st eq_refl eq_refl L C).
Defined.

(** The same evaluated: after the navigation batch and its pass the [span]
    of the new page shows the text of the page, not the edit stored for the
    page that was left; on the page that was not left the edit is shown. *)
Example pass_across_navigation_example :
  let stored := mkStorage None [("https://example.org/a", [("DIV:0>SPAN:0", "EditedA")])] in
  let shown st :=
    option_map textContent
      (nodeAt (body (run decimalZ st
                       [MutationBatch; PassResumes 0; PassResumes 0; PassResumes 0]))
              [0; 0]) in
  shown (with_storage stored state_navigated) = Some "Hello"%string /\
  shown (with_storage stored state_enabled) = Some "EditedA"%string.
Proof. split; reflexivity. Qed.
